(** * The SSE bridge of the Smart Diff MCP server

    A shallow embedding of [crates/mcp-server/sse_bridge.py]: the bridge
    object ([McpSseBridge]), the child process it owns, the line-framed
    exchange with the child ([send_to_mcp]), the fan-out to the queues of
    the connected SSE clients ([broadcast_to_clients]), the message and
    health handlers, and the start and stop of the child.

    Conventions.
    - A Python [bytes] value is a [list byte].  A Python [str] is held in a
      Rocq [string] as its UTF-8 encoding, so [bytes.decode()] is a
      validity check and [str.encode()] changes the carrier only.
    - A function that can raise returns a [result]; a call that can also
      wait for ever (a read on the child's pipe) returns a [call]; a
      method of the bridge takes the bridge and returns the bridge it
      leaves.
    - [json.loads], [json.dumps], the codecs other than UTF-8 and the text
      of the exceptions the Python library raises are not part of the
      repository: the development is parametric in them ([PyRuntime]).
      [json.loads] returns a value or raises: a [JSONDecodeError], or for
      some texts another exception (a [ValueError] for a number of more
      than 4300 digits, a [RecursionError] for deep nesting).
    - The child process is the environment.  Its handle records what the
      bridge wrote to it, what it has emitted and the bridge has not read
      yet, and how it reacts to input and to signals.  The pipe to the
      child takes what is written to it.  The child emits output in
      reaction to input only; a read finds what it has emitted, then the
      end of the stream if the child has closed its output or is gone,
      and otherwise waits for ever.
    - A signal takes effect a moment after it is sent: [Popen.kill()]
      returns while the child is still there, and the next [poll()] can
      still find it running.
    - Logging is left out, except where building the log text can raise. *)

From Stdlib Require Import ZArith List String Ascii.
From Stdlib.Strings Require Import Byte.
From stdpp Require Import base gmap strings list pretty.
From Equations Require Import Equations.

Set Warnings "-register-all".
Local Open Scope string_scope.
Local Open Scope list_scope.

(** ** Python values *)

Definition bytes := list byte.

#[global] Instance byte_eq_dec : EqDecision byte := Byte.byte_eq_dec.

(** What [json.loads] builds.  A [dict] keeps its keys in insertion order,
    which [json.dumps] follows, hence the association list. *)
Inductive json :=
| JNull
| JBool (b : bool)
| JInt (n : Z)
| JFloat (repr : string)
| JStr (s : string)
| JArr (items : list json)
| JObj (fields : list (string * json)).

(** [type(v).__name__] *)
Definition type_name (v : json) : string :=
  match v with
  | JNull => "NoneType"
  | JBool _ => "bool"
  | JInt _ => "int"
  | JFloat _ => "float"
  | JStr _ => "str"
  | JArr _ => "list"
  | JObj _ => "dict"
  end.

Inductive exn_class :=
| RuntimeError
| JSONDecodeError
| UnicodeDecodeError
| AttributeError
| FileNotFoundError
| ValueError
| RecursionError
| LookupError
| OtherError (name : string).

#[global] Instance exn_class_eq_dec : EqDecision exn_class.
Proof. solve_decision. Defined.

(** An exception: its class and [str(e)]. *)
Record exn := Exn { exn_cls : exn_class; exn_str : string }.

Inductive result (A : Type) :=
| Ok (a : A)
| Raise (e : exn).
Arguments Ok {A} a.
Arguments Raise {A} e.

(** How a call that can block comes out: it ends, with a value or an
    exception, or it never returns.  A [result] written where a [call] is
    expected is the call that ends with it. *)
Inductive call (A : Type) :=
| Ends (r : result A)
| Blocks.
Arguments Ends {A} r.
Arguments Blocks {A}.

Coercion Ends : result >-> call.
#[local] Arguments pair {A B} & a b.
#[local] Arguments Some {A} & a.

(** *** dict operations *)

Fixpoint dict_get (key : string) (fields : list (string * json)) : option json :=
  match fields with
  | [] => None
  | (k, v) :: rest => if String.eqb k key then Some v else dict_get key rest
  end.

(** [key in d] for a dict [d] *)
Definition dict_contains (key : string) (fields : list (string * json)) : bool :=
  match dict_get key fields with Some _ => true | None => false end.

(** [v.get(key, default)]: only a dict has the method; on any other JSON
    value the attribute lookup raises. *)
Definition attribute_error (type attr : string) : exn :=
  Exn AttributeError
    ("'" +:+ type +:+ "' object has no attribute '" +:+ attr +:+ "'").

Definition py_get (v : json) (key : string) (default : json) : result json :=
  match v with
  | JObj fields =>
      Ok (match dict_get key fields with Some x => x | None => default end)
  | _ => Raise (attribute_error (type_name v) "get")
  end.

(** ** The Python library *)

Class PyRuntime := {
  (** [json.loads]: the value, or the exception it raises *)
  json_loads : string -> exn + json;
  (** [json.dumps] *)
  json_dumps : json -> string;
  (** [str(e)] of the [UnicodeDecodeError] that [bytes.decode()] raises *)
  utf8_error_text : bytes -> string;
  (** [bytes.decode(encoding)] for an encoding named in a request: the
      text, or the exception raised (the bytes are not of that encoding,
      or there is no such encoding) *)
  codec_decode : string -> bytes -> exn + string;
}.

(** *** UTF-8 *)

Definition in_range (lo hi : N) (b : byte) : bool :=
  ((lo <=? Byte.to_N b) && (Byte.to_N b <=? hi))%N.

Definition is_cont (b : byte) : bool := in_range 0x80 0xBF b.

(** Lead byte and first continuation of a three-byte form (no overlong
    form, no surrogate). *)
Definition lead3 (b0 b1 : byte) : bool :=
  (in_range 0xE0 0xE0 b0 && in_range 0xA0 0xBF b1)
  || (in_range 0xE1 0xEC b0 && is_cont b1)
  || (in_range 0xED 0xED b0 && in_range 0x80 0x9F b1)
  || (in_range 0xEE 0xEF b0 && is_cont b1).

(** Lead byte and first continuation of a four-byte form (up to U+10FFFF). *)
Definition lead4 (b0 b1 : byte) : bool :=
  (in_range 0xF0 0xF0 b0 && in_range 0x90 0xBF b1)
  || (in_range 0xF1 0xF3 b0 && is_cont b1)
  || (in_range 0xF4 0xF4 b0 && in_range 0x80 0x8F b1).

Fixpoint utf8_valid (bs : bytes) : bool :=
  match bs with
  | [] => true
  | b0 :: r0 =>
      if in_range 0x00 0x7F b0 then utf8_valid r0
      else
        match r0 with
        | [] => false
        | b1 :: r1 =>
            if in_range 0xC2 0xDF b0 && is_cont b1 then utf8_valid r1
            else
              match r1 with
              | [] => false
              | b2 :: r2 =>
                  if lead3 b0 b1 && is_cont b2 then utf8_valid r2
                  else
                    match r2 with
                    | [] => false
                    | b3 :: r3 =>
                        lead4 b0 b1 && is_cont b2 && is_cont b3
                        && utf8_valid r3
                    end
              end
        end
  end.

(** [str.encode()] *)
Definition encode (s : string) : bytes := list_byte_of_string s.

(** [bytes.decode()] *)
Definition decode `{PyRuntime} (data : bytes) : result string :=
  if utf8_valid data then Ok (string_of_list_byte data)
  else Raise (Exn UnicodeDecodeError (utf8_error_text data)).

(** *** [str.strip()]

    The characters [str.isspace] accepts, by their UTF-8 forms: U+0009 to
    U+000D, U+001C to U+0020; U+0085, U+00A0; U+1680, U+2000 to U+200A,
    U+2028, U+2029, U+202F, U+205F, U+3000. *)

(** [ord(c)] of a byte of the text *)
Definition ord (a : ascii) : N := N_of_ascii a.

Definition space1 (a : ascii) : bool :=
  ((9 <=? ord a) && (ord a <=? 13) || (28 <=? ord a) && (ord a <=? 32))%N.

Definition space2 (a b : ascii) : bool :=
  ((ord a =? 0xC2) && ((ord b =? 0x85) || (ord b =? 0xA0)))%N.

Definition space3 (a b c : ascii) : bool :=
  ((ord a =? 0xE1) && (ord b =? 0x9A) && (ord c =? 0x80)
   || (ord a =? 0xE2) && (ord b =? 0x80)
      && ((0x80 <=? ord c) && (ord c <=? 0x8A)
          || (ord c =? 0xA8) || (ord c =? 0xA9) || (ord c =? 0xAF))
   || (ord a =? 0xE2) && (ord b =? 0x81) && (ord c =? 0x9F)
   || (ord a =? 0xE3) && (ord b =? 0x80) && (ord c =? 0x80))%N.

Fixpoint lstrip (s : list ascii) : list ascii :=
  match s with
  | [] => []
  | a :: s1 =>
      if space1 a then lstrip s1
      else
        match s1 with
        | [] => s
        | b :: s2 =>
            if space2 a b then lstrip s2
            else
              match s2 with
              | [] => s
              | c :: s3 => if space3 a b c then lstrip s3 else s
              end
        end
  end.

(** The same from the end: the argument is the text reversed. *)
Fixpoint lstrip_rev (s : list ascii) : list ascii :=
  match s with
  | [] => []
  | a :: s1 =>
      if space1 a then lstrip_rev s1
      else
        match s1 with
        | [] => s
        | b :: s2 =>
            if space2 b a then lstrip_rev s2
            else
              match s2 with
              | [] => s
              | c :: s3 => if space3 c b a then lstrip_rev s3 else s
              end
        end
  end.

Definition strip (s : string) : string :=
  string_of_list_ascii
    (rev (lstrip_rev (rev (lstrip (list_ascii_of_string s))))).

(** ** The child process *)

(** Where [Popen] connects a standard stream of the child. *)
Inductive redirect :=
| PIPE
| ToFile (path : string).

Inductive signal := SIGTERM | SIGKILL.

#[global] Instance signal_eq_dec : EqDecision signal.
Proof. solve_decision. Defined.

(** What an executable does once spawned, as far as the bridge can see:
    the bytes it emits on its output when a chunk of input reaches it
    (given the input it has had before), whether it exits on SIGTERM
    (after how long, with which return code), and whether it has closed
    its output (a program that prints what it has to say and is done with
    its output, while a server keeps it open). *)
Record program := MkProgram {
  prog_reacts : bytes -> bytes -> bytes;
  prog_on_sigterm : option (nat * Z);
  prog_closes_output : bool;
}.

(** A [subprocess.Popen] object together with the child behind it. *)
Record Popen := MkPopen {
  popen_args : list string;
  popen_stdin : redirect;
  popen_stdout : redirect;
  popen_stderr : redirect;
  popen_bufsize : Z;
  popen_env : gmap string string;
  popen_prog : program;
  (** what [poll()] finds: [None] while the child is there *)
  returncode : option Z;
  (** written by the parent, not yet handed to the pipe *)
  stdin_buffered : bytes;
  (** what has reached the child's input *)
  stdin_seen : bytes;
  (** emitted by the child and not yet read *)
  stdout_pending : bytes;
  (** signals sent to the child, oldest first *)
  signals : list signal;
}.

Definition set_io (p : Popen) (buffered seen pending : bytes) : Popen :=
  MkPopen (popen_args p) (popen_stdin p) (popen_stdout p) (popen_stderr p)
    (popen_bufsize p) (popen_env p) (popen_prog p) (returncode p)
    buffered seen pending (signals p).

Definition set_pending (p : Popen) (pending : bytes) : Popen :=
  set_io p (stdin_buffered p) (stdin_seen p) pending.

Definition set_exit (p : Popen) (rc : option Z) (sigs : list signal) : Popen :=
  MkPopen (popen_args p) (popen_stdin p) (popen_stdout p) (popen_stderr p)
    (popen_bufsize p) (popen_env p) (popen_prog p) rc
    (stdin_buffered p) (stdin_seen p) (stdout_pending p) sigs.

(** The buffered bytes go down the pipe; the child reacts to them. *)
Definition deliver (p : Popen) : Popen :=
  match stdin_buffered p with
  | [] => p
  | chunk =>
      set_io p [] (stdin_seen p ++ chunk)
        (stdout_pending p ++ prog_reacts (popen_prog p) (stdin_seen p) chunk)
  end.

(** [process.stdin.write(data)]: with [bufsize=0] the stream is raw and
    the data is in the pipe when [write] returns. *)
Definition stdin_write (data : bytes) (p : Popen) : Popen :=
  let p' := set_io p (stdin_buffered p ++ data) (stdin_seen p) (stdout_pending p) in
  if (popen_bufsize p =? 0)%Z then deliver p' else p'.

(** [process.stdin.flush()] *)
Definition stdin_flush (p : Popen) : Popen := deliver p.

(** The bytes up to and with the first newline, or all of them, and the
    bytes after. *)
Fixpoint up_to_newline (pending : bytes) : bytes * bytes :=
  match pending with
  | [] => ([], [])
  | b :: rest =>
      if Byte.eqb b x0a then ([b], rest)
      else let (line, rest') := up_to_newline rest in (b :: line, rest')
  end.

Fixpoint ends_with_newline (line : bytes) : bool :=
  match line with
  | [] => false
  | [b] => Byte.eqb b x0a
  | _ :: line' => ends_with_newline line'
  end.

(** The end of the stream follows what the child has emitted: the child
    has closed its output, or it has exited, or it has been sent a signal
    that ends it. *)
Definition stdout_ends (p : Popen) : bool :=
  prog_closes_output (popen_prog p)
  || match returncode p with Some _ => true | None => false end
  || bool_decide (SIGKILL ∈ signals p)
  || (bool_decide (SIGTERM ∈ signals p)
      && match prog_on_sigterm (popen_prog p) with
         | Some _ => true
         | None => false
         end).

(** [process.stdout.readline()] on the bytes [pending] the child has
    emitted, where [ends] says whether the end of the stream follows
    them: the line with its newline; or, before the end of the stream,
    what is left, [b''] at the end itself; and the bytes after it.
    Without a newline among the bytes and without the end of the stream
    the call waits for more: [None]. *)
Definition readline (ends : bool) (pending : bytes) : option (bytes * bytes) :=
  let (line, rest) := up_to_newline pending in
  if ends_with_newline line || ends then Some (line, rest) else None.

(** A line as [readline] hands it over before the end of the stream: it
    ends with the first newline. *)
Definition terminated (line : bytes) : Prop :=
  exists body, line = body ++ [x0a] /\ x0a ∉ body.

Lemma up_to_newline_app (pending : bytes) :
  fst (up_to_newline pending) ++ snd (up_to_newline pending) = pending.
Proof.
  induction pending as [|b rest IH]; simpl; [done|].
  destruct (Byte.eqb b x0a); simpl; [done|].
  destruct (up_to_newline rest) as [line rest']; simpl in *. by rewrite IH.
Qed.

Lemma readline_shorter (ends : bool) (pending line rest : bytes) :
  readline ends pending = Some (line, rest) -> line <> [] ->
  length rest < length pending.
Proof.
  unfold readline. intros Hr Hne. pose proof (up_to_newline_app pending) as Happ.
  destruct (up_to_newline pending) as [line' rest'].
  destruct (ends_with_newline line' || ends); [|done].
  injection Hr as -> ->. simpl in Happ. subst pending.
  destruct line; [done|]. rewrite length_app; simpl; lia.
Qed.

(** ** The bridge *)

(** An [asyncio.Queue()] (no bound): its items, oldest first, and whether
    it has been shut down. *)
Record Queue := MkQueue { q_items : list string; q_shutdown : bool }.

Definition new_queue : Queue := MkQueue [] false.

(** [await queue.put(item)].  The queue has no bound, so [put] never waits
    for room: it appends at once, or raises when the queue was shut down
    ([None]). *)
Definition queue_put (item : string) (q : Queue) : option Queue :=
  if q_shutdown q then None else Some (MkQueue (q_items q ++ [item]) false).

(** [McpSseBridge]: [clients] is the set of the clients' queue objects, each
    under its identity. *)
Record McpSseBridge := MkBridge {
  binary_path : string;
  process : option Popen;
  clients : gmap nat Queue;
}.

Definition set_process (self : McpSseBridge) (p : option Popen) : McpSseBridge :=
  MkBridge (binary_path self) p (clients self).

Definition set_clients (self : McpSseBridge) (c : gmap nat Queue) : McpSseBridge :=
  MkBridge (binary_path self) (process self) c.

(** [McpSseBridge(binary_path)] *)
Definition new_bridge (path : string) : McpSseBridge := MkBridge path None ∅.

Definition newline : string := String (ascii_of_byte x0a) "".

(** The two errors [send_to_mcp] raises itself. *)
Definition not_started : exn := Exn RuntimeError "MCP server not started".
Definition closed_connection : exn :=
  Exn RuntimeError "MCP server closed connection".

Definition inspect {A} (a : A) : {b : A | a = b} := exist _ a eq_refl.

(** What one line read from the child comes to. *)
Inductive verdict :=
| Skip
| Value (response : json)
| Fault (e : exn).

Section Exchange.
Context `{PyRuntime}.

(** Lines 81 to 93 of [send_to_mcp], for one line read: decode and strip
    it; an empty line is skipped, and so is a line on which [json.loads]
    raises a [JSONDecodeError].  [decode] is outside the [try], and the
    [except] clause names [json.JSONDecodeError] alone: any other
    exception leaves the loop. *)
Definition parse_line (response_line : bytes) : verdict :=
  match decode response_line with
  | Raise e => Fault e
  | Ok text =>
      let line := strip text in
      if String.eqb line "" then Skip
      else
        match json_loads line with
        | inr response => Value response
        | inl e =>
            if decide (exn_cls e = JSONDecodeError) then Skip else Fault e
        end
  end.

(** The [while True] loop of [send_to_mcp] over the bytes [pending] the
    child has emitted, where [ends] says whether the end of the stream
    follows them: the outcome and the bytes left unread.  The loop blocks
    where [readline] does. *)
Equations? read_loop (ends : bool) (pending : bytes) : call json * bytes
  by wf (length pending) lt :=
read_loop ends pending with inspect (readline ends pending) := {
  | exist _ None _ :=
      (Blocks, pending);
  | exist _ (Some ([], rest)) _ :=
      (Ends (Raise closed_connection), rest);
  | exist _ (Some (b :: line, rest)) Hread with parse_line (b :: line) := {
      | Skip := read_loop ends rest;
      | Value response := (Ends (Ok response), rest);
      | Fault e := (Ends (Raise e), rest) } }.
Proof. by eapply readline_shorter. Qed.

(** Lines 70 to 73: encode, write, flush. *)
Definition write_request (message : json) (p : Popen) : Popen :=
  let message_json := json_dumps message +:+ newline in
  stdin_flush (stdin_write (encode message_json) p).

(** Lines 76 to 93. *)
Definition read_reply (p : Popen) : call json * Popen :=
  let (r, rest) := read_loop (stdout_ends p) (stdout_pending p) in
  (r, set_pending p rest).

(** [send_to_mcp], lines 64 to 93: how the call comes out, and the bridge
    as it is then (where the call blocks: as it is from then on). *)
Definition send_to_mcp (self : McpSseBridge) (message : json)
  : call json * McpSseBridge :=
  match process self with
  | None => (Ends (Raise not_started), self)
  | Some p =>
      let (r, p') := read_reply (write_request message p) in
      (r, set_process self (Some p'))
  end.

End Exchange.

(** ** Broadcast *)

(** The member the set iterator is at: the [pos]-th identity of the
    membership, with its queue. *)
Definition client_at (cl : gmap nat Queue) (pos : nat) : option (nat * Queue) :=
  match elements (dom cl) !! pos with
  | None => None
  | Some q =>
      match cl !! q with
      | None => None
      | Some queue => Some (q, queue)
      end
  end.

Lemma client_at_lt (cl : gmap nat Queue) (pos : nat) (m : nat * Queue) :
  client_at cl pos = Some m -> pos < size cl.
Proof.
  unfold client_at. destruct (elements (dom cl) !! pos) as [q|] eqn:E; [|done].
  intros _. apply lookup_lt_Some in E.
  by rewrite <- size_dom.
Qed.

(** The loop of [broadcast_to_clients], lines 102 to 108.  The iterator
    reads the live set [self.clients] at every step: [size0] is the size
    the set had when the loop started (Python refuses to go on over a set
    whose size changed), [pos] the number of members already visited,
    [dead] is [dead_clients].  [tried] lists the queues a [put] was
    attempted on, in order; it is a record for the proofs, not a variable
    of the program. *)
Equations? sweep (message_json : string) (size0 pos : nat)
    (self : McpSseBridge) (dead : gset nat) (tried : list nat)
  : result (gset nat * list nat) * McpSseBridge
  by wf (size0 - pos) lt :=
sweep message_json size0 pos self dead tried
  with inspect (Nat.eqb (size (clients self)) size0) := {
  | exist _ false _ :=
      (Raise (Exn RuntimeError "Set changed size during iteration"), self);
  | exist _ true Hsize with inspect (client_at (clients self) pos) := {
      | exist _ None _ := (Ok (dead, tried), self);
      | exist _ (Some (q, queue)) Hat with queue_put message_json queue := {
          | Some queue' :=
              sweep message_json size0 (S pos)
                (set_clients self (<[q := queue']> (clients self)))
                dead (tried ++ [q]);
          | None :=
              sweep message_json size0 (S pos) self ({[q]} ∪ dead)
                (tried ++ [q]) } } }.
Proof.
  all: apply client_at_lt in Hat; apply Nat.eqb_eq in Hsize; lia.
Qed.

(** [self.clients -= dead_clients] *)
Definition remove_clients (dead : gset nat) (cl : gmap nat Queue) : gmap nat Queue :=
  filter (fun kv => kv.1 ∉ dead) cl.

Section Broadcast.
Context `{PyRuntime}.

(** The outcome, the queues a [put] was attempted on, and the bridge. *)
Definition broadcast_to_clients (self : McpSseBridge) (message : json)
  : result (list nat) * McpSseBridge :=
  let message_json := json_dumps message in
  match sweep message_json (size (clients self)) 0 self ∅ [] with
  | (Raise e, self') => (Raise e, self')
  | (Ok (dead_clients, tried), self') =>
      (Ok tried, set_clients self' (remove_clients dead_clients (clients self')))
  end.

(** The broadcast as the specification words it, to compare with the
    loop above: take a snapshot of the membership, attempt one [put] per
    member of the snapshot, and remove the members whose [put] failed once
    the sweep is over. *)
Fixpoint sweep_snapshot (message_json : string) (members : list nat)
    (cl : gmap nat Queue) (dead : gset nat) : gmap nat Queue * gset nat :=
  match members with
  | [] => (cl, dead)
  | q :: members' =>
      match cl !! q ≫= queue_put message_json with
      | Some queue' =>
          sweep_snapshot message_json members' (<[q := queue']> cl) dead
      | None => sweep_snapshot message_json members' cl ({[q]} ∪ dead)
      end
  end.

Definition broadcast_snapshot (self : McpSseBridge) (message : json)
  : list nat * McpSseBridge :=
  let message_json := json_dumps message in
  let snapshot := elements (dom (clients self)) in
  let (cl, dead) := sweep_snapshot message_json snapshot (clients self) ∅ in
  (snapshot, set_clients self (remove_clients dead cl)).

End Broadcast.

(** ** The HTTP handlers *)

(** An [aiohttp] response: the status, the body text if it has one, and the
    content type. *)
Record Response := MkResponse {
  status : Z;
  text : option string;
  content_type : string;
}.

(** What a handler comes to: the response it returns, or an exception it
    lets through to the HTTP server; or it never returns, blocked in a
    call that has no [await] (and the event loop with it). *)
Inductive outcome :=
| Returned (r : Response)
| Propagated (e : exn)
| Blocked.

(** A POST request that has arrived: the [charset] of its [Content-Type]
    header, if it names one, and its body. *)
Record Request := MkRequest {
  req_charset : option string;
  req_body : bytes;
}.

Section Handlers.
Context `{PyRuntime}.

(** [web.Response(status=200)] *)
Definition empty_response (st : Z) : Response :=
  MkResponse st None "application/octet-stream".

(** [web.json_response(data, status=st)] *)
Definition json_response (data : json) (st : Z) : Response :=
  MkResponse st (Some (json_dumps data)) "application/json".

(** [await request.text()]: the body decoded with
    [self.charset or "utf-8"]. *)
Definition request_text (request : Request) : result string :=
  match req_charset request with
  | None | Some "" => decode (req_body request)
  | Some encoding =>
      match codec_decode encoding (req_body request) with
      | inr body => Ok body
      | inl e => Raise e
      end
  end.

(** [await request.json()]: the text of the body handed to [json.loads]. *)
Definition request_json (request : Request) : result json :=
  match request_text request with
  | Raise e => Raise e
  | Ok body =>
      match json_loads body with
      | inr message => Ok message
      | inl e => Raise e
      end
  end.

Definition error_envelope (id : json) (e : exn) : json :=
  JObj [("jsonrpc", JStr "2.0");
        ("id", id);
        ("error", JObj [("code", JInt (-32603));
                        ("message", JStr (exn_str e))])].

(** The [except Exception as e] block, lines 181 to 191.  [message] is
    [None] when the name was never bound ([request.json()] raised).  The
    block calls [message.get('id')] on whatever was parsed; an exception
    raised here is not handled by anything in [message_handler]. *)
Definition handle_exception (message : option json) (e : exn) : outcome :=
  let id :=
    match message with
    | Some m => py_get m "id" JNull
    | None => Ok JNull
    end in
  match id with
  | Raise e' => Propagated e'
  | Ok id => Returned (json_response (error_envelope id e) 500)
  end.

(** [message_handler], lines 161 to 191, on the module's [bridge]. *)
Definition message_handler (request : Request) (bridge : option McpSseBridge)
  : outcome * option McpSseBridge :=
  match request_json request with
  | Raise e => (handle_exception None e, bridge)
  | Ok message =>
      match message with
      | JObj fields =>
          (* a dict: [message.get('method', 'unknown')] on line 165 returns *)
          if negb (dict_contains "id" fields) then
            (Returned (empty_response 200), bridge)
          else
            match bridge with
            | None =>
                (handle_exception (Some message)
                   (attribute_error "NoneType" "send_to_mcp"), bridge)
            | Some b =>
                match send_to_mcp b message with
                | (Blocks, b1) => (Blocked, Some b1)
                | (Ends (Raise e), b1) =>
                    (handle_exception (Some message) e, Some b1)
                | (Ends (Ok response), b1) =>
                    match broadcast_to_clients b1 response with
                    | (Raise e, b2) =>
                        (handle_exception (Some message) e, Some b2)
                    | (Ok _, b2) =>
                        (Returned (json_response response 200), Some b2)
                    end
                end
            end
      | _ =>
          (* not a dict: [message.get] on line 165 raises *)
          (handle_exception (Some message)
             (attribute_error (type_name message) "get"), bridge)
      end
  end.

(** [Popen.poll()]: the return code, [None] while the child is there; it
    does not wait. *)
Definition poll (p : Popen) : option Z := returncode p.

Definition healthy : json := JObj [("status", JStr "healthy")].
Definition unhealthy : json := JObj [("status", JStr "unhealthy")].

(** [health_handler], lines 194 to 199. *)
Definition health_handler (bridge : option McpSseBridge)
  : Response * option McpSseBridge :=
  match bridge with
  | Some b =>
      match process b with
      | Some p =>
          match poll p with
          | None => (json_response healthy 200, bridge)
          | Some _ => (json_response unhealthy 503, bridge)
          end
      | None => (json_response unhealthy 503, bridge)
      end
  | None => (json_response unhealthy 503, bridge)
  end.

(** A child process handle exists and its poll says the child runs. *)
Definition alive (bridge : option McpSseBridge) : Prop :=
  exists b p, bridge = Some b /\ process b = Some p /\ poll p = None.

End Handlers.

(** ** The life of the child *)

Inductive open_mode := ModeW | ModeA.

(** What the bridge touches outside itself: the environment variables, the
    regular files by path, the executables by path, and the clock. *)
Record OS := MkOS {
  environ : gmap string string;
  files : gmap string bytes;
  programs : gmap string program;
  clock : nat;
}.

(** [open(path, mode)] for writing: ['w'] creates the file or empties it,
    ['a'] creates it or keeps what it holds. *)
Definition py_open (path : string) (mode : open_mode) (os : OS) : OS :=
  let content :=
    match mode, files os !! path with
    | ModeA, Some old => old
    | _, _ => []
    end in
  MkOS (environ os) (<[path := content]> (files os)) (programs os) (clock os).

Definition tick (dt : nat) (os : OS) : OS :=
  MkOS (environ os) (files os) (programs os) (clock os + dt).

Definition stderr_log : string := "/tmp/mcp-server-stderr.log".

(** [start_mcp_server], lines 31 to 51. *)
Definition start_mcp_server (self : McpSseBridge) (os : OS)
  : result unit * McpSseBridge * OS :=
  let env := <["RUST_LOG" := "debug"]> (environ os) in
  let os' := py_open stderr_log ModeW os in
  match programs os !! binary_path self with
  | None =>
      (Raise (Exn FileNotFoundError
                ("[Errno 2] No such file or directory: '"
                 +:+ binary_path self +:+ "'")), self, os')
  | Some prog =>
      let p := MkPopen [binary_path self] PIPE PIPE (ToFile stderr_log)
                 0 env prog None [] [] [] [] in
      (Ok tt, set_process self (Some p), os')
  end.

(** [Popen.terminate()] and [Popen.kill()]: the object polls first and
    sends nothing to a child it finds gone; otherwise it sends the signal
    and returns.  The child is still there when the call returns. *)
Definition terminate (p : Popen) : Popen :=
  match poll p with
  | Some _ => p
  | None => set_exit p None (signals p ++ [SIGTERM])
  end.

Definition kill (p : Popen) : Popen :=
  match poll p with
  | Some _ => p
  | None => set_exit p None (signals p ++ [SIGKILL])
  end.

(** A moment passes: a child that was sent SIGKILL is gone (it cannot
    hold off that signal), and [poll()] finds its return code, -9. *)
Definition settle (p : Popen) : Popen :=
  match poll p with
  | Some _ => p
  | None =>
      if bool_decide (SIGKILL ∈ signals p)
      then set_exit p (Some (-9)%Z) (signals p)
      else p
  end.

(** [Popen.wait(timeout)]: the return code ([None] for [TimeoutExpired]),
    the object afterwards, and the time spent waiting.  A child that was
    sent SIGKILL is gone at once; a running child exits on a signal
    only. *)
Definition wait (timeout : nat) (p : Popen) : option Z * Popen * nat :=
  match poll p with
  | Some rc => (Some rc, p, 0)
  | None =>
      if bool_decide (SIGKILL ∈ signals p)
      then (Some (-9)%Z, set_exit p (Some (-9)%Z) (signals p), 0)
      else
        match bool_decide (SIGTERM ∈ signals p), prog_on_sigterm (popen_prog p) with
        | true, Some (delay, rc) =>
            if Nat.leb delay timeout
            then (Some rc, set_exit p (Some rc) (signals p), delay)
            else (None, p, timeout)
        | _, _ => (None, p, timeout)
        end
  end.

(** [stop_mcp_server], lines 53 to 62. *)
Definition stop_mcp_server (self : McpSseBridge) (os : OS) : McpSseBridge * OS :=
  match process self with
  | None => (self, os)
  | Some p =>
      match wait 5 (terminate p) with
      | (Some _, p', dt) => (set_process self (Some p'), tick dt os)
      | (None, p', dt) => (set_process self (Some (kill p')), tick dt os)
      end
  end.

(** The program is still there [timeout] after a SIGTERM. *)
Definition outlasts (timeout : nat) (prog : program) : bool :=
  match prog_on_sigterm prog with
  | Some (delay, _) => negb (Nat.leb delay timeout)
  | None => true
  end.

(** The child [p] is still there [timeout] after a SIGTERM: no SIGKILL is
    on its way to it, and its program outlasts the SIGTERM. *)
Definition lingers (timeout : nat) (p : Popen) : bool :=
  negb (bool_decide (SIGKILL ∈ signals p)) && outlasts timeout (popen_prog p).

(** The bridge a moment later. *)
Definition settled (self : McpSseBridge) : McpSseBridge :=
  set_process self (settle <$> process self).

(** Over a step from [before] to [after] the file at [path] was only
    appended to: what it held is still there, at the front. *)
Definition appended_only (path : string) (before after : OS) : Prop :=
  forall old, files before !! path = Some old ->
    exists more, files after !! path = Some (old ++ more).

(** ** Handlers side by side

    The handlers are coroutines of one event loop: a handler keeps the
    thread until it awaits something that is not ready.  In
    [message_handler] that is [await request.json()] alone.
    [send_to_mcp] has no [await] in its body (its pipe calls block the
    thread), and [put] on a queue without bound returns at once.  What
    follows keeps, of a handler, the two halves of its exchange with the
    child. *)

(** A statement of task [t] against the child: lines 70 to 73
    ([write_request]) and lines 76 to 93 ([read_reply]). *)
Inductive step :=
| Write (t : nat)
| Read (t : nat).

(** The code of a handler, with the places where it can be suspended. *)
Inductive instr :=
| Await
| Do (s : step).

(** [message_handler] for task [t]: [await request.json()], then
    [send_to_mcp]. *)
Definition handler_code (t : nat) : list instr :=
  [Await; Do (Write t); Do (Read t)].

(** A task runs from where it stands to its next suspension or to its
    end: the steps taken, and what is left of its code. *)
Fixpoint run_segment (code : list instr) : list step * list instr :=
  match code with
  | [] => ([], [])
  | Await :: rest => ([], rest)
  | Do s :: rest => let (steps, left) := run_segment rest in (s :: steps, left)
  end.

(** The event loop: [picks] is the order in which it resumes the tasks. *)
Fixpoint event_loop (picks : list nat) (tasks : list (list instr)) : list step :=
  match picks with
  | [] => []
  | t :: picks' =>
      match tasks !! t with
      | None => event_loop picks' tasks
      | Some code =>
          let (steps, left) := run_segment code in
          steps ++ event_loop picks' (<[t := left]> tasks)
      end
  end.

(** The handlers of [n] posted requests. *)
Definition handlers (n : nat) : list (list instr) := handler_code <$> seq 0 n.

(** At most one exchange is in flight at any point of a run: [cur] is the
    task whose request is written and whose reply is not read yet. *)
Fixpoint single_flight (cur : option nat) (run : list step) : bool :=
  match run with
  | [] => true
  | Write t :: run' =>
      match cur with
      | None => single_flight (Some t) run'
      | Some _ => false
      end
  | Read t :: run' =>
      match cur with
      | Some t' => Nat.eqb t t' && single_flight None run'
      | None => false
      end
  end.

(** Exchanges one after the other, in the order [ts] of their tasks. *)
Definition serial (ts : list nat) : list step :=
  ts ≫= (fun t => [Write t; Read t]).

(** Where the handler of task [t] can stand: at its start, past its
    [await], or at its end. *)
Definition stage_ok (t : nat) (code : list instr) : Prop :=
  code = handler_code t \/ code = [Do (Write t); Do (Read t)] \/ code = [].

Section Run.
Context `{PyRuntime}.

(** The child answers each of [requests] with output that one exchange
    reads to its end and that holds one JSON line, [answer] of the
    request.  The child keeps its output open, so the exchange reads
    complete lines only. *)
Definition answers (prog : program) (requests : list json)
    (answer : json -> json) : Prop :=
  forall seen message,
    message ∈ requests ->
    read_loop false
      (prog_reacts prog seen (encode (json_dumps message +:+ newline)))
    = (Ok (answer message), []).

(** The steps of a run carried out on the child: task [t] sends
    [requests !! t]; [replies] holds how each task's read came out.  A
    read that blocks holds the thread: no later step is taken. *)
Fixpoint run_steps (requests : list json) (run : list step) (p : Popen)
    (replies : gmap nat (call json)) : Popen * gmap nat (call json) :=
  match run with
  | [] => (p, replies)
  | Write t :: run' =>
      match requests !! t with
      | Some message => run_steps requests run' (write_request message p) replies
      | None => run_steps requests run' p replies
      end
  | Read t :: run' =>
      match read_reply p with
      | (Blocks, p') => (p', <[t := Blocks]> replies)
      | (r, p') => run_steps requests run' p' (<[t := r]> replies)
      end
  end.

End Run.

(** ** The SSE handler

    [sse_handler] is a coroutine: it runs from one [await] to the next.
    [sse_resume] is one such stretch; [sse_cancel] is the cancellation of
    its task where it waits, and [hang_up] the loss of the client's
    connection, which the handler notices at its next write. *)

(** A [web.StreamResponse]: its headers, whether [prepare] has sent them,
    the chunks written to it (oldest first), and whether the connection
    under it still takes data. *)
Record StreamResponse := MkStream {
  sr_headers : gmap string string;
  sr_prepared : bool;
  sr_written : list bytes;
  sr_open : bool;
}.

(** [web.StreamResponse()] for a request whose connection is up. *)
Definition new_stream : StreamResponse := MkStream ∅ false [] true.

(** [response.headers[name] = value] *)
Definition set_header (name value : string) (r : StreamResponse) : StreamResponse :=
  MkStream (<[name := value]> (sr_headers r)) (sr_prepared r) (sr_written r)
    (sr_open r).

(** [await response.prepare(request)]: [None] when it raises (the
    connection is gone). *)
Definition sr_prepare (r : StreamResponse) : option StreamResponse :=
  if sr_open r
  then Some (MkStream (sr_headers r) true (sr_written r) true)
  else None.

(** [await response.write(data)]: [None] when it raises. *)
Definition sr_write (data : bytes) (r : StreamResponse) : option StreamResponse :=
  if sr_prepared r && sr_open r
  then Some (MkStream (sr_headers r) true (sr_written r ++ [data]) true)
  else None.

(** The connection goes away. *)
Definition hang_up (r : StreamResponse) : StreamResponse :=
  MkStream (sr_headers r) (sr_prepared r) (sr_written r) false.

(** [await queue.get()]: the oldest item and the queue without it; or the
    queue is empty and [get] waits; or it is empty and shut down, and
    [get] raises. *)
Inductive got :=
| Item (message : string) (rest : Queue)
| Empty
| ShutDown.

Definition queue_get (q : Queue) : got :=
  match q_items q with
  | message :: rest => Item message (MkQueue rest (q_shutdown q))
  | [] => if q_shutdown q then ShutDown else Empty
  end.

(** The two frames [sse_handler] writes. *)
Definition endpoint_event : bytes :=
  encode ("event: endpoint" +:+ newline +:+ "data: /message" +:+ newline +:+ newline).

Definition message_event (message : string) : bytes :=
  encode ("event: message" +:+ newline +:+ "data: " +:+ message
          +:+ newline +:+ newline).

(** The module's state: the global [bridge], and the identity the next
    object created will get (a queue object is a new object: it is none
    of the queues that exist). *)
Record App := MkApp {
  app_bridge : option McpSseBridge;
  app_next : nat;
}.

(** An exception that leaves [sse_handler]. *)
Inductive sse_fault :=
| PrepareFailed
| NoBridge
| Cancelled.

(** Where the handler stands: before [response.prepare], before it
    creates its queue, in its loop with the queue [q], returned, or left
    by an exception. *)
Inductive sse_pc :=
| AtPrepare
| AtRegister
| AtGet (q : nat)
| SseReturned
| SseRaised (fault : sse_fault).

Record SseConn := MkSse { sse_response : StreamResponse; sse_pc_of : sse_pc }.

(** [await request] arrives: the handler has not run yet. *)
Definition new_conn : SseConn := MkSse new_stream AtPrepare.

(** [bridge.clients.add(client_queue)] for the queue just created. *)
Definition add_client (app : App) (b : McpSseBridge) : App :=
  MkApp (Some (set_clients b (<[app_next app := new_queue]> (clients b))))
        (S (app_next app)).

(** [bridge.clients.discard(client_queue)] *)
Definition discard_client (q : nat) (app : App) : App :=
  MkApp ((fun b => set_clients b (delete q (clients b))) <$> app_bridge app)
        (app_next app).

(** The handler runs to its next [await].  In the loop it takes one
    message off its queue and writes it, or finds the queue empty and
    keeps waiting.  The result is [None] where the model does not follow
    the program: the handler's queue is no longer in [bridge.clients]
    while the handler still runs (a broadcast took it out after a refused
    [put]; what the queue object still holds is not recorded). *)
Definition sse_resume (conn : SseConn) (app : App) : option (SseConn * App) :=
  let r := sse_response conn in
  match sse_pc_of conn with
  | AtPrepare =>
      let r := set_header "Content-Type" "text/event-stream" r in
      let r := set_header "Cache-Control" "no-cache" r in
      let r := set_header "Connection" "keep-alive" r in
      let r := set_header "Access-Control-Allow-Origin" "*" r in
      match sr_prepare r with
      | Some r' => Some (MkSse r' AtRegister, app)
      | None => Some (MkSse r (SseRaised PrepareFailed), app)
      end
  | AtRegister =>
      match app_bridge app with
      | None => Some (MkSse r (SseRaised NoBridge), app)
      | Some b =>
          let q := app_next app in
          let app' := add_client app b in
          match sr_write endpoint_event r with
          | Some r' => Some (MkSse r' (AtGet q), app')
          | None =>
              (* except Exception; finally *)
              Some (MkSse r SseReturned, discard_client q app')
          end
      end
  | AtGet q =>
      match app_bridge app with
      | None => None
      | Some b =>
          match clients b !! q with
          | None => None
          | Some queue =>
              match queue_get queue with
              | Empty => Some (conn, app)
              | ShutDown =>
                  (* except Exception; finally *)
                  Some (MkSse r SseReturned, discard_client q app)
              | Item message queue' =>
                  let app' :=
                    MkApp (Some (set_clients b (<[q := queue']> (clients b))))
                          (app_next app) in
                  match sr_write (message_event message) r with
                  | Some r' => Some (MkSse r' (AtGet q), app')
                  | None =>
                      (* break; finally *)
                      Some (MkSse r SseReturned, discard_client q app')
                  end
              end
          end
      end
  | SseReturned | SseRaised _ => Some (conn, app)
  end.

(** The handler's task is cancelled.  Before the [try] the
    [CancelledError] leaves the handler; inside it is caught, and the
    [finally] block takes the queue out. *)
Definition sse_cancel (conn : SseConn) (app : App) : SseConn * App :=
  let r := sse_response conn in
  match sse_pc_of conn with
  | AtPrepare | AtRegister => (MkSse r (SseRaised Cancelled), app)
  | AtGet q => (MkSse r SseReturned, discard_client q app)
  | SseReturned | SseRaised _ => (conn, app)
  end.

(** What can happen to a connected client's handler and around it. *)
Inductive happening :=
| Resume
| Cancel
| HangUp
| Push (message : json).

Section Sse.
Context `{PyRuntime}.

(** A broadcast on the module's bridge. *)
Definition app_broadcast (message : json) (app : App) : App :=
  MkApp ((fun b => (broadcast_to_clients b message).2) <$> app_bridge app)
        (app_next app).

Definition happen (h : happening) (s : SseConn * App) : option (SseConn * App) :=
  match h with
  | Resume => sse_resume s.1 s.2
  | Cancel => Some (sse_cancel s.1 s.2)
  | HangUp => Some (MkSse (hang_up (sse_response s.1)) (sse_pc_of s.1), s.2)
  | Push message => Some (s.1, app_broadcast message s.2)
  end.

(** [sse_handler] for one client, from the request on, with what happens
    meanwhile. *)
Fixpoint sse_handler (hs : list happening) (s : SseConn * App)
  : option (SseConn * App) :=
  match hs with
  | [] => Some s
  | h :: hs' =>
      match happen h s with
      | Some s' => sse_handler hs' s'
      | None => None
      end
  end.

End Sse.

(** Every queue in the set is older than the next object, and none is shut
    down. *)
Definition app_ok (app : App) : Prop :=
  forall b, app_bridge app = Some b ->
    forall q queue, clients b !! q = Some queue ->
      q < app_next app /\ q_shutdown queue = false.

(** The messages pushed, in order. *)
Definition pushed (hs : list happening) : list json :=
  omap (fun h => match h with Push m => Some m | _ => None end) hs.

(** ** Startup and cleanup *)

(** [start_background_tasks] and [cleanup_background_tasks], lines 202 to
    209, on the module's [bridge]. *)
Definition start_background_tasks (bridge : option McpSseBridge) (os : OS)
  : result unit * option McpSseBridge * OS :=
  match bridge with
  | None => (Raise (attribute_error "NoneType" "start_mcp_server"), None, os)
  | Some b =>
      let '(r, b', os') := start_mcp_server b os in (r, Some b', os')
  end.

Definition cleanup_background_tasks (bridge : option McpSseBridge) (os : OS)
  : result unit * option McpSseBridge * OS :=
  match bridge with
  | None => (Raise (attribute_error "NoneType" "stop_mcp_server"), None, os)
  | Some b =>
      let (b', os') := stop_mcp_server b os in (Ok tt, Some b', os')
  end.

(** ** Exchanges and broadcasts in a row *)

Section Rows.
Context `{PyRuntime}.

(** The line [send_to_mcp] writes for a message. *)
Definition request_line (message : json) : bytes :=
  encode (json_dumps message +:+ newline).

(** [send_to_mcp] for each message in turn: how the calls made came out,
    and the bridge.  A call that blocks is the last one made. *)
Fixpoint exchanges (messages : list json) (self : McpSseBridge)
  : list (call json) * McpSseBridge :=
  match messages with
  | [] => ([], self)
  | message :: messages' =>
      match send_to_mcp self message with
      | (Blocks, self') => ([Blocks], self')
      | (r, self') =>
          let (rs, self'') := exchanges messages' self' in
          (r :: rs, self'')
      end
  end.

(** [broadcast_to_clients] for each message in turn. *)
Fixpoint broadcasts (messages : list json) (self : McpSseBridge) : McpSseBridge :=
  match messages with
  | [] => self
  | message :: messages' =>
      broadcasts messages' (broadcast_to_clients self message).2
  end.

End Rows.

(** ** Words for the statements *)

Section Words.
Context `{PyRuntime}.

(** The lines the reading loop passes over before it stops. *)
Definition passed_over (skipped : list bytes) : Prop :=
  Forall (fun l => terminated l /\ parse_line l = Skip) skipped.

(** The line [line] is the next one read when [line ++ rest] is what the
    child has emitted: it ends with the first newline, or it is what is
    left before the end of the stream. *)
Definition next_line (ends : bool) (line rest : bytes) : Prop :=
  terminated line
  \/ (ends = true /\ line <> [] /\ (x0a ∉ line) /\ rest = []).

(** What a response of [message_handler] looks like: the empty
    acknowledgment, a reply, or an error envelope. *)
Definition answer_shape (r : Response) : Prop :=
  r = empty_response 200
  \/ (exists response, r = json_response response 200)
  \/ (exists id e, r = json_response (error_envelope id e) 500).

(** The frames [sse_handler] writes for broadcast messages. *)
Definition frames (messages : list json) : list bytes :=
  (fun m => message_event (json_dumps m)) <$> messages.

(** What holds of a connection and of the module's state after a run of
    happenings that pushed [done_], for a handler that began when the
    bridge was [b0] and the next object was [n0]: where the handler
    stands decides whether its queue is in the set and what has been
    written. *)
Definition own_state (n0 : nat) (done_ : list json) (conn : SseConn) (app : App)
    (b' : McpSseBridge) : Prop :=
  let r := sse_response conn in
  match sse_pc_of conn with
  | AtPrepare =>
      clients b' !! n0 = None /\ app_next app = n0 /\ sr_written r = []
  | AtRegister =>
      clients b' !! n0 = None /\ app_next app = n0 /\ sr_written r = []
      /\ sr_prepared r = true
  | AtGet q =>
      q = n0 /\ sr_prepared r = true
      /\ exists queue before since,
           clients b' !! n0 = Some queue /\ done_ = before ++ since
           /\ sr_written r ++ (message_event <$> q_items queue)
              = endpoint_event :: frames since
  | SseReturned =>
      clients b' !! n0 = None
      /\ exists before since,
           done_ = before ++ since
           /\ sr_written r `prefix_of` endpoint_event :: frames since
  | SseRaised _ =>
      clients b' !! n0 = None /\ sr_written r = []
  end.

Definition life_inv (b0 : McpSseBridge) (n0 : nat) (done_ : list json)
    (s : SseConn * App) : Prop :=
  exists b',
    app_bridge s.2 = Some b' /\ app_ok s.2 /\ process b' = process b0
    /\ (forall q queue, clients b0 !! q = Some queue ->
          clients b' !! q
          = Some (MkQueue (q_items queue ++ (json_dumps <$> done_)) false))
    /\ (forall q, clients b0 !! q = None -> q <> n0 -> clients b' !! q = None)
    /\ n0 <= app_next s.2
    /\ own_state n0 done_ s.1 s.2 b'.

(** What holds of a client once its queue [q] is in the set: while the
    handler is in its loop the queue is there and open, and the frames
    written with those of what is queued are [sent]; once the handler has
    returned, what was written is a beginning of [sent]. *)
Definition stream_inv (q : nat) (sent : list bytes) (s : SseConn * App) : Prop :=
  let r := sse_response s.1 in
  match sse_pc_of s.1 with
  | AtGet q' =>
      q' = q /\ sr_prepared r = true
      /\ exists b queue,
           app_bridge s.2 = Some b /\ clients b !! q = Some queue
           /\ q_shutdown queue = false
           /\ sr_written r ++ (message_event <$> q_items queue) = sent
  | SseReturned => sr_written r `prefix_of` sent
  | _ => False
  end.

End Words.

(** ** A runtime and a child to compute with

    A JSON library cut down to what the examples need: [dumps] writes
    integers, strings that need no escape, lists and dicts the way
    [json.dumps] does; [loads] reads back the texts of [known]. *)
Module Sample.

Definition quote : string := String (ascii_of_byte x22) "".

Fixpoint dumps (v : json) : string :=
  match v with
  | JNull => "null"
  | JBool true => "true"
  | JBool false => "false"
  | JInt n => pretty n
  | JFloat repr => repr
  | JStr s => quote +:+ s +:+ quote
  | JArr items => "[" +:+ String.concat ", " (map dumps items) +:+ "]"
  | JObj fields =>
      "{" +:+ String.concat ", "
                (map (fun kv => quote +:+ kv.1 +:+ quote +:+ ": " +:+ dumps kv.2)
                     fields)
      +:+ "}"
  end.

Definition request (id : Z) : json :=
  JObj [("jsonrpc", JStr "2.0"); ("id", JInt id); ("method", JStr "ping")].

Definition reply (id : Z) : json :=
  JObj [("jsonrpc", JStr "2.0"); ("id", JInt id); ("result", JStr "pong")].

(** A notification, and a request whose [id] is [null]. *)
Definition note_fields : list (string * json) :=
  [("jsonrpc", JStr "2.0"); ("method", JStr "notifications/initialized")].

Definition null_id_fields : list (string * json) :=
  [("jsonrpc", JStr "2.0"); ("id", JNull); ("method", JStr "ping")].

Definition known : list json :=
  [request 1; request 2; reply 1; reply 2;
   JObj note_fields; JObj null_id_fields; JArr [JInt 1]].

(** A text of more than 4300 digits is a number [json.loads] does not
    take. *)
Definition too_long (s : string) : bool :=
  Nat.ltb 4300 (String.length s)
  && forallb (fun a => (48 <=? ord a)%N && (ord a <=? 57)%N)
       (list_ascii_of_string s).

Definition loads (s : string) : exn + json :=
  match List.find (fun v => String.eqb (dumps v) s) known with
  | Some v => inr v
  | None =>
      if too_long s
      then inl (Exn ValueError
                  "Exceeds the limit (4300 digits) for integer string conversion")
      else inl (Exn JSONDecodeError "Expecting value: line 1 column 1 (char 0)")
  end.

(** The one other codec: in [latin-1] every byte is a character, U+0000
    to U+00FF; the text is kept as its UTF-8 form. *)
Definition latin1_char (b : byte) : list ascii :=
  let n := Byte.to_N b in
  if (n <? 128)%N then [ascii_of_N n]
  else if (n <? 192)%N then [ascii_of_N 0xC2; ascii_of_N n]
  else [ascii_of_N 0xC3; ascii_of_N (n - 64)].

Definition codecs (encoding : string) (data : bytes) : exn + string :=
  if String.eqb encoding "latin-1"
  then inr (string_of_list_ascii (data ≫= latin1_char))
  else inl (Exn LookupError ("unknown encoding: " +:+ encoding)).

#[local] Instance runtime : PyRuntime := {|
  json_loads := loads;
  json_dumps := dumps;
  utf8_error_text := fun _ => "'utf-8' codec can't decode byte";
  codec_decode := codecs;
|}.

(** A child that answers a request with the reply of the same [id], after
    a line of log text. *)
Definition pong (data : bytes) : bytes :=
  match loads (strip (string_of_list_byte data)) with
  | inr (JObj fields) =>
      match dict_get "id" fields with
      | Some (JInt id) => encode ("pong " +:+ newline +:+ dumps (reply id) +:+ newline)
      | _ => []
      end
  | _ => []
  end.

Definition server : program :=
  MkProgram (fun _ data => pong data) (Some (2, 0%Z)) false.

(** The reply [server] gives to a request. *)
Definition answer (message : json) : json :=
  match message with
  | JObj fields =>
      match dict_get "id" fields with
      | Some (JInt id) => reply id
      | _ => JNull
      end
  | _ => JNull
  end.

(** A child that takes no notice of its input nor of SIGTERM, and has
    closed its output. *)
Definition deaf : program := MkProgram (fun _ _ => []) None true.

(** A child that takes no notice of its input nor of SIGTERM, and keeps
    its output open. *)
Definition silent : program := MkProgram (fun _ _ => []) None false.

Definition os : OS :=
  MkOS {["PATH" := "/usr/bin"]}
       {[stderr_log := encode "earlier run"]}
       {["./smart-diff-mcp" := server; "./deaf" := deaf]}
       0.

(** The child [start_mcp_server] spawns on [os], and the bridge that owns
    it. *)
Definition child : Popen :=
  MkPopen ["./smart-diff-mcp"] PIPE PIPE (ToFile stderr_log) 0
    (<["RUST_LOG" := "debug"]> (environ os)) server None [] [] [] [].

Definition bridge : McpSseBridge :=
  MkBridge "./smart-diff-mcp" (Some child) ∅.

(** A handle on a child that has [pending] to emit and then closes its
    output. *)
Definition emitting (pending : bytes) : Popen :=
  MkPopen ["./deaf"] PIPE PIPE (ToFile stderr_log) 0 ∅ deaf None [] [] pending [].

End Sample.

(** * Properties *)

(** ** The exchange with the child *)

Lemma up_to_newline_no_newline (body rest : bytes) :
  x0a ∉ body ->
  up_to_newline (body ++ x0a :: rest) = (body ++ [x0a], rest).
Proof.
  induction body as [|b body IH]; intros Hnot; simpl; [done|].
  apply not_elem_of_cons in Hnot as [Hb Hbody].
  destruct (Byte.eqb b x0a) eqn:E.
  - apply Byte.byte_dec_bl in E. congruence.
  - by rewrite IH.
Qed.

Lemma up_to_newline_last (last : bytes) :
  x0a ∉ last -> up_to_newline last = (last, []).
Proof.
  induction last as [|b last IH]; intros Hnot; simpl; [done|].
  apply not_elem_of_cons in Hnot as [Hb Hlast].
  destruct (Byte.eqb b x0a) eqn:E.
  - apply Byte.byte_dec_bl in E. congruence.
  - by rewrite IH.
Qed.

Lemma ends_with_newline_snoc (body : bytes) :
  ends_with_newline (body ++ [x0a]) = true.
Proof.
  induction body as [|b body IH]; [done|].
  simpl. by destruct (body ++ [x0a]).
Qed.

Lemma ends_with_newline_none (last : bytes) :
  x0a ∉ last -> ends_with_newline last = false.
Proof.
  induction last as [|b last IH]; intros Hnot; [done|].
  apply not_elem_of_cons in Hnot as [Hb Hlast]. simpl.
  destruct last as [|b' last]; [|by apply IH].
  destruct (Byte.eqb b x0a) eqn:E; [|done].
  apply Byte.byte_dec_bl in E. congruence.
Qed.

(** A line that is there is read, whether or not the stream ends. *)
Lemma readline_terminated (ends : bool) (line rest : bytes) :
  terminated line -> readline ends (line ++ rest) = Some (line, rest).
Proof.
  intros (body & -> & Hnot). unfold readline. rewrite <- app_assoc. simpl.
  by rewrite (up_to_newline_no_newline _ _ Hnot), ends_with_newline_snoc.
Qed.

(** Without a newline it takes the end of the stream. *)
Lemma readline_last (ends : bool) (last : bytes) :
  x0a ∉ last ->
  readline ends last = if ends then Some (last, []) else None.
Proof.
  intros Hnot. unfold readline.
  by rewrite (up_to_newline_last _ Hnot), (ends_with_newline_none _ Hnot).
Qed.

Lemma terminated_not_nil (line : bytes) : terminated line -> line <> [].
Proof. intros (body & -> & _). by destruct body. Qed.

Section ExchangeFacts.
Context `{PyRuntime}.

(** One turn of the loop. *)
Lemma read_loop_eq (ends : bool) (pending : bytes) :
  read_loop ends pending =
    match readline ends pending with
    | None => (Blocks, pending)
    | Some ([], rest) => (Raise closed_connection, rest)
    | Some (line, rest) =>
        match parse_line line with
        | Skip => read_loop ends rest
        | Value response => (Ok response, rest)
        | Fault e => (Raise e, rest)
        end
    end.
Proof.
  funelim (read_loop ends pending).
  - by rewrite e.
  - by rewrite e.
  - by rewrite Hread, Heq.
  - by rewrite Hread, Heq.
  - by rewrite Hread, Heq.
Qed.

Lemma read_loop_line (ends : bool) (line rest : bytes) :
  terminated line ->
  read_loop ends (line ++ rest) =
    match parse_line line with
    | Skip => read_loop ends rest
    | Value response => (Ok response, rest)
    | Fault e => (Raise e, rest)
    end.
Proof.
  intros Hline. rewrite read_loop_eq, (readline_terminated _ _ _ Hline).
  apply terminated_not_nil in Hline. by destruct line.
Qed.

Lemma read_loop_skips (ends : bool) (skipped : list bytes) (rest : bytes) :
  Forall (fun l => terminated l /\ parse_line l = Skip) skipped ->
  read_loop ends (concat skipped ++ rest) = read_loop ends rest.
Proof.
  induction 1 as [|l skipped [Hl Hskip] _ IH]; simpl; [done|].
  rewrite <- app_assoc, (read_loop_line _ _ _ Hl), Hskip. apply IH.
Qed.

Lemma read_loop_end (last : bytes) :
  x0a ∉ last -> (last = [] \/ parse_line last = Skip) ->
  read_loop true last = (Raise closed_connection, []).
Proof.
  intros Hnot Hlast. rewrite read_loop_eq, (readline_last _ _ Hnot).
  destruct last as [|b last]; [done|].
  destruct Hlast as [|Hskip]; [done|]. rewrite Hskip.
  by rewrite read_loop_eq.
Qed.

(** Where the child keeps its output open and has no whole line left, the
    loop waits. *)
Lemma read_loop_blocks (last : bytes) :
  x0a ∉ last -> read_loop false last = (Blocks, last).
Proof.
  intros Hnot. by rewrite read_loop_eq, (readline_last _ _ Hnot).
Qed.

(** A reply that is read although the stream is open is read whether or
    not it ends. *)
Lemma read_loop_open (ends : bool) (pending rest : bytes) (r : result json) :
  read_loop false pending = (Ends r, rest) ->
  read_loop ends pending = (Ends r, rest).
Proof.
  destruct ends; [|done].
  remember (length pending) as n eqn:Hn. revert pending Hn.
  induction n as [n IH] using lt_wf_ind. intros pending Hn.
  rewrite !(read_loop_eq _ pending). unfold readline.
  pose proof (up_to_newline_app pending) as Happ.
  destruct (up_to_newline pending) as [line rest'].
  destruct (ends_with_newline line) eqn:Hnl; cbn [orb]; [|done].
  destruct line as [|b line]; [done|].
  destruct (parse_line (b :: line)); [|done..].
  apply (IH (length rest')); [|done].
  simpl in Happ. subst pending n. simpl. rewrite length_app. lia.
Qed.

(** Writing a request changes nothing of what decides the end of the
    child's output. *)
Lemma write_request_ends (message : json) (p : Popen) :
  stdout_ends (write_request message p) = stdout_ends p.
Proof.
  unfold write_request, stdin_flush, stdin_write, stdout_ends.
  assert (Hd : forall q, returncode (deliver q) = returncode q
                         /\ signals (deliver q) = signals q
                         /\ popen_prog (deliver q) = popen_prog q).
  { intros q. unfold deliver. by destruct (stdin_buffered q). }
  destruct (popen_bufsize p =? 0)%Z.
  - destruct (Hd (deliver (set_io p (stdin_buffered p ++ encode (json_dumps message +:+ newline))
                    (stdin_seen p) (stdout_pending p)))) as (-> & -> & ->).
    by destruct (Hd (set_io p (stdin_buffered p ++ encode (json_dumps message +:+ newline))
                    (stdin_seen p) (stdout_pending p))) as (-> & -> & ->).
  - by destruct (Hd (set_io p (stdin_buffered p ++ encode (json_dumps message +:+ newline))
                    (stdin_seen p) (stdout_pending p))) as (-> & -> & ->).
Qed.

(** What [write_request] leaves in the pipe, whatever the buffering. *)
Lemma write_request_seen (message : json) (p : Popen) :
  stdin_seen (write_request message p)
  = stdin_seen p ++ stdin_buffered p ++ encode (json_dumps message +:+ newline)
  /\ stdin_buffered (write_request message p) = [].
Proof.
  unfold write_request, stdin_flush, stdin_write.
  set (data := encode _).
  assert (Hd : forall q, stdin_buffered (deliver q) = []
                         /\ stdin_seen (deliver q) = stdin_seen q ++ stdin_buffered q).
  { intros q. unfold deliver. destruct (stdin_buffered q) eqn:E; simpl.
    - by rewrite E, app_nil_r.
    - done. }
  destruct (popen_bufsize p =? 0)%Z.
  - destruct (Hd (set_io p (stdin_buffered p ++ data) (stdin_seen p) (stdout_pending p)))
      as [Hb Hs].
    destruct (Hd (deliver (set_io p (stdin_buffered p ++ data) (stdin_seen p)
                             (stdout_pending p)))) as [Hb' Hs'].
    rewrite Hs', Hb, Hs, Hb', app_nil_r. done.
  - destruct (Hd (set_io p (stdin_buffered p ++ data) (stdin_seen p) (stdout_pending p)))
      as [Hb Hs].
    by rewrite Hs, Hb.
Qed.

End ExchangeFacts.

Section ExchangeClaims.
Context `{PyRuntime}.

(** C10.  [send_to_mcp] called while the bridge has no child process
    handle fails at once with the error "MCP server not started"; the bridge
    it leaves is the bridge it was given: nothing was written to a stream
    and no field changed. *)
Theorem exchange_before_start (self : McpSseBridge) (message : json) :
  process self = None ->
  send_to_mcp self message = (Raise not_started, self).
Proof.
  intros Hnone. unfold send_to_mcp. by rewrite Hnone.
Qed.

(** C2, where the code departs from it.  The child emits a line that is
    not UTF-8 ([0xFF], newline) and then anything, say its reply.
    [send_to_mcp] does not discard the line: [response_line.decode()]
    raises outside the [try], the exchange ends with a
    [UnicodeDecodeError], which is neither a message nor the
    closed-connection error, and the bytes after the line stay unread in
    the pipe. *)
Theorem undecodable_line_ends_exchange (message : json) (after : bytes) :
  let self := MkBridge "./deaf" (Some (Sample.emitting ([xff; x0a] ++ after))) ∅ in
  (send_to_mcp self message).1
    = Raise (Exn UnicodeDecodeError (utf8_error_text [xff; x0a]))
  /\ (stdout_pending <$> process (send_to_mcp self message).2) = Some after.
Proof.
  intros self. unfold send_to_mcp, self. cbn [process].
  unfold read_reply.
  assert (Hp : stdout_pending (write_request message (Sample.emitting ([xff; x0a] ++ after)))
               = [xff; x0a] ++ after).
  { unfold write_request, stdin_flush, stdin_write; simpl.
    destruct (encode _) as [|b data] eqn:E; simpl; by rewrite ?app_nil_r. }
  rewrite Hp.
  rewrite (read_loop_line _ [xff; x0a] after).
  - by unfold parse_line, decode; simpl.
  - exists [xff]. split; [done|].
    rewrite not_elem_of_cons. split; [done | apply not_elem_of_nil].
Qed.

(** Which lines the loop passes over: the ones that are UTF-8 and, once
    stripped, are empty or rejected by [json.loads] with a
    [JSONDecodeError]. *)
Lemma parse_line_skip (line : bytes) :
  parse_line line = Skip <->
  utf8_valid line = true
  /\ (strip (string_of_list_byte line) = ""
      \/ exists e, json_loads (strip (string_of_list_byte line)) = inl e
                   /\ exn_cls e = JSONDecodeError).
Proof.
  unfold parse_line, decode. destruct (utf8_valid line).
  2:{ split; [done|]. by intros [? _]. }
  destruct (String.eqb_spec (strip (string_of_list_byte line)) "") as [->|Hne].
  - split; [|done]. intros _. split; [done|]. by left.
  - destruct (json_loads _) as [e|v] eqn:E.
    + destruct (decide (exn_cls e = JSONDecodeError)) as [Hcls|Hcls].
      * split; [|done]. intros _. split; [done|]. right. by exists e.
      * split; [done|]. intros [_ [?|(e' & [= <-] & ?)]]; done.
    + split; [done|]. intros [_ [?|(e' & ? & _)]]; done.
Qed.

(** Which lines end the exchange with an exception: the ones that are not
    UTF-8, and the ones on which [json.loads] raises something else than
    a [JSONDecodeError]. *)
Lemma parse_line_fault (line : bytes) (e : exn) :
  parse_line line = Fault e ->
  exn_cls e = UnicodeDecodeError
  \/ (json_loads (strip (string_of_list_byte line)) = inl e
      /\ exn_cls e <> JSONDecodeError).
Proof.
  unfold parse_line, decode. destruct (utf8_valid line).
  2:{ intros [= <-]. by left. }
  destruct (String.eqb _ _); [done|].
  destruct (json_loads _) as [e'|v]; [|done].
  destruct (decide (exn_cls e' = JSONDecodeError)); [done|].
  intros [= <-]. by right.
Qed.

(** The part of C2 the code keeps.  When the lines the child emits before
    its first JSON line are UTF-8 text, [send_to_mcp] hands the request to
    the child as one line, passes over those lines and returns the value of
    the first line [json.loads] accepts, leaving what follows it unread. *)
Theorem exchange_returns_first_json_line (self : McpSseBridge) (p : Popen)
    (message response : json) (skipped : list bytes) (line rest : bytes) :
  process self = Some p ->
  stdout_pending (write_request message p) = concat skipped ++ line ++ rest ->
  Forall (fun l => terminated l /\ parse_line l = Skip) skipped ->
  terminated line ->
  parse_line line = Value response ->
  send_to_mcp self message
    = (Ok response,
       set_process self (Some (set_pending (write_request message p) rest)))
  /\ stdin_seen (write_request message p)
     = stdin_seen p ++ stdin_buffered p ++ encode (json_dumps message +:+ newline).
Proof.
  intros Hp Hout Hskipped Hline Hvalue. split; [|apply write_request_seen].
  unfold send_to_mcp. rewrite Hp. unfold read_reply. rewrite Hout.
  rewrite (read_loop_skips _ _ _ Hskipped), (read_loop_line _ _ _ Hline), Hvalue.
  done.
Qed.

(** When the child's output ends and every line before the end was passed
    over, [send_to_mcp] fails with the closed-connection error.  When the
    child has emitted the same and keeps its output open, the call waits
    for more and does not return. *)
Theorem exchange_fails_at_end_of_stream (self : McpSseBridge) (p : Popen)
    (message : json) (skipped : list bytes) (last : bytes) :
  process self = Some p ->
  stdout_pending (write_request message p) = concat skipped ++ last ->
  Forall (fun l => terminated l /\ parse_line l = Skip) skipped ->
  x0a ∉ last ->
  last = [] \/ parse_line last = Skip ->
  send_to_mcp self message
    = if stdout_ends p
      then (Raise closed_connection,
            set_process self (Some (set_pending (write_request message p) [])))
      else (Blocks,
            set_process self (Some (set_pending (write_request message p) last))).
Proof.
  intros Hp Hout Hskipped Hnot Hlast.
  unfold send_to_mcp. rewrite Hp. unfold read_reply.
  rewrite Hout, write_request_ends, (read_loop_skips _ _ _ Hskipped).
  destruct (stdout_ends p).
  - by rewrite (read_loop_end _ Hnot Hlast).
  - by rewrite (read_loop_blocks _ Hnot).
Qed.

End ExchangeClaims.

(** ** The broadcast *)

Lemma sweep_eq (message_json : string) (size0 pos : nat) (self : McpSseBridge)
    (dead : gset nat) (tried : list nat) :
  sweep message_json size0 pos self dead tried =
    if Nat.eqb (size (clients self)) size0 then
      match client_at (clients self) pos with
      | None => (Ok (dead, tried), self)
      | Some (q, queue) =>
          match queue_put message_json queue with
          | Some queue' =>
              sweep message_json size0 (S pos)
                (set_clients self (<[q := queue']> (clients self)))
                dead (tried ++ [q])
          | None =>
              sweep message_json size0 (S pos) self ({[q]} ∪ dead)
                (tried ++ [q])
          end
      end
    else (Raise (Exn RuntimeError "Set changed size during iteration"), self).
Proof.
  funelim (sweep message_json size0 pos self dead tried).
  - by rewrite e.
  - by rewrite Hsize, e.
  - by rewrite Hsize, Hat, Heq.
  - by rewrite Hsize, Hat, Heq.
Qed.

Lemma set_clients_same (self : McpSseBridge) : set_clients self (clients self) = self.
Proof. by destruct self. Qed.

Lemma dom_insert_member (cl : gmap nat Queue) (q : nat) (queue : Queue) :
  q ∈ dom cl -> dom (<[q := queue]> cl) = dom cl.
Proof.
  intros Hq. rewrite dom_insert_L.
  apply subseteq_union_1_L. by apply singleton_subseteq_l.
Qed.

Lemma size_insert_member (cl : gmap nat Queue) (q : nat) (queue : Queue) :
  q ∈ dom cl -> size (<[q := queue]> cl) = size cl.
Proof. intros Hq. by rewrite <- !size_dom, dom_insert_member. Qed.

Lemma sweep_is_snapshot (message_json : string) (members : list nat) :
  forall (pos : nat) (self : McpSseBridge) (dead : gset nat) (tried : list nat),
    drop pos (elements (dom (clients self))) = members ->
    sweep message_json (size (clients self)) pos self dead tried =
      let (cl, dead') := sweep_snapshot message_json members (clients self) dead in
      (Ok (dead', tried ++ members), set_clients self cl).
Proof.
  induction members as [|q members IH]; intros pos self dead tried Hdrop.
  - rewrite sweep_eq, Nat.eqb_refl. simpl.
    unfold client_at.
    assert (elements (dom (clients self)) !! pos = None) as ->.
    { apply lookup_ge_None. apply drop_nil_inv in Hdrop. lia. }
    by rewrite app_nil_r, set_clients_same.
  - assert (Hq : elements (dom (clients self)) !! pos = Some q).
    { rewrite <- (Nat.add_0_r pos), <- lookup_drop, Hdrop. done. }
    assert (Hmem : q ∈ dom (clients self)).
    { apply elem_of_elements. by eapply list_elem_of_lookup_2. }
    assert (Hrest : drop (S pos) (elements (dom (clients self))) = members).
    { rewrite (drop_S _ _ _ Hq) in Hdrop. by injection Hdrop. }
    apply elem_of_dom in Hmem as Hsome. destruct Hsome as [queue Hqueue].
    rewrite sweep_eq, Nat.eqb_refl. unfold client_at. rewrite Hq, Hqueue.
    simpl. rewrite Hqueue. simpl.
    destruct (queue_put message_json queue) as [queue'|] eqn:Hput.
    + rewrite <- (size_insert_member (clients self) q queue' Hmem).
      specialize (IH (S pos) (set_clients self (<[q:=queue']> (clients self))) dead (tried ++ [q])).
      simpl in IH. rewrite IH.
      * destruct (sweep_snapshot _ _ _ _). by rewrite <- app_assoc.
      * by rewrite dom_insert_member.
    + rewrite (IH (S pos) self ({[q]} ∪ dead) (tried ++ [q]) Hrest).
      destruct (sweep_snapshot _ _ _ _). by rewrite <- app_assoc.
Qed.

Lemma sweep_snapshot_lookup (message_json : string) (members : list nat) :
  forall (cl : gmap nat Queue) (dead : gset nat),
    NoDup members ->
    let (cl', dead') := sweep_snapshot message_json members cl dead in
    dom cl' = dom cl
    /\ (forall q, cl' !! q =
          if bool_decide (q ∈ members) then
            match cl !! q ≫= queue_put message_json with
            | Some queue' => Some queue'
            | None => cl !! q
            end
          else cl !! q)
    /\ (forall q, q ∈ dead' <->
          q ∈ dead \/ (q ∈ members /\ cl !! q ≫= queue_put message_json = None)).
Proof.
  induction members as [|m members IH]; intros cl dead Hnodup; simpl.
  - split; [done|]. split; [done|]. intros q. split; [auto|].
    intros [?|[Hin _]]; [done|]. by apply elem_of_nil in Hin.
  - apply NoDup_cons in Hnodup as [Hm Hnodup].
    destruct (cl !! m ≫= queue_put message_json) as [queue'|] eqn:Hput.
    + specialize (IH (<[m := queue']> cl) dead Hnodup).
      destruct (sweep_snapshot _ _ _ _) as [cl' dead'].
      destruct IH as (Hdom & Hlook & Hdead).
      assert (Hmem : m ∈ dom cl).
      { apply elem_of_dom. destruct (cl !! m); [eauto|done]. }
      split; [by rewrite Hdom, dom_insert_member|].
      split.
      * intros q. rewrite Hlook.
        destruct (decide (q = m)) as [->|Hne].
        -- rewrite (bool_decide_eq_false_2 _ Hm), lookup_insert_eq.
           rewrite bool_decide_eq_true_2 by apply list_elem_of_here.
           by rewrite Hput.
        -- rewrite lookup_insert_ne by done.
           destruct (decide (q ∈ members)) as [Hin|Hnin].
           ++ rewrite !bool_decide_eq_true_2; [done| |done].
              by apply list_elem_of_further.
           ++ rewrite !bool_decide_eq_false_2; [done| |done].
              rewrite elem_of_cons. intros [?|?]; done.
      * intros q. rewrite Hdead. 
        destruct (decide (q = m)) as [->|Hne].
        -- rewrite lookup_insert_eq, Hput. split.
           ++ intros [?|[? ?]]; [by left|done].
           ++ intros [?|[? ?]]; [by left|done].
        -- rewrite lookup_insert_ne by done. rewrite elem_of_cons. 
           split; intros [?|[? ?]]; auto. destruct H as [?|?]; [done|auto].
    + specialize (IH cl ({[m]} ∪ dead) Hnodup).
      destruct (sweep_snapshot _ _ _ _) as [cl' dead'].
      destruct IH as (Hdom & Hlook & Hdead).
      split; [done|]. split.
      * intros q. rewrite Hlook.
        destruct (decide (q = m)) as [->|Hne].
        -- rewrite (bool_decide_eq_false_2 _ Hm).
           rewrite bool_decide_eq_true_2 by apply list_elem_of_here.
           by rewrite Hput.
        -- destruct (decide (q ∈ members)) as [Hin|Hnin].
           ++ rewrite !bool_decide_eq_true_2; [done| |done].
              by apply list_elem_of_further.
           ++ rewrite !bool_decide_eq_false_2; [done| |done].
              rewrite elem_of_cons. intros [?|?]; done.
      * intros q. rewrite Hdead, elem_of_union, elem_of_singleton, elem_of_cons.
        split.
        -- intros [[->|?]|[? ?]]; auto.
        -- intros [?|[[->|?] ?]]; auto.
Qed.

Section BroadcastClaims.
Context `{PyRuntime}.

Lemma broadcast_refines_snapshot (self : McpSseBridge) (message : json) :
  broadcast_to_clients self message
  = (Ok (broadcast_snapshot self message).1, (broadcast_snapshot self message).2).
Proof.
  unfold broadcast_to_clients, broadcast_snapshot.
  rewrite (sweep_is_snapshot _ _ 0 self ∅ [] eq_refl).
  by destruct (sweep_snapshot _ _ _ _) as [cl dead].
Qed.

Lemma broadcast_snapshot_clients (self : McpSseBridge) (message : json) :
  clients (broadcast_snapshot self message).2
  = omap (queue_put (json_dumps message)) (clients self).
Proof.
  unfold broadcast_snapshot.
  pose proof (sweep_snapshot_lookup (json_dumps message) _ (clients self) ∅
                (NoDup_elements (dom (clients self)))) as Hsnap.
  destruct (sweep_snapshot _ _ _ _) as [cl dead].
  destruct Hsnap as (_ & Hlook & Hdead). simpl.
  apply map_eq. intros q. rewrite lookup_omap. unfold remove_clients.
  destruct (clients self !! q) as [queue|] eqn:Hq; simpl.
  - assert (Hin : q ∈ elements (dom (clients self) : gset nat)).
    { apply elem_of_elements, elem_of_dom. eauto. }
    destruct (queue_put (json_dumps message) queue) as [queue'|] eqn:Hput.
    + apply map_lookup_filter_Some. split.
      * by rewrite Hlook, bool_decide_eq_true_2, Hq; simpl; [rewrite Hput|].
      * simpl. rewrite Hdead, Hq; simpl. rewrite Hput.
        intros [Hempty|[_ Hnone]];
          [exact (not_elem_of_empty (C := gset nat) _ Hempty) | discriminate Hnone].
    + apply map_lookup_filter_None. right. intros queue0 _. simpl.
      intros Hnot. apply Hnot. rewrite Hdead. right. split; [done|].
      by rewrite Hq; simpl.
  - apply map_lookup_filter_None. left.
    rewrite Hlook, Hq. by destruct (bool_decide _).
Qed.

(** C3.  [broadcast_to_clients] walks the live set of clients, and comes
    to what the snapshot wording describes ([broadcast_snapshot]): it
    attempts one [put] of the serialized message on every client that was
    a member when the broadcast started, each exactly once; the sweep
    itself takes no member out (the members whose [put] failed leave
    afterwards, in one step); and a member's queue ends with the message
    whenever its own [put] succeeds, whatever happened to the [put] on
    any other member. *)
Theorem broadcast_isolates_failures (self : McpSseBridge) (message : json) :
  let message_json := json_dumps message in
  let members := elements (dom (clients self) : gset nat) in
  let swept := (sweep message_json (size (clients self)) 0 self ∅ []).2 in
  let self' := (broadcast_to_clients self message).2 in
  broadcast_to_clients self message
    = (Ok (broadcast_snapshot self message).1, (broadcast_snapshot self message).2)
  /\ (broadcast_to_clients self message).1 = Ok members
  /\ NoDup members
  /\ (forall q, q ∈ members <-> is_Some (clients self !! q))
  /\ dom (clients swept) = dom (clients self)
  /\ (forall q, clients self' !! q = clients self !! q ≫= queue_put message_json)
  /\ (forall q queue,
        clients self !! q = Some queue -> q_shutdown queue = false ->
        clients self' !! q = Some (MkQueue (q_items queue ++ [message_json]) false))
  /\ binary_path self' = binary_path self
  /\ process self' = process self.
Proof.
  intros message_json members swept self'.
  pose proof (broadcast_refines_snapshot self message) as Href.
  assert (Hlook : forall q, clients self' !! q
                            = clients self !! q ≫= queue_put message_json).
  { intros q. unfold self'. rewrite Href. simpl.
    by rewrite broadcast_snapshot_clients, lookup_omap. }
  split; [done|].
  split.
  { rewrite Href. unfold broadcast_snapshot.
    by destruct (sweep_snapshot _ _ _ _). }
  split; [apply NoDup_elements|].
  split; [intros q; unfold members; by rewrite elem_of_elements, elem_of_dom|].
  split.
  { unfold swept.
    rewrite (sweep_is_snapshot _ _ 0 self ∅ [] eq_refl).
    pose proof (sweep_snapshot_lookup message_json _ (clients self) ∅
                  (NoDup_elements (dom (clients self)))) as Hsnap.
    destruct (sweep_snapshot _ _ _ _) as [cl dead].
    destruct Hsnap as [Hdom _]. exact Hdom. }
  split; [done|].
  split.
  { intros q queue Hq Hopen. rewrite Hlook, Hq. simpl.
    unfold queue_put. by rewrite Hopen. }
  unfold self'. rewrite Href. unfold broadcast_snapshot.
  by destruct (sweep_snapshot _ _ _ _).
Qed.

End BroadcastClaims.

(** ** The handlers *)

Section HandlerClaims.
Context `{PyRuntime}.

Lemma broadcast_total (self : McpSseBridge) (message : json) :
  exists tried self',
    broadcast_to_clients self message = (Ok tried, self')
    /\ process self' = process self
    /\ clients self' = omap (queue_put (json_dumps message)) (clients self).
Proof.
  exists (broadcast_snapshot self message).1, (broadcast_snapshot self message).2.
  split; [apply broadcast_refines_snapshot|].
  split; [|apply broadcast_snapshot_clients].
  unfold broadcast_snapshot. by destruct (sweep_snapshot _ _ _ _).
Qed.

Lemma send_to_mcp_started (self : McpSseBridge) (p : Popen) (message : json) :
  process self = Some p ->
  exists r rest,
    send_to_mcp self message
    = (r, set_process self (Some (set_pending (write_request message p) rest))).
Proof.
  intros Hp. unfold send_to_mcp, read_reply. rewrite Hp.
  destruct (read_loop _) as [r rest]. by exists r, rest.
Qed.

(** C4.  A posted message that parses to a dict without the key ['id'] is
    answered with an empty 200 response, and the bridge the handler leaves
    is the bridge it found: the child's handle (what reached its input
    included) and every client's queue are as they were. *)
Theorem notification_acknowledged (request : Request)
    (fields : list (string * json)) (bridge : option McpSseBridge) :
  request_json request = Ok (JObj fields) ->
  dict_get "id" fields = None ->
  message_handler request bridge = (Returned (empty_response 200), bridge).
Proof.
  intros Hjson Hid. unfold message_handler, dict_contains.
  by rewrite Hjson, Hid.
Qed.

(** C9.  Whether a posted dict is relayed depends on the presence of the
    key ['id'] alone.  Without the key the handler acknowledges and leaves
    the bridge alone.  With the key, whatever its value, [None] (JSON
    [null]) included, the handler does not acknowledge: it writes the
    message to the child as one line. *)
Theorem id_key_presence_decides (request : Request)
    (fields : list (string * json)) (b : McpSseBridge) (p : Popen) :
  request_json request = Ok (JObj fields) ->
  process b = Some p ->
  let relayed (after : option McpSseBridge) :=
    exists b' p',
      after = Some b' /\ process b' = Some p'
      /\ stdin_seen p'
         = stdin_seen p ++ stdin_buffered p
           ++ encode (json_dumps (JObj fields) +:+ newline) in
  (dict_get "id" fields = None ->
     message_handler request (Some b) = (Returned (empty_response 200), Some b))
  /\ (forall id, dict_get "id" fields = Some id ->
        (message_handler request (Some b)).1 <> Returned (empty_response 200)
        /\ relayed (message_handler request (Some b)).2)
  /\ (dict_get "id" fields = Some JNull ->
        relayed (message_handler request (Some b)).2)
  /\ ((message_handler request (Some b)).1 = Returned (empty_response 200)
      <-> dict_get "id" fields = None).
Proof.
  intros Hjson Hp relayed.
  assert (Hnote : dict_get "id" fields = None ->
                  message_handler request (Some b)
                  = (Returned (empty_response 200), Some b)).
  { intros Hid. unfold message_handler, dict_contains. by rewrite Hjson, Hid. }
  assert (Hreq : forall id, dict_get "id" fields = Some id ->
            (message_handler request (Some b)).1 <> Returned (empty_response 200)
            /\ relayed (message_handler request (Some b)).2).
  { intros id Hid. unfold message_handler, dict_contains. rewrite Hjson, Hid.
    cbn [negb].
    destruct (send_to_mcp_started b p (JObj fields) Hp) as (r & rest & ->).
    pose proof (write_request_seen (JObj fields) p) as [Hseen _].
    destruct r as [[response|e]|].
    - destruct (broadcast_total
                  (set_process b (Some (set_pending (write_request (JObj fields) p) rest)))
                  response) as (tried & b2 & -> & Hproc & _).
      split; [done|].
      exists b2, (set_pending (write_request (JObj fields) p) rest).
      by rewrite Hproc.
    - unfold handle_exception. cbn [py_get]. rewrite Hid.
      split; [done|].
      by exists (set_process b (Some (set_pending (write_request (JObj fields) p) rest))),
             (set_pending (write_request (JObj fields) p) rest).
    - split; [done|].
      by exists (set_process b (Some (set_pending (write_request (JObj fields) p) rest))),
             (set_pending (write_request (JObj fields) p) rest). }
  split; [done|]. split; [done|]. split; [intros Hnull; by apply (Hreq JNull)|].
  split.
  - intros Hack. destruct (dict_get "id" fields) as [id|] eqn:Hid; [|done].
    by destruct (Hreq id eq_refl) as [Hne _].
  - intros Hid. by rewrite (Hnote Hid).
Qed.

(** C5, where the code departs from it.  A payload that is well-formed
    JSON but not a dict (a list, a number, a string) makes
    [message.get] raise on line 165; the [except] block then calls
    [message.get('id')] on the same value, which raises again, and that
    exception leaves [message_handler]: the caller gets no error envelope
    from the handler. *)
Theorem non_dict_payload_escapes (request : Request) (message : json)
    (bridge : option McpSseBridge) :
  request_json request = Ok message ->
  type_name message <> "dict" ->
  message_handler request bridge
  = (Propagated (attribute_error (type_name message) "get"), bridge).
Proof.
  intros Hjson Hnot. unfold message_handler. rewrite Hjson.
  destruct message; try done.
Qed.

(** The part of C5 the code keeps, first half.  When [request.json()]
    raises (the body is not text in the charset of the request, which is
    UTF-8 when the request names none, or [json.loads] raises on the
    text), the request is answered with a 500 error envelope whose [id]
    is [null] and whose message is the text of the exception; the bridge
    is left as it was. *)
Theorem malformed_payload_rejected (request : Request) (e : exn)
    (bridge : option McpSseBridge) :
  request_json request = Raise e ->
  message_handler request bridge
  = (Returned (json_response (error_envelope JNull e) 500), bridge).
Proof.
  intros Hjson. unfold message_handler. by rewrite Hjson.
Qed.

(** When [request.json()] raises: the body does not decode, or
    [json.loads] raises on its text.  Without a charset a body that is
    not UTF-8 does not decode; with one, its codec decides. *)
Lemma request_json_raises (request : Request) (e : exn) :
  request_json request = Raise e <->
  request_text request = Raise e
  \/ exists body, request_text request = Ok body /\ json_loads body = inl e.
Proof.
  unfold request_json. destruct (request_text request) as [body|e'].
  - destruct (json_loads body) as [e''|message] eqn:Hloads.
    + split.
      * intros [= <-]. right. by exists body.
      * intros [?|(body' & [= <-] & Hl)]; [done|]. congruence.
    + split; [done|]. intros [?|(body' & [= <-] & Hl)]; [done|]. congruence.
  - split; [intros [= <-]; by left|].
    intros [[= <-]|(body & ? & _)]; done.
Qed.

Lemma request_text_utf8 (request : Request) :
  req_charset request = None ->
  request_text request = decode (req_body request).
Proof. unfold request_text. by intros ->. Qed.

Lemma request_text_charset (request : Request) (encoding : string) :
  req_charset request = Some encoding -> encoding <> "" ->
  request_text request
  = match codec_decode encoding (req_body request) with
    | inr body => Ok body
    | inl e => Raise e
    end.
Proof.
  unfold request_text. intros -> Hne. by destruct encoding.
Qed.

(** The part of C5 the code keeps, second half: when the exchange for a
    posted dict fails, the caller gets a 500 error envelope with code
    -32603, the text of the exception and the ['id'] of the message, and
    no client's queue has changed. *)
Theorem failed_exchange_gives_envelope (request : Request)
    (fields : list (string * json)) (id : json) (b b1 : McpSseBridge) (e : exn) :
  request_json request = Ok (JObj fields) ->
  dict_get "id" fields = Some id ->
  send_to_mcp b (JObj fields) = (Raise e, b1) ->
  message_handler request (Some b)
  = (Returned (json_response (error_envelope id e) 500), Some b1)
  /\ clients b1 = clients b.
Proof.
  intros Hjson Hid Hsend. split.
  - unfold message_handler, dict_contains. rewrite Hjson, Hid. cbn [negb].
    rewrite Hsend. unfold handle_exception. cbn [py_get]. by rewrite Hid.
  - unfold send_to_mcp in Hsend. destruct (process b) as [p|].
    + destruct (read_reply _) as [r p']. by injection Hsend as _ <-.
    + by injection Hsend as _ <-.
Qed.

Lemma health_alive_dec (bridge : option McpSseBridge) :
  alive bridge \/ ~ alive bridge.
Proof.
  unfold alive.
  destruct bridge as [b|]; [|right; by intros (b0 & p0 & ? & _)].
  destruct (process b) as [p|] eqn:Hp;
    [|right; intros (b0 & p0 & [= <-] & Hp0 & _); congruence].
  destruct (poll p) as [rc|] eqn:Hpoll;
    [right; intros (b0 & p0 & [= <-] & Hp0 & Hpoll0); congruence|].
  left. by exists b, p.
Qed.

(** C8.  [health_handler] answers 200 with the healthy body exactly when
    the bridge exists, has a child process handle, and the handle's poll
    (which does not wait) reports no return code; in every other case it
    answers 503 with the unhealthy body.  The bridge it leaves is the
    bridge it found. *)
Theorem health_reports_liveness (bridge : option McpSseBridge) :
  (health_handler bridge).2 = bridge
  /\ (alive bridge -> (health_handler bridge).1 = json_response healthy 200)
  /\ (~ alive bridge -> (health_handler bridge).1 = json_response unhealthy 503)
  /\ (status (health_handler bridge).1 = 200%Z <-> alive bridge).
Proof.
  destruct (health_alive_dec bridge) as [Ha|Hn].
  - pose proof Ha as (b & p & -> & Hp & Hpoll).
    unfold health_handler. rewrite Hp, Hpoll. simpl.
    repeat split; done.
  - assert (Hh : health_handler bridge = (json_response unhealthy 503, bridge)).
    { unfold health_handler.
      destruct bridge as [b|]; [|done].
      destruct (process b) as [p|] eqn:Hp; [|done].
      destruct (poll p) as [rc|] eqn:Hpoll; [done|].
      destruct Hn. by exists b, p. }
    rewrite Hh. simpl. repeat split; try done.
Qed.

End HandlerClaims.

(** ** The life of the child *)

Lemma set_process_same (self : McpSseBridge) :
  set_process self (process self) = self.
Proof. by destruct self. Qed.

Lemma tick_zero (os : OS) : tick 0 os = os.
Proof. destruct os. unfold tick. simpl. by rewrite Nat.add_0_r. Qed.

Lemma stop_exited (self : McpSseBridge) (os : OS) (p : Popen) (rc : Z) :
  process self = Some p -> poll p = Some rc ->
  stop_mcp_server self os = (self, os).
Proof.
  intros Hp Hrc. unfold stop_mcp_server, terminate, wait. rewrite Hp, Hrc.
  cbn. rewrite Hrc, tick_zero, <- Hp. by rewrite set_process_same.
Qed.

(** A child that a SIGKILL is on its way to: the wait returns at once. *)
Lemma stop_killed (self : McpSseBridge) (os : OS) (p : Popen) :
  process self = Some p -> poll p = None -> SIGKILL ∈ signals p ->
  stop_mcp_server self os
  = (set_process self
       (Some (set_exit p (Some (-9)%Z) (signals p ++ [SIGTERM]))), os).
Proof.
  intros Hp Hrun Hkill. unfold stop_mcp_server, terminate. rewrite Hp, Hrun.
  unfold wait, poll in *. cbn [returncode set_exit signals popen_prog].
  rewrite bool_decide_eq_true_2 by (apply elem_of_app; by left).
  by rewrite tick_zero.
Qed.

Lemma stop_running (self : McpSseBridge) (os : OS) (p : Popen) :
  process self = Some p -> poll p = None -> SIGKILL ∉ signals p ->
  stop_mcp_server self os =
    match prog_on_sigterm (popen_prog p) with
    | Some (delay, rc) =>
        if Nat.leb delay 5
        then (set_process self (Some (set_exit p (Some rc) (signals p ++ [SIGTERM]))),
              tick delay os)
        else (set_process self
                (Some (set_exit p None (signals p ++ [SIGTERM; SIGKILL]))),
              tick 5 os)
    | None =>
        (set_process self
           (Some (set_exit p None (signals p ++ [SIGTERM; SIGKILL]))),
         tick 5 os)
    end.
Proof.
  intros Hp Hrun Hkill. unfold stop_mcp_server, terminate. rewrite Hp, Hrun.
  unfold wait, poll in *. cbn [returncode set_exit signals popen_prog].
  rewrite (bool_decide_eq_false_2 (SIGKILL ∈ signals p ++ [SIGTERM])).
  2:{ rewrite elem_of_app, elem_of_cons, elem_of_nil. by intros [?|[?|?]]. }
  rewrite bool_decide_eq_true_2 by (apply elem_of_app; right; apply list_elem_of_here).
  destruct (prog_on_sigterm (popen_prog p)) as [[delay rc]|].
  - destruct (Nat.leb delay 5); [done|].
    unfold kill, poll. cbn. by rewrite <- app_assoc.
  - unfold kill, poll. cbn. by rewrite <- app_assoc.
Qed.

(** What [stop_mcp_server] makes of a running child, in one. *)
Lemma stop_live (self : McpSseBridge) (os : OS) (p : Popen) :
  process self = Some p -> poll p = None ->
  exists p' dt,
    stop_mcp_server self os = (set_process self (Some p'), tick dt os)
    /\ signals p'
       = signals p ++ SIGTERM :: (if lingers 5 p then [SIGKILL] else [])
    /\ (poll p' = None <-> lingers 5 p = true)
    /\ (poll p' = None -> SIGKILL ∈ signals p')
    /\ dt <= 5
    /\ stdin_seen p' = stdin_seen p
    /\ stdout_pending p' = stdout_pending p.
Proof.
  intros Hp Hrun. unfold lingers, outlasts.
  destruct (decide (SIGKILL ∈ signals p)) as [Hkill|Hkill].
  { rewrite (stop_killed self os p Hp Hrun Hkill), bool_decide_eq_true_2 by done.
    eexists _, 0. rewrite tick_zero. split; [done|]. cbn.
    repeat split; try done; lia. }
  rewrite (stop_running self os p Hp Hrun Hkill), bool_decide_eq_false_2 by done.
  cbn [negb andb].
  destruct (prog_on_sigterm (popen_prog p)) as [[delay rc]|];
    [destruct (Nat.leb delay 5) eqn:Hle|].
  - apply Nat.leb_le in Hle. eexists _, delay. split; [done|]. cbn.
    repeat split; try done.
  - eexists _, 5. split; [done|]. cbn.
    repeat split; try done.
    intros _. rewrite elem_of_app. right.
    apply list_elem_of_further, list_elem_of_here.
  - eexists _, 5. split; [done|]. cbn.
    repeat split; try done.
    intros _. rewrite elem_of_app. right.
    apply list_elem_of_further, list_elem_of_here.
Qed.

(** After [stop_mcp_server] the child, if there is a handle, has exited or
    a SIGKILL is on its way to it. *)
Lemma stop_leaves_doomed (self : McpSseBridge) (os : OS) (p' : Popen) :
  process (stop_mcp_server self os).1 = Some p' ->
  is_Some (poll p') \/ SIGKILL ∈ signals p'.
Proof.
  destruct (process self) as [p|] eqn:Hp.
  2:{ unfold stop_mcp_server. rewrite Hp. simpl. by rewrite Hp. }
  destruct (poll p) as [rc|] eqn:Hrun.
  - rewrite (stop_exited self os p rc Hp Hrun). simpl. rewrite Hp.
    intros [= <-]. left. by rewrite Hrun.
  - destruct (stop_live self os p Hp Hrun) as (q & dt & -> & _ & _ & Hkill & _).
    cbn. intros [= <-]. destruct (poll q) eqn:Hq; [left; by eexists|].
    right. by apply Hkill.
Qed.

(** [stop_mcp_server] on a bridge whose child has exited or is about to
    be gone: the wait returns at once, no SIGKILL is sent, and the child
    has been found gone. *)
Lemma stop_doomed (self : McpSseBridge) (os : OS) (p : Popen) :
  process self = Some p ->
  is_Some (poll p) \/ SIGKILL ∈ signals p ->
  exists p',
    stop_mcp_server self os = (set_process self (Some p'), os)
    /\ is_Some (poll p')
    /\ signals p'
       = signals p ++ match poll p with Some _ => [] | None => [SIGTERM] end.
Proof.
  intros Hp Hdoomed. destruct (poll p) as [rc|] eqn:Hrun.
  - exists p. rewrite (stop_exited self os p rc Hp Hrun), <- Hp, set_process_same.
    rewrite Hrun, app_nil_r. by eauto.
  - destruct Hdoomed as [[rc Hrc]|Hkill]; [done|].
    rewrite (stop_killed self os p Hp Hrun Hkill). eexists. split; [done|].
    cbn. by eauto.
Qed.

(** C6.  [stop_mcp_server] on a running child sends SIGTERM, waits for the
    child with a bound of 5, and sends SIGKILL exactly when the child is
    still there when the bound is reached; the clock moves by 5 at most.
    [kill()] only sends the signal: when [stop_mcp_server] returns after
    it, the child has not been found gone yet.  With no child process
    handle, and with a child that has exited, it changes nothing.
    Calling it again right after raises nothing either: it takes no time
    and sends no SIGKILL; it sends SIGTERM once more exactly when the
    first call had to kill and the child has not been found gone since,
    and then finds it gone.  A third call changes nothing. *)
Theorem stop_terminates_then_kills (self : McpSseBridge) (os : OS) :
  let after := stop_mcp_server self os in
  let again := stop_mcp_server after.1 after.2 in
  (process self = None -> after = (self, os))
  /\ (forall p rc, process self = Some p -> poll p = Some rc -> after = (self, os))
  /\ (forall p, process self = Some p -> poll p = None ->
        exists p',
          process after.1 = Some p'
          /\ signals p'
             = signals p ++ SIGTERM
                 :: (if lingers 5 p then [SIGKILL] else [])
          /\ (SIGKILL ∈ drop (length (signals p)) (signals p')
              <-> lingers 5 p = true)
          /\ (poll p' = None <-> lingers 5 p = true)
          /\ stdin_seen p' = stdin_seen p
          /\ stdout_pending p' = stdout_pending p)
  /\ clock os <= clock after.2 <= clock os + 5
  /\ clients after.1 = clients self
  /\ (process after.1 = None -> again = after)
  /\ (forall p', process after.1 = Some p' ->
        exists p'',
          process again.1 = Some p''
          /\ is_Some (poll p'')
          /\ signals p''
             = signals p' ++ match poll p' with Some _ => [] | None => [SIGTERM] end)
  /\ again.2 = after.2
  /\ clients again.1 = clients self
  /\ stop_mcp_server again.1 again.2 = again.
Proof.
  intros after again.
  assert (Hfirst :
    (process self = None -> after = (self, os))
    /\ (forall p rc, process self = Some p -> poll p = Some rc -> after = (self, os))
    /\ (forall p, process self = Some p -> poll p = None ->
          exists p',
            process after.1 = Some p'
            /\ signals p'
               = signals p ++ SIGTERM
                   :: (if lingers 5 p then [SIGKILL] else [])
            /\ (SIGKILL ∈ drop (length (signals p)) (signals p')
                <-> lingers 5 p = true)
            /\ (poll p' = None <-> lingers 5 p = true)
            /\ stdin_seen p' = stdin_seen p
            /\ stdout_pending p' = stdout_pending p)
    /\ clock os <= clock after.2 <= clock os + 5
    /\ clients after.1 = clients self).
  { unfold after. destruct (process self) as [p|] eqn:Hp.
    2:{ unfold stop_mcp_server. rewrite Hp. simpl. repeat split; try done; lia. }
    destruct (poll p) as [rc|] eqn:Hrun.
    { rewrite (stop_exited self os p rc Hp Hrun). simpl.
      repeat split; try done; try lia. intros p0 [= <-] Hnone. congruence. }
    destruct (stop_live self os p Hp Hrun)
      as (p' & dt & -> & Hsig & Hpoll & _ & Hdt & Hin & Hout).
    split; [done|]. split; [intros p0 rc [= <-]; congruence|].
    split; [|cbn; split; [lia|done]].
    intros p0 [= <-] _. exists p'. split; [done|]. split; [done|].
    split; [|done]. rewrite Hsig, drop_app_length.
    destruct (lingers 5 p).
    - split; [done|]. intros _. apply list_elem_of_further, list_elem_of_here.
    - split; [|done]. intros Hkill.
      apply elem_of_cons in Hkill as [?|Hkill]; [done|].
      by apply elem_of_nil in Hkill. }
  destruct Hfirst as (Hnone & Hexited & Hrunning & Hclock & Hclients).
  do 5 (split; [done|]).
  assert (Hsecond :
    (process after.1 = None -> again = after)
    /\ (forall p', process after.1 = Some p' ->
          exists p'',
            again = (set_process after.1 (Some p''), after.2)
            /\ is_Some (poll p'')
            /\ signals p''
               = signals p' ++ match poll p' with Some _ => [] | None => [SIGTERM] end)).
  { split.
    - intros Hp'. unfold again, stop_mcp_server at 1. rewrite Hp'.
      by destruct after.
    - intros p' Hp'.
      destruct (stop_doomed after.1 after.2 p' Hp') as (p'' & Hagain & Hgone & Hsig).
      { by apply (stop_leaves_doomed self os). }
      by exists p''. }
  destruct Hsecond as (Hnone2 & Hsome2).
  split; [done|]. split.
  { intros p' Hp'. destruct (Hsome2 p' Hp') as (p'' & -> & Hgone & Hsig).
    by exists p''. }
  destruct (process after.1) as [p'|] eqn:Hp'.
  - destruct (Hsome2 p' eq_refl) as (p'' & Hagain & [rc Hgone] & Hsig).
    rewrite Hagain. cbn [fst snd]. split; [done|]. split; [done|].
    by apply (stop_exited _ _ p'' rc).
  - rewrite (Hnone2 eq_refl). split; [done|]. split; [done|].
    unfold stop_mcp_server. rewrite Hp'. by destruct after.
Qed.

Lemma open_append_keeps (path : string) (os : OS) :
  appended_only path os (py_open path ModeA os).
Proof.
  intros old Hold. exists []. unfold py_open. cbn.
  by rewrite Hold, lookup_insert_eq, app_nil_r.
Qed.

(** C7, as the code has it.  [start_mcp_server] spawns the executable at
    [binary_path] with an environment that is the caller's plus
    [RUST_LOG=debug] (the caller's own environment is not touched), with
    pipes on the child's input and output and [bufsize=0], and with the
    child's stderr sent to the log file, which is not the output pipe.
    The log file is opened with mode ['w']: it is empty once the child is
    started, whatever it held. *)
Theorem start_spawns_child (self : McpSseBridge) (os : OS) (prog : program) :
  programs os !! binary_path self = Some prog ->
  exists p os',
    start_mcp_server self os = (Ok tt, set_process self (Some p), os')
    /\ popen_args p = [binary_path self]
    /\ popen_prog p = prog
    /\ popen_env p !! "RUST_LOG" = Some "debug"
    /\ (forall name, name <> "RUST_LOG" -> popen_env p !! name = environ os !! name)
    /\ environ os' = environ os
    /\ popen_stdin p = PIPE
    /\ popen_stdout p = PIPE
    /\ popen_bufsize p = 0%Z
    /\ popen_stderr p = ToFile stderr_log
    /\ popen_stderr p <> popen_stdout p
    /\ files os' !! stderr_log = Some []
    /\ (forall path, path <> stderr_log -> files os' !! path = files os !! path)
    /\ poll p = None
    /\ stdin_seen p = [] /\ stdout_pending p = [].
Proof.
  intros Hprog. unfold start_mcp_server. rewrite Hprog.
  eexists _, _. split; [done|]. cbn.
  repeat split; try done.
  - apply lookup_insert_eq.
  - intros name Hne. by apply lookup_insert_ne.
  - apply lookup_insert_eq.
  - intros path Hne. by apply lookup_insert_ne.
Qed.

(** ** Handlers side by side *)

Lemma single_flight_serial (ts : list nat) : single_flight None (serial ts) = true.
Proof.
  induction ts as [|t ts IH]; [done|].
  unfold serial in *. simpl. by rewrite Nat.eqb_refl.
Qed.

Lemma event_loop_serial (picks : list nat) :
  forall tasks : list (list instr),
    (forall t code, tasks !! t = Some code -> stage_ok t code) ->
    exists ts,
      event_loop picks tasks = serial ts
      /\ (forall t, t ∈ ts -> t < length tasks)
      /\ (forall t, tasks !! t = Some (handler_code t) ->
            2 <= length (filter (eq t) picks) -> t ∈ ts)
      /\ (forall t, tasks !! t = Some [Do (Write t); Do (Read t)] ->
            1 <= length (filter (eq t) picks) -> t ∈ ts).
Proof.
  induction picks as [|k picks IH]; intros tasks Hok.
  - exists []. split; [done|]. split.
    + intros t Hin. by apply elem_of_nil in Hin.
    + split; intros t _; simpl; lia.
  - simpl. destruct (tasks !! k) as [code|] eqn:Hk.
    + assert (Hlen : k < length tasks) by (by eapply lookup_lt_Some).
      assert (Hok' : forall rest, stage_ok k rest ->
                forall t code', <[k := rest]> tasks !! t = Some code' -> stage_ok t code').
      { intros rest Hrest t code' Ht. destruct (decide (t = k)) as [->|Hne].
        - rewrite list_lookup_insert_eq in Ht by done. by injection Ht as <-.
        - rewrite list_lookup_insert_ne in Ht by done. by apply Hok. }
      assert (Hother : forall t, t <> k ->
                length (filter (eq t) (k :: picks)) = length (filter (eq t) picks)).
      { intros t Hne. by rewrite filter_cons_False. }
      assert (Hsame : length (filter (eq k) (k :: picks))
                      = S (length (filter (eq k) picks))).
      { by rewrite filter_cons_True. }
      destruct (Hok k code Hk) as [Hc|[Hc|Hc]]; subst code; simpl.
      * (* first resumption: up to the await *)
        destruct (IH (<[k := [Do (Write k); Do (Read k)]]> tasks)) as (ts & Hrun & Hlt & Hall & Hone).
        { apply Hok'. right. by left. }
        exists ts. split; [done|]. split.
        { intros t Hin. specialize (Hlt t Hin). by rewrite length_insert in Hlt. }
        split; intros t Ht Hcount.
        -- destruct (decide (t = k)) as [->|Hne].
           ++ apply Hone; [by rewrite list_lookup_insert_eq|]. rewrite Hsame in Hcount. lia.
           ++ apply Hall; [by rewrite list_lookup_insert_ne|]. by rewrite <- Hother.
        -- destruct (decide (t = k)) as [->|Hne].
           ++ rewrite Hk in Ht. discriminate Ht.
           ++ apply Hone; [by rewrite list_lookup_insert_ne|]. by rewrite <- Hother.
      * (* second resumption: the exchange, to the end *)
        destruct (IH (<[k := []]> tasks)) as (ts & Hrun & Hlt & Hall & Hone).
        { apply Hok'. right. by right. }
        exists (k :: ts). split; [by rewrite Hrun|]. split.
        { intros t Hin. apply elem_of_cons in Hin as [->|Hin]; [done|].
          specialize (Hlt t Hin). by rewrite length_insert in Hlt. }
        split; intros t Ht Hcount.
        -- destruct (decide (t = k)) as [->|Hne]; [apply list_elem_of_here|].
           apply list_elem_of_further, Hall; [by rewrite list_lookup_insert_ne|].
           by rewrite <- Hother.
        -- destruct (decide (t = k)) as [->|Hne]; [apply list_elem_of_here|].
           apply list_elem_of_further, Hone; [by rewrite list_lookup_insert_ne|].
           by rewrite <- Hother.
      * (* a finished task *)
        destruct (IH (<[k := []]> tasks)) as (ts & Hrun & Hlt & Hall & Hone).
        { apply Hok'. right. by right. }
        exists ts. split; [done|]. split.
        { intros t Hin. specialize (Hlt t Hin). by rewrite length_insert in Hlt. }
        split; intros t Ht Hcount.
        -- destruct (decide (t = k)) as [->|Hne].
           ++ rewrite Hk in Ht. discriminate Ht.
           ++ apply Hall; [by rewrite list_lookup_insert_ne|]. by rewrite <- Hother.
        -- destruct (decide (t = k)) as [->|Hne].
           ++ rewrite Hk in Ht. discriminate Ht.
           ++ apply Hone; [by rewrite list_lookup_insert_ne|]. by rewrite <- Hother.
    + destruct (IH tasks Hok) as (ts & Hrun & Hlt & Hall & Hone).
      exists ts. split; [done|]. split; [done|].
      assert (Hother : forall t code, tasks !! t = Some code ->
                length (filter (eq t) (k :: picks)) = length (filter (eq t) picks)).
      { intros t code Ht. rewrite filter_cons_False; [done|]. congruence. }
      split; intros t Ht Hcount.
      * apply Hall; [done|]. by rewrite <- (Hother _ _ Ht).
      * apply Hone; [done|]. by rewrite <- (Hother _ _ Ht).
Qed.

Lemma handlers_lookup (n t : nat) :
  t < n -> handlers n !! t = Some (handler_code t).
Proof.
  intros Hlt. unfold handlers. rewrite list_lookup_fmap, lookup_seq_lt by done. done.
Qed.

Lemma handlers_stage (n t : nat) (code : list instr) :
  handlers n !! t = Some code -> stage_ok t code.
Proof.
  intros Ht. assert (Hlt : t < n).
  { apply lookup_lt_Some in Ht. unfold handlers in Ht.
    by rewrite length_fmap, length_seq in Ht. }
  rewrite handlers_lookup in Ht by done. injection Ht as <-. by left.
Qed.

Section RunClaims.
Context `{PyRuntime}.

Lemma encode_line_not_nil (s : string) : encode (s +:+ newline) <> [].
Proof. by destruct s. Qed.

Lemma write_request_reacts (message : json) (p : Popen) :
  stdin_buffered p = [] ->
  let data := encode (json_dumps message +:+ newline) in
  write_request message p
  = set_io p [] (stdin_seen p ++ data)
      (stdout_pending p ++ prog_reacts (popen_prog p) (stdin_seen p) data).
Proof.
  intros Hbuf data. unfold write_request, stdin_flush, stdin_write.
  fold data. rewrite Hbuf. cbn [app].
  pose proof (encode_line_not_nil (json_dumps message)) as Hne. fold data in Hne.
  destruct data as [|b data]; [done|].
  destruct (popen_bufsize p =? 0)%Z; unfold deliver; by destruct p.
Qed.

(** One exchange of the run is [send_to_mcp]. *)
Lemma exchange_is_write_then_read (requests : list json) (t : nat)
    (message : json) (self : McpSseBridge) (p : Popen)
    (replies : gmap nat (call json)) :
  requests !! t = Some message ->
  process self = Some p ->
  exists r p',
    send_to_mcp self message = (r, set_process self (Some p'))
    /\ run_steps requests [Write t; Read t] p replies = (p', <[t := r]> replies).
Proof.
  intros Hm Hp. unfold send_to_mcp. cbn [run_steps]. rewrite Hm, Hp.
  destruct (read_reply (write_request message p)) as [[r|] p'].
  - by exists (Ends r), p'.
  - by exists Blocks, p'.
Qed.

(** The steps of [handler_code] are what [message_handler] does to the
    child for a posted dict with an ['id']: its answer carries what the
    [Read] step returned (and there is none where the [Read] step
    blocks), and the child's handle is left as the two steps leave it
    (the broadcast in between does not touch the child). *)
Lemma handler_runs_its_steps (request : Request) (fields : list (string * json))
    (id : json) (b : McpSseBridge) (p : Popen) (t : nat) (requests : list json) :
  request_json request = Ok (JObj fields) ->
  dict_get "id" fields = Some id ->
  process b = Some p ->
  requests !! t = Some (JObj fields) ->
  exists r p' b',
    run_steps requests [Write t; Read t] p ∅ = (p', {[t := r]})
    /\ message_handler request (Some b)
       = (match r with
          | Ends (Ok response) => Returned (json_response response 200)
          | Ends (Raise e) => Returned (json_response (error_envelope id e) 500)
          | Blocks => Blocked
          end, Some b')
    /\ process b' = Some p'.
Proof.
  intros Hjson Hid Hp Ht.
  destruct (exchange_is_write_then_read requests t (JObj fields) b p ∅ Ht Hp)
    as (r & p' & Hsend & Hrun).
  unfold message_handler, dict_contains. rewrite Hjson, Hid. cbn [negb].
  rewrite Hsend. destruct r as [[response|e]|].
  - destruct (broadcast_total (set_process b (Some p')) response)
      as (tried & b2 & -> & Hproc & _).
    exists (Ends (Ok response)), p', b2. by rewrite Hrun.
  - exists (Ends (Raise e)), p', (set_process b (Some p')).
    unfold handle_exception. cbn [py_get]. by rewrite Hid, Hrun.
  - exists Blocks, p', (set_process b (Some p')). by rewrite Hrun.
Qed.

Lemma run_serial (requests : list json) (answer : json -> json) (ts : list nat) :
  forall (p : Popen) (replies : gmap nat (call json)),
    stdin_buffered p = [] ->
    stdout_pending p = [] ->
    answers (popen_prog p) requests answer ->
    (forall t, t ∈ ts -> t < length requests) ->
    forall t,
      (run_steps requests (serial ts) p replies).2 !! t
      = if bool_decide (t ∈ ts)
        then (fun m => Ends (Ok (answer m))) <$> requests !! t
        else replies !! t.
Proof.
  induction ts as [|k ts IH]; intros p replies Hbuf Hout Hans Hlt t.
  - change (serial []) with (@nil step). cbn [run_steps snd].
    rewrite bool_decide_eq_false_2; [done|]. apply not_elem_of_nil.
  - destruct (lookup_lt_is_Some_2 requests k) as [m Hm].
    { apply Hlt, list_elem_of_here. }
    change (serial (k :: ts)) with (Write k :: Read k :: serial ts).
    cbn [run_steps]. rewrite Hm.
    rewrite (write_request_reacts m p Hbuf). unfold read_reply.
    cbn [stdout_pending set_io]. rewrite Hout. cbn [app].
    rewrite (read_loop_open _ _ _ _ (Hans (stdin_seen p) m
               ltac:(by eapply list_elem_of_lookup_2))).
    rewrite IH; try done.
    + destruct (decide (t = k)) as [->|Hne].
      * rewrite (bool_decide_eq_true_2 (k ∈ k :: ts)) by apply list_elem_of_here.
        rewrite Hm. destruct (bool_decide (k ∈ ts)); [done|].
        by rewrite lookup_insert_eq.
      * rewrite lookup_insert_ne by done.
        destruct (decide (t ∈ ts)) as [Hin|Hnin].
        -- rewrite !bool_decide_eq_true_2; [done| |done].
           by apply list_elem_of_further.
        -- rewrite !bool_decide_eq_false_2; [done| |done].
           rewrite elem_of_cons. by intros [?|?].
    + intros t' Hin. by apply Hlt, list_elem_of_further.
Qed.

(** C1, as the code has it.  Under the event loop, whatever the order in
    which it resumes the handlers, at most one exchange is in flight at
    any point: a handler that has written its request reads its reply
    before any other handler writes.  So, with a child that answers every
    request with one JSON line, every reply a handler reads is the answer
    to its own request, and a handler that was resumed twice has its
    reply.  Nothing in the bridge guards the sequence: the order comes
    from the handlers giving up the thread only at their [await]. *)
Theorem event_loop_pairs_replies (requests : list json) (picks : list nat)
    (p : Popen) (answer : json -> json) :
  stdin_buffered p = [] ->
  stdout_pending p = [] ->
  answers (popen_prog p) requests answer ->
  let run := event_loop picks (handlers (length requests)) in
  let replies := (run_steps requests run p ∅).2 in
  single_flight None run = true
  /\ (forall t (r : call json), replies !! t = Some r ->
        exists message, requests !! t = Some message /\ r = Ok (answer message))
  /\ (forall t message,
        requests !! t = Some message ->
        2 <= length (filter (eq t) picks) ->
        replies !! t = Some (Ends (Ok (answer message)))).
Proof.
  intros Hbuf Hout Hans run replies.
  destruct (event_loop_serial picks (handlers (length requests)))
    as (ts & Hrun & Hlt & Htwice & _).
  { intros t code. apply handlers_stage. }
  assert (Hlen : length (handlers (length requests)) = length requests).
  { unfold handlers. by rewrite length_fmap, length_seq. }
  rewrite Hlen in Hlt.
  assert (Hreplies : forall t, replies !! t
            = if bool_decide (t ∈ ts)
              then (fun m => Ends (Ok (answer m))) <$> requests !! t else None).
  { intros t. unfold replies, run. rewrite Hrun.
    by rewrite (run_serial requests answer ts p ∅ Hbuf Hout Hans Hlt t). }
  split; [unfold run; rewrite Hrun; apply single_flight_serial|].
  split.
  - intros t r. rewrite Hreplies. destruct (bool_decide (t ∈ ts)); [|done].
    destruct (requests !! t) as [m|]; [|done]. intros [= <-]. by exists m.
  - intros t message Hm Hcount. rewrite Hreplies, Hm.
    rewrite bool_decide_eq_true_2; [done|].
    apply Htwice; [|done]. apply handlers_lookup. by eapply lookup_lt_Some.
Qed.

End RunClaims.

(** ** The exchange: every outcome *)

(** The pending bytes cut in two: the first part a line with its newline,
    or all that was left. *)
Lemma up_to_newline_cases (pending line rest : bytes) :
  up_to_newline pending = (line, rest) ->
  pending = line ++ rest
  /\ (terminated line \/ ((x0a ∉ line) /\ rest = [])).
Proof.
  revert line rest. induction pending as [|b pending IH]; intros line rest.
  - intros [= <- <-]. split; [done|]. right. split; [apply not_elem_of_nil | done].
  - simpl. destruct (Byte.eqb b x0a) eqn:E.
    + intros [= <- <-]. apply Byte.byte_dec_bl in E. subst b.
      split; [done|]. left. exists []. split; [done | apply not_elem_of_nil].
    + destruct (up_to_newline pending) as [line' rest'].
      intros [= <- <-]. destruct (IH line' rest' eq_refl) as [Happ Hkind].
      assert (Hb : b <> x0a).
      { intros ->. vm_compute in E. discriminate E. }
      split; [by rewrite Happ|].
      destruct Hkind as [(body & -> & Hnot)|[Hnot ->]].
      * left. exists (b :: body). split; [done|].
        rewrite not_elem_of_cons. split; [congruence | done].
      * right. split; [|done]. rewrite not_elem_of_cons. split; [congruence | done].
Qed.

Section ExchangeMore.
Context `{PyRuntime}.

(** The reading loop passes over some lines and then comes out in one of
    four ways: at a line [json.loads] accepts; at a line that raises (it
    is not UTF-8, or [json.loads] raises something else than a
    [JSONDecodeError] on it); at the end of the stream; or never, where
    no whole line is left and the stream has not ended. *)
Lemma read_loop_outcomes (ends : bool) (pending : bytes) :
  exists skipped,
    passed_over skipped
    /\ ((exists line response rest,
           pending = concat skipped ++ line ++ rest
           /\ next_line ends line rest
           /\ parse_line line = Value response
           /\ read_loop ends pending = (Ok response, rest))
        \/ (exists line e rest,
              pending = concat skipped ++ line ++ rest
              /\ next_line ends line rest
              /\ parse_line line = Fault e
              /\ read_loop ends pending = (Raise e, rest))
        \/ (exists last,
              pending = concat skipped ++ last
              /\ (x0a ∉ last)
              /\ ends = true
              /\ (last = [] \/ parse_line last = Skip)
              /\ read_loop ends pending = (Raise closed_connection, []))
        \/ (exists last,
              pending = concat skipped ++ last
              /\ (x0a ∉ last)
              /\ ends = false
              /\ read_loop ends pending = (Blocks, last))).
Proof.
  remember (length pending) as n eqn:Hn. revert pending Hn.
  induction n as [n IH] using lt_wf_ind. intros pending Hn.
  destruct (up_to_newline pending) as [line rest] eqn:Hcut.
  destruct (up_to_newline_cases _ _ _ Hcut) as [Happ Hkind].
  destruct Hkind as [Hterm|[Hnot ->]].
  - (* a whole line *)
    rewrite Happ, (read_loop_line _ _ _ Hterm).
    destruct (parse_line line) eqn:Hparse.
    + destruct (IH (length rest)) with (pending := rest) as (skipped & Hsk & Hcases).
      { apply terminated_not_nil in Hterm. subst. rewrite length_app.
        destruct line; [done|]. simpl. lia. }
      { done. }
      exists (line :: skipped). split; [by constructor|].
      assert (Hc : forall tail, line ++ rest = concat (line :: skipped) ++ tail
                                <-> rest = concat skipped ++ tail).
      { intros tail. simpl. rewrite <- app_assoc.
        split; [intros Heq; by simplify_list_eq | by intros ->]. }
      destruct Hcases as [(l & v & r & ? & ? & ? & ?)
                         |[(l & e & r & ? & ? & ? & ?)
                          |[(l & ? & ? & ? & ? & ?)|(l & ? & ? & ? & ?)]]].
      * left. exists l, v, r. by rewrite Hc.
      * right. left. exists l, e, r. by rewrite Hc.
      * right. right. left. exists l. by rewrite Hc.
      * right. right. right. exists l. by rewrite Hc.
    + exists []. split; [constructor|]. left.
      exists line, response, rest. repeat split; try done. by left.
    + exists []. split; [constructor|]. right. left.
      exists line, e, rest. repeat split; try done. by left.
  - (* what is left holds no newline *)
    rewrite app_nil_r in Happ. subst pending.
    exists []. split; [constructor|]. cbn [concat app].
    destruct ends.
    + rewrite read_loop_eq, (readline_last _ _ Hnot).
      destruct line as [|b line].
      { right. right. left. exists []. repeat split; try done. by left. }
      destruct (parse_line (b :: line)) eqn:Hparse.
      * right. right. left. exists (b :: line).
        rewrite read_loop_eq. repeat split; try done. by right.
      * left. exists (b :: line), response, []. rewrite app_nil_r.
        repeat split; try done. by right.
      * right. left. exists (b :: line), e, []. rewrite app_nil_r.
        repeat split; try done. by right.
    + right. right. right. exists line.
      by rewrite (read_loop_blocks _ Hnot).
Qed.

(** With a child, an exchange is the request written and the loop run on
    what the child has emitted by then. *)
Lemma exchange_outcomes_aux (self : McpSseBridge) (p : Popen) (message : json) :
  process self = Some p ->
  send_to_mcp self message
  = ((read_loop (stdout_ends p) (stdout_pending (write_request message p))).1,
     set_process self
       (Some (set_pending (write_request message p)
                (read_loop (stdout_ends p)
                   (stdout_pending (write_request message p))).2))).
Proof.
  intros Hp. unfold send_to_mcp, read_reply. rewrite Hp, write_request_ends.
  by destruct (read_loop _ _).
Qed.

(** Every exchange with a running child comes out in one of four ways,
    and in each the child's handle keeps exactly the output that follows
    the last line read.  The lines passed over are those that end in a
    newline and are, once decoded and stripped, empty or rejected by
    [json.loads] with a [JSONDecodeError]; then either a line parses and
    its value is returned; or a line raises, and the exception leaves
    [send_to_mcp]: the [UnicodeDecodeError] of a line that is not UTF-8,
    or what [json.loads] raised if that is not a [JSONDecodeError]; or
    the output has ended and [RuntimeError('MCP server closed
    connection')] is raised; or no whole line is left and the child keeps
    its output open, and then the call does not return. *)
Theorem exchange_outcomes (self : McpSseBridge) (p : Popen) (message : json) :
  process self = Some p ->
  poll p = None ->
  let emitted := stdout_pending (write_request message p) in
  let left_with rest :=
    set_process self (Some (set_pending (write_request message p) rest)) in
  exists skipped,
    passed_over skipped
    /\ ((exists line response rest,
           emitted = concat skipped ++ line ++ rest
           /\ next_line (stdout_ends p) line rest
           /\ parse_line line = Value response
           /\ send_to_mcp self message = (Ok response, left_with rest))
        \/ (exists line e rest,
              emitted = concat skipped ++ line ++ rest
              /\ next_line (stdout_ends p) line rest
              /\ parse_line line = Fault e
              /\ (exn_cls e = UnicodeDecodeError
                  \/ (json_loads (strip (string_of_list_byte line)) = inl e
                      /\ exn_cls e <> JSONDecodeError))
              /\ send_to_mcp self message = (Raise e, left_with rest))
        \/ (exists last,
              emitted = concat skipped ++ last
              /\ (x0a ∉ last)
              /\ stdout_ends p = true
              /\ (last = [] \/ parse_line last = Skip)
              /\ send_to_mcp self message = (Raise closed_connection, left_with []))
        \/ (exists last,
              emitted = concat skipped ++ last
              /\ (x0a ∉ last)
              /\ stdout_ends p = false
              /\ send_to_mcp self message = (Blocks, left_with last))).
Proof.
  intros Hp _ emitted left_with. rewrite (exchange_outcomes_aux self p message Hp).
  fold emitted.
  destruct (read_loop_outcomes (stdout_ends p) emitted) as (skipped & Hsk & Hcases).
  exists skipped. split; [done|].
  destruct Hcases as [(l & v & r & ? & ? & ? & Hr)
                     |[(l & e & r & ? & ? & Hf & Hr)
                      |[(l & ? & ? & ? & ? & Hr)|(l & ? & ? & ? & Hr)]]].
  - left. exists l, v, r. by rewrite Hr.
  - right. left. exists l, e, r. rewrite Hr. repeat split; try done.
    by apply parse_line_fault.
  - right. right. left. exists l. by rewrite Hr.
  - right. right. right. exists l. by rewrite Hr.
Qed.

(** Writing a request takes nothing of what the child has emitted and is
    not yet read. *)
Lemma write_request_grows (message : json) (p : Popen) :
  exists more,
    stdout_pending (write_request message p) = stdout_pending p ++ more.
Proof.
  unfold write_request, stdin_flush, stdin_write.
  assert (Hd : forall q, exists more,
             stdout_pending (deliver q) = stdout_pending q ++ more).
  { intros q. unfold deliver. destruct (stdin_buffered q).
    - exists []. by rewrite app_nil_r.
    - by eexists. }
  destruct (popen_bufsize p =? 0)%Z.
  - destruct (Hd (set_io p (stdin_buffered p ++ encode (json_dumps message +:+ newline))
                    (stdin_seen p) (stdout_pending p))) as [m1 H1].
    destruct (Hd (deliver (set_io p (stdin_buffered p ++ encode (json_dumps message +:+ newline))
                    (stdin_seen p) (stdout_pending p)))) as [m2 H2].
    exists (m1 ++ m2). rewrite H2, H1. simpl. by rewrite app_assoc.
  - destruct (Hd (set_io p (stdin_buffered p ++ encode (json_dumps message +:+ newline))
                    (stdin_seen p) (stdout_pending p))) as [m1 H1].
    exists m1. by rewrite H1.
Qed.

(** Replies are paired with requests by position only.  When the child
    has a second JSON line pending behind the line that answers a
    request, the exchange returns the first and leaves the second; the
    next exchange returns that second line, whatever it asks and whatever
    the child emits for it. *)
Theorem stale_line_answers_next_request (self : McpSseBridge) (p : Popen)
    (m1 m2 v1 v2 : json) (l1 l2 rest : bytes) :
  process self = Some p ->
  poll p = None ->
  stdout_pending (write_request m1 p) = l1 ++ l2 ++ rest ->
  terminated l1 -> parse_line l1 = Value v1 ->
  terminated l2 -> parse_line l2 = Value v2 ->
  (send_to_mcp self m1).1 = Ok v1
  /\ (send_to_mcp (send_to_mcp self m1).2 m2).1 = Ok v2.
Proof.
  intros Hp _ Hout Ht1 Hv1 Ht2 Hv2.
  rewrite (exchange_outcomes_aux self p m1 Hp), Hout.
  rewrite (read_loop_line _ _ _ Ht1), Hv1. cbn [fst snd]. split; [done|].
  rewrite (exchange_outcomes_aux
             (set_process self (Some (set_pending (write_request m1 p) (l2 ++ rest))))
             (set_pending (write_request m1 p) (l2 ++ rest)) m2 eq_refl).
  cbn [fst].
  destruct (write_request_grows m2 (set_pending (write_request m1 p) (l2 ++ rest)))
    as [more ->].
  cbn [stdout_pending set_pending set_io]. rewrite <- app_assoc.
  by rewrite (read_loop_line _ _ _ Ht2), Hv2.
Qed.

End ExchangeMore.

(** ** Exchanges and broadcasts in a row *)

Section RowFacts.
Context `{PyRuntime}.

(** [write_request] changes neither the child's exit status nor the
    signals it has been sent. *)
Lemma write_request_static (message : json) (p : Popen) :
  returncode (write_request message p) = returncode p
  /\ signals (write_request message p) = signals p
  /\ popen_prog (write_request message p) = popen_prog p
  /\ popen_env (write_request message p) = popen_env p.
Proof.
  unfold write_request, stdin_flush, stdin_write.
  assert (Hd : forall q, returncode (deliver q) = returncode q
                         /\ signals (deliver q) = signals q
                         /\ popen_prog (deliver q) = popen_prog q
                         /\ popen_env (deliver q) = popen_env q).
  { intros q. unfold deliver. by destruct (stdin_buffered q). }
  destruct (popen_bufsize p =? 0)%Z.
  - destruct (Hd (deliver (set_io p (stdin_buffered p ++ encode (json_dumps message +:+ newline))
                    (stdin_seen p) (stdout_pending p)))) as (-> & -> & -> & ->).
    by destruct (Hd (set_io p (stdin_buffered p ++ encode (json_dumps message +:+ newline))
                    (stdin_seen p) (stdout_pending p))) as (-> & -> & -> & ->).
  - by destruct (Hd (set_io p (stdin_buffered p ++ encode (json_dumps message +:+ newline))
                    (stdin_seen p) (stdout_pending p))) as (-> & -> & -> & ->).
Qed.

(** The text [json.dumps] gives holds no newline, so the request is one
    line. *)
Lemma request_line_terminated (message : json) :
  x0a ∉ encode (json_dumps message) -> terminated (request_line message).
Proof.
  intros Hnot. exists (encode (json_dumps message)). split; [|done].
  unfold request_line, encode, list_byte_of_string.
  generalize (json_dumps message).
  intros s. induction s as [|a s IH]; [done|].
  simpl. by rewrite IH.
Qed.

(** Exchanges in a row on a running child.  The calls made are the
    first ones, up to and with the first that blocks, if one does: a call
    that blocks is the last one made, and only a call that blocks keeps
    later ones from being made.  The child's input is the lines of the
    requests of the calls made, one per call, in order and flushed,
    nothing else.  The set of clients, the child's exit status and its
    signals are as before: [send_to_mcp] neither stops nor restarts the
    child, also when it fails. *)
Theorem exchanges_write_one_line_each (messages : list json)
    (self : McpSseBridge) (p : Popen) :
  process self = Some p ->
  poll p = None ->
  stdin_buffered p = [] ->
  let results := (exchanges messages self).1 in
  exists p',
    process (exchanges messages self).2 = Some p'
    /\ length results <= length messages
    /\ stdin_seen p'
       = stdin_seen p
         ++ concat (request_line <$> take (length results) messages)
    /\ stdin_buffered p' = []
    /\ (forall i, results !! i = Some Blocks -> S i = length results)
    /\ (length results < length messages -> last results = Some Blocks)
    /\ clients (exchanges messages self).2 = clients self
    /\ returncode p' = returncode p
    /\ signals p' = signals p
    /\ ((forall m, m ∈ messages -> x0a ∉ encode (json_dumps m)) ->
        Forall terminated (request_line <$> messages)).
Proof.
  revert self p. induction messages as [|m messages IH]; intros self p Hp Hrun Hbuf.
  - exists p. simpl. rewrite app_nil_r. repeat split; try done. lia.
  - assert (Hlines : (forall m', m' ∈ m :: messages -> x0a ∉ encode (json_dumps m')) ->
                     (forall m', m' ∈ messages -> x0a ∉ encode (json_dumps m')) ->
                     Forall terminated (request_line <$> messages) ->
                     Forall terminated (request_line <$> m :: messages)).
    { intros Hall _ Hrest. cbn [fmap list_fmap]. constructor; [|done].
      apply request_line_terminated, Hall, list_elem_of_here. }
    cbn [exchanges]. rewrite (exchange_outcomes_aux self p m Hp).
    set (p1 := set_pending (write_request m p) _).
    destruct (write_request_seen m p) as [Hseen Hbuf1].
    destruct (write_request_static m p) as (Hrc & Hsig & _).
    assert (Hrun1 : poll p1 = None).
    { unfold poll, p1. cbn [returncode set_pending set_io]. by rewrite Hrc. }
    assert (Hseen1 : stdin_seen p1 = stdin_seen p ++ request_line m).
    { unfold p1. cbn [stdin_seen set_pending set_io]. by rewrite Hseen, Hbuf. }
    destruct (IH (set_process self (Some p1)) p1 eq_refl Hrun1 Hbuf1)
      as (p' & Hproc & Hlen & Hseen' & Hbuf' & Hlast & Hstop & Hcl & Hrc' & Hsig' & Hterm).
    destruct (read_loop _ _).1 as [r|].
    + destruct (exchanges messages (set_process self (Some p1))) as [rs self''].
      exists p'. cbn [fst snd length] in *. split; [done|].
      split; [lia|]. split.
      { rewrite Hseen', Hseen1. cbn [take fmap list_fmap concat].
        by rewrite <- app_assoc. }
      split; [done|]. split.
      { intros [|i]; [done|]. cbn. intros Hi. f_equal. by apply Hlast. }
      split.
      { intros Hlt. destruct rs as [|r' rs]; [|apply Hstop; lia].
        simpl in Hstop. destruct messages; [simpl in Hlt; lia|].
        discriminate Hstop. simpl. lia. }
      split; [by rewrite Hcl|]. split; [by rewrite Hrc', <- Hrc|].
      split; [by rewrite Hsig', <- Hsig|].
      intros Hall. apply Hlines; [done| |].
      * intros m' Hin. by apply Hall, list_elem_of_further.
      * apply Hterm. intros m' Hin. by apply Hall, list_elem_of_further.
    + exists p1. cbn [fst snd length]. split; [done|]. split; [lia|].
      split.
      { rewrite Hseen1. cbn [take fmap list_fmap concat]. by rewrite take_0, app_nil_r. }
      split; [done|]. split.
      { intros [|i]; [done|]. by destruct i. }
      split; [done|]. split; [done|].
      split; [unfold p1; cbn; done|]. split; [unfold p1; cbn; done|].
      intros Hall. apply Hlines; [done| |].
      * intros m' Hin. by apply Hall, list_elem_of_further.
      * apply Hterm. intros m' Hin. by apply Hall, list_elem_of_further.
Qed.

(** After a broadcast each queue is what its own [put] made of it, and
    the child is untouched. *)
Lemma broadcast_clients (self : McpSseBridge) (message : json) :
  clients (broadcast_to_clients self message).2
  = omap (queue_put (json_dumps message)) (clients self)
  /\ process (broadcast_to_clients self message).2 = process self
  /\ binary_path (broadcast_to_clients self message).2 = binary_path self.
Proof.
  rewrite broadcast_refines_snapshot. cbn [snd].
  split; [apply broadcast_snapshot_clients|].
  unfold broadcast_snapshot. by destruct (sweep_snapshot _ _ _ _).
Qed.

(** Broadcasts in a row: every open queue ends with the messages' texts
    appended in the order of the broadcasts, each once; a queue that was
    shut down is out of the set after the first broadcast; no queue
    enters the set; the child is untouched. *)
Theorem broadcasts_keep_order (messages : list json) (self : McpSseBridge) :
  (forall q queue,
     clients self !! q = Some queue ->
     clients (broadcasts messages self) !! q
     = if q_shutdown queue
       then match messages with [] => Some queue | _ => None end
       else Some (MkQueue (q_items queue ++ (json_dumps <$> messages)) false))
  /\ (forall q, clients self !! q = None ->
        clients (broadcasts messages self) !! q = None)
  /\ process (broadcasts messages self) = process self.
Proof.
  revert self. induction messages as [|m messages IH]; intros self.
  - simpl. split; [|done]. intros q [items shut] Hq. rewrite Hq. simpl.
    destruct shut; [done|]. by rewrite app_nil_r.
  - cbn [broadcasts].
    destruct (broadcast_clients self m) as (Hcl & Hproc & _).
    destruct (IH (broadcast_to_clients self m).2) as (Hmem & Hnon & Hp).
    split; [|split].
    + intros q [items shut] Hq. cbn [q_shutdown q_items].
      destruct shut.
      * apply Hnon. rewrite Hcl, lookup_omap, Hq. done.
      * rewrite (Hmem q (MkQueue (items ++ [json_dumps m]) false)).
        -- cbn. by rewrite <- app_assoc.
        -- rewrite Hcl, lookup_omap, Hq. done.
    + intros q Hq. apply Hnon. by rewrite Hcl, lookup_omap, Hq.
    + by rewrite Hp.
Qed.

End RowFacts.

(** ** The message handler: every outcome *)

Section HandlerMore.
Context `{PyRuntime}.

(** A request with an [id] that the child answers: the caller gets the
    reply as the body of a 200 JSON response, and every open queue gets
    the same text, [json.dumps] of the reply, appended; the queues are
    otherwise as [put] leaves them, and the child keeps what follows the
    reply. *)
Theorem reply_reaches_caller_and_clients (request : Request)
    (fields : list (string * json)) (id response : json) (b : McpSseBridge)
    (p : Popen) (skipped : list bytes) (line rest : bytes) :
  request_json request = Ok (JObj fields) ->
  dict_get "id" fields = Some id ->
  process b = Some p ->
  poll p = None ->
  stdout_pending (write_request (JObj fields) p) = concat skipped ++ line ++ rest ->
  passed_over skipped ->
  terminated line ->
  parse_line line = Value response ->
  exists b',
    message_handler request (Some b)
    = (Returned (MkResponse 200 (Some (json_dumps response)) "application/json"),
       Some b')
    /\ (forall q queue,
          clients b !! q = Some queue -> q_shutdown queue = false ->
          clients b' !! q
          = Some (MkQueue (q_items queue ++ [json_dumps response]) false))
    /\ (forall q, clients b' !! q
                  = clients b !! q ≫= queue_put (json_dumps response))
    /\ process b' = Some (set_pending (write_request (JObj fields) p) rest).
Proof.
  intros Hjson Hid Hp _ Hout Hsk Hline Hval.
  unfold message_handler, dict_contains. rewrite Hjson, Hid. cbn [negb].
  rewrite (exchange_outcomes_aux b p (JObj fields) Hp), Hout.
  rewrite (read_loop_skips _ _ _ Hsk), (read_loop_line _ _ _ Hline), Hval.
  cbn [fst snd].
  set (b1 := set_process b _).
  destruct (broadcast_total b1 response) as (tried & b2 & Hb & Hproc & Hcl).
  rewrite Hb. exists b2. split; [done|].
  assert (Hlook : forall q, clients b2 !! q
                            = clients b !! q ≫= queue_put (json_dumps response)).
  { intros q. by rewrite Hcl, lookup_omap. }
  split; [|split; [done | by rewrite Hproc]].
  intros q queue Hq Hopen. rewrite Hlook, Hq. simpl. unfold queue_put.
  by rewrite Hopen.
Qed.


(** A posted dict with an ['id'] on a bridge: the handler comes out as
    the exchange does. *)
Lemma handler_exchange (request : Request) (fields : list (string * json))
    (id : json) (b : McpSseBridge) :
  request_json request = Ok (JObj fields) ->
  dict_get "id" fields = Some id ->
  (message_handler request (Some b)).1
  = match (send_to_mcp b (JObj fields)).1 with
    | Ends (Ok response) => Returned (json_response response 200)
    | Ends (Raise e) => Returned (json_response (error_envelope id e) 500)
    | Blocks => Blocked
    end.
Proof.
  intros Hjson Hid. unfold message_handler, dict_contains.
  rewrite Hjson, Hid. cbn [negb].
  destruct (send_to_mcp b (JObj fields)) as [[[response|e]|] b1]; cbn [fst].
  - by destruct (broadcast_total b1 response) as (tried & b2 & -> & _).
  - unfold handle_exception. cbn [py_get]. by rewrite Hid.
  - done.
Qed.

(** A body that parses to something else than a dict is not answered. *)
Lemma handler_escapes (request : Request) (message : json)
    (bridge : option McpSseBridge) :
  request_json request = Ok message ->
  type_name message <> "dict" ->
  (message_handler request bridge).1
  = Propagated (attribute_error (type_name message) "get").
Proof.
  intros Hjson Hne. unfold message_handler. rewrite Hjson.
  by destruct message.
Qed.

(** All that [message_handler] can come to, for any request and any
    state of the bridge.  An exception leaves it exactly when the body is
    JSON but not a dict, and then it is the [AttributeError] of [.get].
    It never returns exactly when the body is a dict with an ['id'], the
    bridge is there and the exchange with the child blocks.  In every
    other case it returns, and the response is the empty 200, a 200 JSON
    reply or a 500 JSON error envelope: no other status is ever sent. *)
Theorem message_handler_outcomes (request : Request)
    (bridge : option McpSseBridge) :
  (forall e,
     (message_handler request bridge).1 = Propagated e <->
     exists message,
       request_json request = Ok message
       /\ type_name message <> "dict"
       /\ e = attribute_error (type_name message) "get")
  /\ ((message_handler request bridge).1 = Blocked <->
      exists fields id b,
        request_json request = Ok (JObj fields)
        /\ dict_get "id" fields = Some id
        /\ bridge = Some b
        /\ (send_to_mcp b (JObj fields)).1 = Blocks)
  /\ (forall r,
        (message_handler request bridge).1 = Returned r -> answer_shape r)
  /\ ((exists r, (message_handler request bridge).1 = Returned r)
      \/ (message_handler request bridge).1 = Blocked
      <-> (exists e, request_json request = Raise e)
          \/ (exists fields, request_json request = Ok (JObj fields))).
Proof.
  unfold answer_shape.
  destruct (request_json request) as [message|e0] eqn:Hjson.
  2:{ (* the body does not parse *)
      assert (Hr : (message_handler request bridge).1
                   = Returned (json_response (error_envelope JNull e0) 500)).
      { unfold message_handler. by rewrite Hjson. }
      rewrite Hr. split; [|split; [|split]].
      - intros e. split; [done|]. by intros (m & ? & _).
      - split; [done|]. by intros (? & ? & ? & ? & _).
      - intros r [= <-]. right. right. eauto.
      - split; [eauto|]. intros _. left. eauto. }
  destruct (decide (type_name message = "dict")) as [Hdict|Hne].
  2:{ (* JSON, not a dict *)
      rewrite (handler_escapes request message bridge Hjson Hne).
      split; [|split; [|split]].
      - intros e. split.
        + intros [= <-]. by exists message.
        + by intros (m & [= <-] & _ & ->).
      - split; [done|]. intros (fields & ? & ? & [= ->] & _). by destruct Hne.
      - done.
      - split; [by intros [[r ?]|?]|].
        intros [[e ?]|[fields [= ->]]]; [done|]. by destruct Hne. }
  destruct message as [| | | | | |fields]; try done.
  assert (Hnot : forall e, ~ exists m, Ok (JObj fields) = Ok m
                             /\ type_name m <> "dict"
                             /\ e = attribute_error (type_name m) "get").
  { intros e (m & [= <-] & Hm & _). by destruct Hm. }
  destruct (dict_get "id" fields) as [id|] eqn:Hid.
  2:{ (* a notification *)
      assert (Hr : (message_handler request bridge).1 = Returned (empty_response 200)).
      { unfold message_handler, dict_contains. by rewrite Hjson, Hid. }
      rewrite Hr. split; [|split; [|split]].
      - intros e. split; [done|]. intros Hex. by destruct (Hnot e).
      - split; [done|]. intros (f & i & b0 & [= <-] & Hi & _). congruence.
      - intros r [= <-]. by left.
      - split; [eauto|]. intros _. left. eauto. }
  destruct bridge as [b|].
  2:{ (* no bridge *)
      assert (Hr : (message_handler request None).1
                   = Returned (json_response
                       (error_envelope id (attribute_error "NoneType" "send_to_mcp")) 500)).
      { unfold message_handler, dict_contains, handle_exception.
        rewrite Hjson, Hid. cbn [negb py_get]. by rewrite Hid. }
      rewrite Hr. split; [|split; [|split]].
      - intros e. split; [done|]. intros Hex. by destruct (Hnot e).
      - split; [done|]. by intros (? & ? & ? & _ & _ & ? & _).
      - intros r [= <-]. right. right. eauto.
      - split; [eauto|]. intros _. left. eauto. }
  rewrite (handler_exchange request fields id b Hjson Hid).
  destruct (send_to_mcp b (JObj fields)).1 as [[response|e1]|] eqn:Hsend.
  - split; [|split; [|split]].
    + intros e. split; [done|]. intros Hex. by destruct (Hnot e).
    + split; [done|]. intros (f & i & b0 & [= <-] & _ & [= <-] & Hb).
      by rewrite Hsend in Hb.
    + intros r [= <-]. right. left. eauto.
    + split; [eauto|]. intros _. left. eauto.
  - split; [|split; [|split]].
    + intros e. split; [done|]. intros Hex. by destruct (Hnot e).
    + split; [done|]. intros (f & i & b0 & [= <-] & _ & [= <-] & Hb).
      by rewrite Hsend in Hb.
    + intros r [= <-]. right. right. eauto.
    + split; [eauto|]. intros _. left. eauto.
  - split; [|split; [|split]].
    + intros e. split; [done|]. intros Hex. by destruct (Hnot e).
    + split; [|done]. intros _. by exists fields, id, b.
    + done.
    + split; [eauto|]. intros _. by right.
Qed.

End HandlerMore.

(** ** Startup and cleanup *)

Section LifeMore.
Context `{PyRuntime}.

(** A moment after [stop_mcp_server] the child, if there is a handle,
    is found gone. *)
Lemma stop_settled_exited (self : McpSseBridge) (os : OS) (p' : Popen) :
  process (settled (stop_mcp_server self os).1) = Some p' -> is_Some (poll p').
Proof.
  unfold settled. cbn [process set_process].
  destruct (process (stop_mcp_server self os).1) as [q|] eqn:Hq; [|done].
  intros [= <-]. unfold settle.
  destruct (stop_leaves_doomed self os q Hq) as [[rc Hrc]|Hkill].
  - rewrite Hrc. by eauto.
  - destruct (poll q) as [rc|] eqn:Hrc; [rewrite Hrc; by eauto|].
    rewrite bool_decide_eq_true_2 by done. cbn. by eauto.
Qed.

(** The health check after [cleanup_background_tasks].  The cleanup
    stops the child and keeps its handle (it is never reset to [None]);
    with a bridge it raises nothing and keeps the set of clients.  A
    moment later the health check answers 503, whatever the bridge was.
    Right after the cleanup it still answers 200 in one case, and in that
    case only: the child was running and had to be killed, for
    [stop_mcp_server] returns once the SIGKILL is sent and does not wait
    for the child to be gone. *)
Theorem cleanup_then_health (bridge : option McpSseBridge) (os : OS) :
  let after := (cleanup_background_tasks bridge os).1.2 in
  after = (fun b => (stop_mcp_server b os).1) <$> bridge
  /\ (forall b, bridge = Some b ->
        (cleanup_background_tasks bridge os).1.1 = Ok tt
        /\ clients (stop_mcp_server b os).1 = clients b
        /\ (is_Some (process b) <-> is_Some (process (stop_mcp_server b os).1)))
  /\ (health_handler (settled <$> after)).1 = json_response unhealthy 503
  /\ ((exists b p, bridge = Some b /\ process b = Some p
                   /\ poll p = None /\ lingers 5 p = true) ->
      (health_handler after).1 = json_response healthy 200)
  /\ (~ (exists b p, bridge = Some b /\ process b = Some p
                     /\ poll p = None /\ lingers 5 p = true) ->
      (health_handler after).1 = json_response unhealthy 503).
Proof.
  intros after. unfold after.
  destruct bridge as [b|].
  2:{ simpl. split; [done|]. split; [by intros b0 Hb0|].
      split; [done|]. split; [by intros (b0 & p0 & ? & _)|done]. }
  unfold cleanup_background_tasks.
  rewrite (surjective_pairing (stop_mcp_server b os)).
  cbn [fst snd fmap option_fmap option_map].
  split; [done|]. split.
  { intros b0 [= <-]. split; [done|].
    destruct (process b) as [p|] eqn:Hp.
    2:{ unfold stop_mcp_server. rewrite Hp. cbn. by rewrite Hp. }
    destruct (poll p) as [rc|] eqn:Hrun.
    - rewrite (stop_exited b os p rc Hp Hrun). cbn. by rewrite Hp.
    - destruct (stop_live b os p Hp Hrun) as (p' & dt & -> & _).
      cbn. split; [done|]. split; eauto. }
  split.
  { unfold health_handler.
    destruct (process (settled (stop_mcp_server b os).1)) as [p'|] eqn:Hp'; [|done].
    by destruct (stop_settled_exited b os p' Hp') as [rc ->]. }
  destruct (process b) as [p|] eqn:Hp.
  2:{ split; [by intros (b0 & p0 & [= <-] & ? & _); congruence|].
      intros _. unfold health_handler, stop_mcp_server. rewrite Hp. cbn.
      by rewrite Hp. }
  destruct (poll p) as [rc|] eqn:Hrun.
  { split; [intros (b0 & p0 & [= <-] & ? & ? & _); congruence|].
    intros _. rewrite (stop_exited b os p rc Hp Hrun). cbn.
    unfold health_handler. by rewrite Hp, Hrun. }
  destruct (stop_live b os p Hp Hrun) as (p' & dt & -> & _ & Hpoll & _).
  cbn [fst]. unfold health_handler. cbn [process set_process].
  destruct (lingers 5 p) eqn:Hl.
  - rewrite (proj2 Hpoll eq_refl). split; [done|].
    intros Hn. destruct Hn. by exists b, p.
  - destruct (poll p') as [rc|] eqn:Hrc.
    + split; [|done]. intros (b0 & p0 & [= <-] & Hp0 & _ & Hl0). congruence.
    + discriminate (proj1 Hpoll eq_refl).
Qed.

(** [start_background_tasks] on a bridge.  When the executable is there,
    it raises nothing, the health check then answers 200, and the clients
    are kept.  When it is not, [FileNotFoundError] leaves it (the server
    does not start), the bridge is unchanged, and the log file has been
    emptied all the same.  The caller's environment is never changed. *)
Theorem startup_then_health (b : McpSseBridge) (os : OS) :
  let started := start_background_tasks (Some b) os in
  (forall prog,
     programs os !! binary_path b = Some prog ->
     started.1.1 = Ok tt
     /\ (health_handler started.1.2).1 = json_response healthy 200
     /\ exists b', started.1.2 = Some b' /\ clients b' = clients b)
  /\ (programs os !! binary_path b = None ->
      (exists e, started.1.1 = Raise e /\ exn_cls e = FileNotFoundError)
      /\ started.1.2 = Some b
      /\ files started.2 !! stderr_log = Some [])
  /\ environ started.2 = environ os.
Proof.
  intros started. unfold started, start_background_tasks, start_mcp_server.
  destruct (programs os !! binary_path b) as [prog|] eqn:Hprog; cbn.
  - split; [|split; [done|done]]. intros prog' _. split; [done|]. split; [done|].
    by eexists.
  - split; [done|]. split; [|done]. intros _. split; [by eexists|].
    split; [done|]. apply lookup_insert_eq.
Qed.

End LifeMore.

(** ** The SSE handler *)

Section SseFacts.
Context `{PyRuntime}.



(** A broadcast on an open queue. *)
Lemma push_open (b : McpSseBridge) (message : json) (q : nat) (queue : Queue) :
  clients b !! q = Some queue -> q_shutdown queue = false ->
  clients (broadcast_to_clients b message).2 !! q
  = Some (MkQueue (q_items queue ++ [json_dumps message]) false).
Proof.
  intros Hq Hopen. destruct (broadcast_clients b message) as [-> _].
  rewrite lookup_omap, Hq. simpl. unfold queue_put. by rewrite Hopen.
Qed.

(** A broadcast brings no queue into the set. *)
Lemma push_absent (b : McpSseBridge) (message : json) (q : nat) :
  clients b !! q = None ->
  clients (broadcast_to_clients b message).2 !! q = None.
Proof.
  intros Hq. destruct (broadcast_clients b message) as [-> _].
  by rewrite lookup_omap, Hq.
Qed.

(** A connected client's stream.  While the connection is up and the
    handler is not cancelled, the handler stays in its loop whatever is
    broadcast and whenever it runs, and the frames written together with
    the frames of what is still queued are, in order, those written
    before, those queued before, and one frame per broadcast since: no
    message is lost, doubled or reordered. *)
Theorem sse_stream_in_order (hs : list happening) (conn : SseConn) (app : App)
    (b : McpSseBridge) (q : nat) (queue : Queue) :
  sse_pc_of conn = AtGet q ->
  sr_prepared (sse_response conn) = true ->
  sr_open (sse_response conn) = true ->
  app_bridge app = Some b ->
  clients b !! q = Some queue ->
  q_shutdown queue = false ->
  Forall (fun h => h = Resume \/ exists m, h = Push m) hs ->
  exists conn' app' b' queue',
    sse_handler hs (conn, app) = Some (conn', app')
    /\ sse_pc_of conn' = AtGet q
    /\ app_bridge app' = Some b'
    /\ clients b' !! q = Some queue'
    /\ sr_written (sse_response conn') ++ (message_event <$> q_items queue')
       = sr_written (sse_response conn)
         ++ (message_event <$> q_items queue) ++ frames (pushed hs).
Proof.
  revert conn app b queue.
  induction hs as [|h hs IH]; intros conn app b queue Hpc Hprep Hopen Hb Hq Hq_open Hall.
  { exists conn, app, b, queue. simpl. unfold frames. simpl.
    by rewrite app_nil_r. }
  apply Forall_cons in Hall as [Hh Hall].
  destruct Hh as [->|[m ->]].
  - (* the handler takes a message off its queue, or keeps waiting *)
    change (pushed (Resume :: hs)) with (pushed hs).
    cbn [sse_handler happen fst snd]. unfold sse_resume. rewrite Hpc, Hb, Hq.
    unfold queue_get. destruct queue as [[|message items] shut]; cbn [q_shutdown q_items] in *; subst shut.
    + destruct (IH conn app b (MkQueue [] false)) as (c' & a' & b' & q' & Hrun & Hrest);
        try done.
      exists c', a', b', q'. split; [exact Hrun|exact Hrest].
    + unfold sr_write. rewrite Hprep, Hopen. cbn [andb].
      destruct (IH (MkSse (MkStream (sr_headers (sse_response conn)) true
                             (sr_written (sse_response conn) ++ [message_event message]) true)
                          (AtGet q))
                   (MkApp (Some (set_clients b (<[q := MkQueue items false]> (clients b))))
                          (app_next app))
                   (set_clients b (<[q := MkQueue items false]> (clients b)))
                   (MkQueue items false))
        as (c' & a' & b' & q' & Hrun & Hpc' & Hb' & Hq' & Hacc); try done.
      { cbn. apply lookup_insert_eq. }
      exists c', a', b', q'. split; [done|]. split; [done|]. split; [done|].
      split; [done|]. rewrite Hacc. cbn. by rewrite <- !app_assoc.
  - (* a broadcast reaches the queue *)
    change (pushed (Push m :: hs)) with (m :: pushed hs).
    cbn [sse_handler happen fst snd]. unfold app_broadcast. rewrite Hb. cbn [fmap option_fmap option_map].
    destruct (IH conn (MkApp (Some (broadcast_to_clients b m).2) (app_next app))
                (broadcast_to_clients b m).2
                (MkQueue (q_items queue ++ [json_dumps m]) false))
      as (c' & a' & b' & q' & Hrun & Hpc' & Hb' & Hq' & Hacc); try done.
    { by apply push_open. }
    exists c', a', b', q'. split; [done|]. split; [done|]. split; [done|].
    split; [done|]. rewrite Hacc. cbn [q_items pushed omap list_omap].
    unfold frames. rewrite !fmap_app, fmap_cons. cbn.
    by rewrite <- !app_assoc.
Qed.



(** Frames of messages in a row. *)
Lemma frames_app (xs ys : list json) : frames (xs ++ ys) = frames xs ++ frames ys.
Proof. unfold frames. apply fmap_app. Qed.

(** A broadcast keeps [life_inv]. *)
Lemma life_push (b0 : McpSseBridge) (n0 : nat) (done_ : list json)
    (conn : SseConn) (app : App) (m : json) :
  life_inv b0 n0 done_ (conn, app) ->
  life_inv b0 n0 (done_ ++ [m]) (conn, app_broadcast m app).
Proof.
  intros (b' & Hb & Hok & Hproc & Hfed & Hout & Hle & Hown). cbn [fst snd] in *.
  exists (broadcast_to_clients b' m).2. cbn [fst snd].
  unfold app_broadcast. rewrite Hb. cbn [fmap option_fmap option_map app_bridge app_next].
  split; [done|]. split.
  { intros b'' [= <-] q queue. cbn [app_bridge app_next].
    destruct (broadcast_clients b' m) as [-> _]. rewrite lookup_omap.
    destruct (clients b' !! q) as [queue0|] eqn:Hq; [|done]. cbn.
    destruct (Hok b' Hb q queue0 Hq) as [Hlt Hopen].
    unfold queue_put. rewrite Hopen. intros [= <-]. by split. }
  split. { destruct (broadcast_clients b' m) as (_ & -> & _). done. }
  split.
  { intros q queue Hq. rewrite (push_open b' m q _ (Hfed q queue Hq) eq_refl).
    cbn [q_items]. by rewrite fmap_app, app_assoc. }
  split. { intros q Hq Hne. apply push_absent. by apply Hout. }
  split; [done|].
  unfold own_state in *. cbn [sse_response sse_pc_of app_next] in *.
  destruct (sse_pc_of conn) as [| |q| |fault].
  - destruct Hown as (Hn & ? & ?). split; [|done]. by apply push_absent.
  - destruct Hown as (Hn & ? & ? & ?). split; [|done]. by apply push_absent.
  - destruct Hown as (-> & Hprep & queue & before & since & Hq & -> & Hacc).
    split; [done|]. split; [done|].
    destruct (Hok b' Hb n0 queue Hq) as [_ Hopen].
    exists (MkQueue (q_items queue ++ [json_dumps m]) false), before, (since ++ [m]).
    split; [by apply push_open|]. split; [by rewrite app_assoc|].
    cbn [q_items]. rewrite fmap_app, app_assoc, Hacc, frames_app. done.
  - destruct Hown as (Hn & before & since & -> & Hpre).
    split; [by apply push_absent|]. exists before, (since ++ [m]).
    split; [by rewrite app_assoc|].
    etrans; [exact Hpre|]. rewrite frames_app, app_comm_cons.
    by apply prefix_app_r.
  - destruct Hown as (Hn & ?). split; [|done]. by apply push_absent.
Qed.

(** The [finally] block keeps it. *)
Lemma life_discard (b0 : McpSseBridge) (n0 : nat) (done_ : list json)
    (app : App) (b' : McpSseBridge) (r : StreamResponse) (before since : list json) :
  clients b0 !! n0 = None ->
  app_bridge app = Some b' -> app_ok app -> process b' = process b0 ->
  (forall q queue, clients b0 !! q = Some queue ->
     clients b' !! q
     = Some (MkQueue (q_items queue ++ (json_dumps <$> done_)) false)) ->
  (forall q, clients b0 !! q = None -> q <> n0 -> clients b' !! q = None) ->
  n0 <= app_next app ->
  done_ = before ++ since ->
  sr_written r `prefix_of` endpoint_event :: frames since ->
  life_inv b0 n0 done_ (MkSse r SseReturned, discard_client n0 app).
Proof.
  intros Hfresh Hb Hok Hproc Hfed Hout Hle Hdone Hpre.
  exists (set_clients b' (delete n0 (clients b'))). cbn [fst snd].
  unfold discard_client. rewrite Hb.
  cbn [fmap option_fmap option_map app_bridge app_next].
  split; [done|]. split.
  { intros b'' [= <-] q queue. cbn. intros Hq.
    apply lookup_delete_Some in Hq as [_ Hq]. by apply (Hok b' Hb). }
  split; [done|]. split.
  { intros q queue Hq. cbn. rewrite lookup_delete_ne; [by apply Hfed|].
    intros <-. by rewrite Hfresh in Hq. }
  split.
  { intros q Hq Hne. cbn. rewrite lookup_delete_ne; [by apply Hout|done]. }
  split; [done|].
  unfold own_state. cbn. split; [apply lookup_delete_eq|].
  by exists before, since.
Qed.

(** Every happening is followed by the model and keeps [life_inv]. *)
Lemma life_step (b0 : McpSseBridge) (n0 : nat) (done_ : list json)
    (h : happening) (s : SseConn * App) :
  clients b0 !! n0 = None ->
  life_inv b0 n0 done_ s ->
  exists s', happen h s = Some s' /\ life_inv b0 n0 (done_ ++ pushed [h]) s'.
Proof.
  intros Hfresh Hinv. destruct s as [conn app].
  destruct h as [| | |m]; cbn [pushed omap list_omap]; rewrite ?app_nil_r.
  4:{ eexists. split; [reflexivity|]. by apply life_push. }
  3:{ (* the connection goes away: nothing but the transport changes *)
      eexists. split; [reflexivity|]. cbn [fst snd].
      destruct Hinv as (b' & Hb & Hok & Hproc & Hfed & Hout & Hle & Hown).
      exists b'. do 6 (split; [done|]).
      unfold own_state in *. cbn [fst snd sse_response sse_pc_of hang_up
        sr_written sr_prepared] in *. exact Hown. }
  - (* the handler runs to its next await *)
    destruct Hinv as (b' & Hb & Hok & Hproc & Hfed & Hout & Hle & Hown).
    cbn [fst snd] in *. cbn [happen fst snd]. unfold sse_resume.
    unfold own_state in Hown. destruct conn as [r pc].
    cbn [sse_response sse_pc_of] in *. destruct pc as [| |q| |fault].
    + destruct Hown as (Hn & Hnext & Hw).
      unfold sr_prepare, set_header. cbn [sr_open sr_headers sr_written sr_prepared].
      destruct (sr_open r).
      * eexists. split; [reflexivity|]. exists b'. cbn [fst snd].
        do 6 (split; [done|]). unfold own_state. cbn. done.
      * eexists. split; [reflexivity|]. exists b'. cbn [fst snd].
        do 6 (split; [done|]). unfold own_state. cbn. done.
    + destruct Hown as (Hn & Hnext & Hw & Hprep). rewrite Hb.
      assert (Hadd : life_inv b0 n0 done_
                (MkSse (MkStream (sr_headers r) true (sr_written r ++ [endpoint_event]) true)
                       (AtGet (app_next app)), add_client app b')).
      { exists (set_clients b' (<[app_next app := new_queue]> (clients b'))).
        cbn [fst snd]. unfold add_client. cbn [app_bridge app_next].
        split; [done|]. split.
        { intros b'' [= <-] q queue. cbn. intros Hq.
          apply lookup_insert_Some in Hq as [[<- <-]|[Hne Hq]].
          - split; [lia|done].
          - destruct (Hok b' Hb q queue Hq). split; [lia|done]. }
        split; [done|]. split.
        { intros q queue Hq. cbn. rewrite lookup_insert_ne; [by apply Hfed|].
          rewrite Hnext. intros <-. by rewrite Hfresh in Hq. }
        split.
        { intros q Hq Hne. cbn. rewrite lookup_insert_ne; [by apply Hout|].
          by rewrite Hnext. }
        split; [lia|].
        unfold own_state. cbn. rewrite Hnext. split; [done|]. split; [done|].
        exists new_queue, done_, []. split; [apply lookup_insert_eq|].
        split; [by rewrite app_nil_r|]. by rewrite Hw. }
      unfold sr_write. rewrite Hprep. cbn [andb]. destruct (sr_open r).
      * eexists. split; [reflexivity|]. exact Hadd.
      * eexists. split; [reflexivity|]. rewrite Hnext.
        destruct Hadd as (b'' & Hb'' & Hok'' & Hproc'' & Hfed'' & Hout'' & Hle'' & _).
        cbn [fst snd] in *.
        apply (life_discard b0 n0 done_ _ b'' r done_ []); try done.
        { by rewrite app_nil_r. }
        rewrite Hw. apply prefix_nil.
    + destruct Hown as (-> & Hprep & queue & before & since & Hq & Hdone & Hacc).
      rewrite Hb, Hq. destruct (Hok b' Hb n0 queue Hq) as [Hlt Hopen].
      unfold queue_get. rewrite Hopen.
      destruct (q_items queue) as [|message items] eqn:Hitems.
      * eexists. split; [reflexivity|]. exists b'. cbn [fst snd].
        do 6 (split; [done|]). unfold own_state. cbn.
        split; [done|]. split; [done|]. exists queue, before, since.
        by rewrite Hitems.
      * assert (Htook : forall r',
                  sr_written r' ++ (message_event <$> items)
                  = endpoint_event :: frames since ->
                  sr_prepared r' = true ->
                  life_inv b0 n0 done_
                    (MkSse r' (AtGet n0),
                     MkApp (Some (set_clients b'
                              (<[n0 := MkQueue items false]> (clients b'))))
                           (app_next app))).
        { intros r' Hacc' Hprep'.
          exists (set_clients b' (<[n0 := MkQueue items false]> (clients b'))).
          cbn [fst snd app_bridge app_next].
          split; [done|]. split.
          { intros b'' [= <-] q queue'. cbn. intros Hq'.
            apply lookup_insert_Some in Hq' as [[<- <-]|[Hne Hq']].
            - by split.
            - by apply (Hok b' Hb). }
          split; [done|]. split.
          { intros q queue' Hq'. cbn. rewrite lookup_insert_ne; [by apply Hfed|].
            intros <-. by rewrite Hfresh in Hq'. }
          split.
          { intros q Hq' Hne. cbn. rewrite lookup_insert_ne; [by apply Hout|done]. }
          split; [done|].
          unfold own_state. cbn. split; [done|]. split; [done|].
          exists (MkQueue items false), before, since.
          split; [apply lookup_insert_eq|]. by split. }
        unfold sr_write. rewrite Hprep. cbn [andb]. destruct (sr_open r).
        -- eexists. split; [reflexivity|]. apply Htook; [|done]. cbn.
           rewrite <- Hacc. cbn. by rewrite <- app_assoc.
        -- eexists. split; [reflexivity|].
           assert (Hpre : sr_written r `prefix_of` endpoint_event :: frames since).
           { rewrite <- Hacc. by apply prefix_app_r. }
           destruct (Htook (MkStream (sr_headers r) true
                              (sr_written r ++ [message_event message]) true))
             as (b'' & Hb'' & Hok'' & Hproc'' & Hfed'' & Hout'' & Hle'' & _).
           { cbn. rewrite <- Hacc. cbn. by rewrite <- app_assoc. }
           { done. }
           cbn [fst snd] in *.
           by apply (life_discard b0 n0 done_ _ b'' r before since).
    + eexists. split; [reflexivity|]. exists b'. cbn [fst snd].
      do 6 (split; [done|]). exact Hown.
    + eexists. split; [reflexivity|]. exists b'. cbn [fst snd].
      do 6 (split; [done|]). exact Hown.
  - (* the handler's task is cancelled *)
    destruct Hinv as (b' & Hb & Hok & Hproc & Hfed & Hout & Hle & Hown).
    cbn [fst snd] in *. cbn [happen fst snd]. unfold sse_cancel.
    unfold own_state in Hown. destruct conn as [r pc].
    cbn [sse_response sse_pc_of] in *. destruct pc as [| |q| |fault].
    + eexists. split; [reflexivity|]. exists b'. cbn [fst snd].
      do 6 (split; [done|]). unfold own_state. cbn. by destruct Hown as (? & ? & ?).
    + eexists. split; [reflexivity|]. exists b'. cbn [fst snd].
      do 6 (split; [done|]). unfold own_state. cbn. by destruct Hown as (? & ? & ? & ?).
    + destruct Hown as (-> & Hprep & queue & before & since & Hq & Hdone & Hacc).
      eexists. split; [reflexivity|].
      apply (life_discard b0 n0 done_ _ b' r before since); try done.
      rewrite <- Hacc. by apply prefix_app_r.
    + eexists. split; [reflexivity|]. exists b'. cbn [fst snd].
      do 6 (split; [done|]). exact Hown.
    + eexists. split; [reflexivity|]. exists b'. cbn [fst snd].
      do 6 (split; [done|]). exact Hown.
Qed.

(** So does a run of them. *)
Lemma life_run (b0 : McpSseBridge) (n0 : nat) (hs : list happening)
    (done_ : list json) (s : SseConn * App) :
  clients b0 !! n0 = None ->
  life_inv b0 n0 done_ s ->
  exists s', sse_handler hs s = Some s' /\ life_inv b0 n0 (done_ ++ pushed hs) s'.
Proof.
  intros Hfresh. revert done_ s.
  induction hs as [|h hs IH]; intros done_ s Hinv.
  { exists s. by rewrite app_nil_r. }
  destruct (life_step b0 n0 done_ h s Hfresh Hinv) as (s1 & Hstep & Hinv1).
  destruct (IH _ _ Hinv1) as (s' & Hrun & Hinv').
  exists s'. cbn [sse_handler]. rewrite Hstep. split; [done|].
  replace (done_ ++ pushed (h :: hs)) with ((done_ ++ pushed [h]) ++ pushed hs);
    [done|].
  rewrite <- app_assoc. f_equal. by destruct h.
Qed.

(** It holds when the request arrives. *)
Lemma life_start (app : App) (b : McpSseBridge) :
  app_bridge app = Some b -> app_ok app ->
  clients b !! app_next app = None
  /\ life_inv b (app_next app) [] (new_conn, app).
Proof.
  intros Hb Hok.
  assert (Hfresh : clients b !! app_next app = None).
  { destruct (clients b !! app_next app) as [queue|] eqn:Hq; [|done].
    destruct (Hok b Hb _ _ Hq). lia. }
  split; [done|]. exists b. cbn [fst snd].
  split; [done|]. split; [done|]. split; [done|]. split.
  { intros q queue Hq. rewrite Hq. cbn. rewrite app_nil_r.
    destruct (Hok b Hb _ _ Hq) as [_ Hopen]. destruct queue; cbn in *. by subst. }
  split; [done|]. split; [done|]. unfold own_state. by cbn.
Qed.

(** The handler's queue is in [bridge.clients] exactly while the handler
    is in its loop.  From the request on, whatever happens (the handler
    runs, is cancelled, the connection goes away, messages are
    broadcast): a queue that was not in the set before is in it if and
    only if it is this handler's and the handler is in its loop, so once
    the handler has returned or raised nothing of it is left behind; the
    other clients stay, and their queues get the broadcasts and nothing
    else; the child is untouched. *)
Theorem sse_handler_unregisters (hs : list happening) (app : App) (b : McpSseBridge) :
  app_bridge app = Some b -> app_ok app ->
  exists conn' app' b',
    sse_handler hs (new_conn, app) = Some (conn', app')
    /\ app_bridge app' = Some b' /\ app_ok app'
    /\ process b' = process b
    /\ (forall q queue, clients b !! q = Some queue ->
          clients b' !! q
          = Some (MkQueue (q_items queue ++ (json_dumps <$> pushed hs)) false))
    /\ (forall q, clients b !! q = None ->
          (is_Some (clients b' !! q) <-> sse_pc_of conn' = AtGet q)).
Proof.
  intros Hb Hok. destruct (life_start app b Hb Hok) as [Hfresh Hinv].
  destruct (life_run b (app_next app) hs [] _ Hfresh Hinv)
    as ([conn' app'] & Hrun & b' & Hb' & Hok' & Hproc & Hfed & Hout & Hle & Hown).
  cbn [fst snd app_nil_l] in *. change ([] ++ pushed hs) with (pushed hs) in *.
  exists conn', app', b'. repeat (split; [done|]).
  intros q Hq. unfold own_state in Hown.
  destruct (decide (q = app_next app)) as [->|Hne].
  - destruct (sse_pc_of conn') as [| |q'| |fault].
    + destruct Hown as (-> & _). split; [by intros []|done].
    + destruct Hown as (-> & _). split; [by intros []|done].
    + destruct Hown as (-> & _ & queue & _ & _ & -> & _). split; [done|by eexists].
    + destruct Hown as (-> & _). split; [by intros []|done].
    + destruct Hown as (-> & _). split; [by intros []|done].
  - rewrite (Hout q Hq Hne). split; [by intros []|].
    intros Hpc. rewrite Hpc in Hown. by destruct Hown as (-> & _).
Qed.

Lemma sse_handler_app (hs1 hs2 : list happening) (s : SseConn * App) :
  sse_handler (hs1 ++ hs2) s = sse_handler hs1 s ≫= sse_handler hs2.
Proof.
  revert s. induction hs1 as [|h hs1 IH]; intros s; [done|].
  cbn [app sse_handler]. destruct (happen h s) as [s1|]; [apply IH | done].
Qed.

(** One happening on a client whose queue [q] is open, or whose handler
    has returned: [sent] is what it has been or is still to be sent. *)
Lemma stream_step (q : nat) (sent : list bytes) (h : happening)
    (s : SseConn * App) :
  stream_inv q sent s ->
  exists s', happen h s = Some s' /\ stream_inv q (sent ++ frames (pushed [h])) s'.
Proof.
  destruct s as [[r pc] app]. unfold stream_inv. cbn [fst snd sse_pc_of sse_response].
  destruct pc as [| |q'| |fault]; try done.
  - (* in the loop *)
    intros (-> & Hprep & b & queue & Hb & Hq & Hopen & Hsent).
    destruct h as [| | |m]; cbn [pushed omap list_omap frames fmap list_fmap];
      rewrite ?app_nil_r.
    + cbn [happen fst snd]. unfold sse_resume. cbn [sse_pc_of sse_response].
      rewrite Hb, Hq. unfold queue_get. rewrite Hopen.
      destruct (q_items queue) as [|message items] eqn:Hitems.
      * eexists. split; [done|]. cbn. split; [done|]. split; [done|].
        exists b, queue. by rewrite Hitems.
      * unfold sr_write. rewrite Hprep. cbn [andb]. destruct (sr_open r).
        -- eexists. split; [done|]. cbn. split; [done|]. split; [done|].
           eexists _, (MkQueue items false). split; [done|]. cbn.
           split; [apply lookup_insert_eq|]. split; [done|].
           rewrite <- Hsent. cbn. by rewrite <- app_assoc.
        -- eexists. split; [done|]. cbn. rewrite <- Hsent. by apply prefix_app_r.
    + eexists. split; [done|]. cbn. rewrite <- Hsent. by apply prefix_app_r.
    + eexists. split; [done|]. cbn. split; [done|]. split; [done|].
      by exists b, queue.
    + eexists. split; [done|]. cbn. unfold app_broadcast. rewrite Hb. cbn.
      split; [done|]. split; [done|].
      exists (broadcast_to_clients b m).2,
             (MkQueue (q_items queue ++ [json_dumps m]) false).
      split; [done|]. split; [by apply push_open|]. split; [done|].
      cbn. rewrite fmap_app, app_assoc, Hsent. done.
  - (* returned *)
    intros Hpre. destruct h as [| | |m]; (eexists; split; [done|]); cbn;
      etrans; try exact Hpre; by apply prefix_app_r.
Qed.

Lemma stream_run (q : nat) (hs : list happening) (sent : list bytes)
    (s : SseConn * App) :
  stream_inv q sent s ->
  exists s', sse_handler hs s = Some s' /\ stream_inv q (sent ++ frames (pushed hs)) s'.
Proof.
  revert sent s. induction hs as [|h hs IH]; intros sent s Hinv.
  { exists s. split; [done|]. by rewrite app_nil_r. }
  destruct (stream_step q sent h s Hinv) as (s1 & Hstep & Hinv1).
  destruct (IH _ _ Hinv1) as (s' & Hrun & Hinv').
  exists s'. cbn [sse_handler]. rewrite Hstep. split; [done|].
  replace (sent ++ frames (pushed (h :: hs)))
    with ((sent ++ frames (pushed [h])) ++ frames (pushed hs)); [done|].
  rewrite <- app_assoc, <- frames_app. do 2 f_equal. by destruct h.
Qed.

(** What a client is sent: the endpoint frame first, then the frames of
    the broadcasts made since its queue was created, in order.  [before]
    is what happens until the handler is about to create its queue, and
    [after] what happens from then on.  Nothing is written before.
    Afterwards, while the handler is in its loop, the frames written and
    those still queued are exactly the endpoint frame and the frames of
    the messages broadcast in [after]; once it has ended, what was
    written is a beginning of that.  Nothing broadcast in [before] is
    replayed. *)
Theorem sse_client_gets_later_broadcasts (before after : list happening)
    (app : App) (b : McpSseBridge) (conn1 : SseConn) (app1 : App) :
  app_bridge app = Some b -> app_ok app ->
  sse_handler before (new_conn, app) = Some (conn1, app1) ->
  sse_pc_of conn1 = AtRegister ->
  sr_open (sse_response conn1) = true ->
  sr_written (sse_response conn1) = []
  /\ exists conn' app',
       sse_handler (before ++ Resume :: after) (new_conn, app) = Some (conn', app')
       /\ match sse_pc_of conn' with
          | AtGet q =>
              exists b' queue,
                app_bridge app' = Some b' /\ clients b' !! q = Some queue
                /\ sr_written (sse_response conn') ++ (message_event <$> q_items queue)
                   = endpoint_event :: frames (pushed after)
          | _ =>
              sr_written (sse_response conn')
                `prefix_of` endpoint_event :: frames (pushed after)
          end.
Proof.
  intros Hb Hok Hbefore Hpc Hopen.
  destruct (life_start app b Hb Hok) as [Hfresh Hinv].
  destruct (life_run b (app_next app) before [] _ Hfresh Hinv)
    as (s1 & Hrun1 & b1 & Hb1 & _ & _ & _ & _ & _ & Hown).
  rewrite Hbefore in Hrun1. injection Hrun1 as <-.
  cbn [fst snd] in *. unfold own_state in Hown. rewrite Hpc in Hown.
  destruct Hown as (_ & _ & Hw & Hprep). split; [done|].
  destruct (stream_run (app_next app1) after [endpoint_event]
              (MkSse (MkStream (sr_headers (sse_response conn1)) true
                        (sr_written (sse_response conn1) ++ [endpoint_event]) true)
                     (AtGet (app_next app1)), add_client app1 b1))
    as ([conn' app'] & Hrun & Hinv').
  { unfold stream_inv. cbn. split; [done|]. split; [done|].
    eexists _, new_queue. split; [done|]. cbn.
    split; [apply lookup_insert_eq|]. split; [done|]. by rewrite Hw. }
  exists conn', app'. split.
  { rewrite sse_handler_app, Hbefore. cbn [mbind option_bind sse_handler happen fst snd].
    unfold sse_resume. rewrite Hpc, Hb1. unfold sr_write. rewrite Hprep, Hopen.
    cbn [andb]. exact Hrun. }
  unfold stream_inv in Hinv'. cbn [fst snd] in Hinv'.
  destruct (sse_pc_of conn') as [| |q| |fault]; try done.
  destruct Hinv' as (-> & _ & b' & queue & Hb' & Hq' & _ & Hsent).
  exists b', queue. split; [done|]. split; [done|]. exact Hsent.
Qed.

End SseFacts.

Lemma stop_keeps_clients (self : McpSseBridge) (os : OS) :
  clients (stop_mcp_server self os).1 = clients self.
Proof.
  unfold stop_mcp_server. destruct (process self) as [p|]; [|done].
  by destruct (wait 5 (terminate p)) as [[[rc|] p'] dt].
Qed.

(** Stopping a bridge that has been stopped.  A moment after the first
    stop the child is found gone, and a further stop does nothing: no
    signal, no wait.  Right after the first stop a further stop takes no
    time either and never sends SIGKILL, but it sends SIGTERM once more
    when the first stop had to kill and the child has not been found gone
    yet; it then finds it gone, so that any stop after it does
    nothing. *)
Theorem stop_twice (self : McpSseBridge) (os os' : OS) :
  let after := (stop_mcp_server self os).1 in
  let again := stop_mcp_server after os' in
  stop_mcp_server (settled after) os' = (settled after, os')
  /\ again.2 = os'
  /\ clients again.1 = clients self
  /\ (process after = None -> again.1 = after)
  /\ (forall p', process after = Some p' ->
        exists p'',
          process again.1 = Some p''
          /\ is_Some (poll p'')
          /\ signals p''
             = signals p' ++ match poll p' with Some _ => [] | None => [SIGTERM] end)
  /\ (forall os'', stop_mcp_server again.1 os'' = (again.1, os'')).
Proof.
  intros after again. split.
  { destruct (process (settled after)) as [q|] eqn:Hq.
    - destruct (stop_settled_exited self os q Hq) as [rc Hrc].
      by apply (stop_exited _ _ q rc).
    - unfold stop_mcp_server. by rewrite Hq. }
  destruct (process after) as [p'|] eqn:Hp'.
  - destruct (stop_doomed after os' p' Hp') as (p'' & Hagain & [rc Hgone] & Hsig).
    { by apply (stop_leaves_doomed self os). }
    unfold again. rewrite Hagain. cbn [fst snd].
    split; [done|]. split; [apply stop_keeps_clients|]. split; [done|].
    split; [intros q [= <-]; exists p''; by eauto|].
    intros os''. by apply (stop_exited _ _ p'' rc).
  - assert (Hagain : again = (after, os')).
    { unfold again, stop_mcp_server. by rewrite Hp'. }
    rewrite Hagain. cbn [fst snd].
    split; [done|]. split; [apply stop_keeps_clients|]. split; [done|].
    split; [done|]. intros os''. unfold stop_mcp_server. by rewrite Hp'.
Qed.

(** ** From the caller's reply to the clients' streams *)

Section EndToEnd.
Context `{PyRuntime}.

(** An exchange leaves the set of clients alone. *)
Lemma send_keeps_clients (b : McpSseBridge) (message : json) :
  clients (send_to_mcp b message).2 = clients b.
Proof.
  unfold send_to_mcp. destruct (process b) as [p|]; [|done].
  by destruct (read_reply _).
Qed.

(** The connected clients hear exactly the replies the callers get.  When
    [message_handler] returns, either the response is a 200 with a body,
    and then every queue has been offered that very text (each queue is
    what its own [put] made of it), or it is anything else (the empty
    acknowledgment, an error envelope), and then no queue has changed. *)
Theorem clients_hear_the_replies (request : Request) (b : McpSseBridge)
    (r : Response) :
  (message_handler request (Some b)).1 = Returned r ->
  exists b',
    (message_handler request (Some b)).2 = Some b'
    /\ match status r, text r with
       | 200%Z, Some body => clients b' = omap (queue_put body) (clients b)
       | _, _ => clients b' = clients b
       end.
Proof.
  unfold message_handler.
  destruct (request_json request) as [message|e].
  2:{ cbn. intros [= <-]. by exists b. }
  destruct message as [| | | | | |fields];
    try (cbn; discriminate).
  destruct (negb (dict_contains "id" fields)) eqn:Hid.
  { intros [= <-]. by exists b. }
  pose proof (send_keeps_clients b (JObj fields)) as Hkeep.
  destruct (send_to_mcp b (JObj fields)) as [[[response|e]|] b1]; cbn [snd] in Hkeep.
  - destruct (broadcast_total b1 response) as (tried & b2 & -> & _ & Hcl).
    intros [= <-]. exists b2. split; [done|]. cbn. by rewrite Hcl, Hkeep.
  - unfold handle_exception. destruct (py_get (JObj fields) "id" JNull); [|discriminate].
    intros [= <-]. exists b1. split; [done|]. cbn. done.
  - discriminate.
Qed.

(** A client in its loop, the connection up: as many runs of the handler
    as there are messages in its queue write them all, oldest first, one
    frame each, and leave the queue empty and the handler in its loop;
    the other queues and the child are untouched. *)
Theorem sse_drains_queue (items : list string) (conn : SseConn) (app : App)
    (b : McpSseBridge) (q : nat) :
  sse_pc_of conn = AtGet q ->
  sr_prepared (sse_response conn) = true ->
  sr_open (sse_response conn) = true ->
  app_bridge app = Some b ->
  clients b !! q = Some (MkQueue items false) ->
  exists conn' app' b',
    sse_handler (replicate (length items) Resume) (conn, app) = Some (conn', app')
    /\ sse_pc_of conn' = AtGet q
    /\ sr_written (sse_response conn')
       = sr_written (sse_response conn) ++ (message_event <$> items)
    /\ sr_open (sse_response conn') = true
    /\ app_bridge app' = Some b'
    /\ clients b' !! q = Some (MkQueue [] false)
    /\ (forall q', q' <> q -> clients b' !! q' = clients b !! q')
    /\ process b' = process b.
Proof.
  revert conn app b.
  induction items as [|message items IH]; intros conn app b Hpc Hprep Hopen Hb Hq.
  { exists conn, app, b. cbn. by rewrite app_nil_r. }
  cbn [length replicate sse_handler happen fst snd]. unfold sse_resume.
  rewrite Hpc, Hb, Hq. unfold queue_get. cbn [q_items q_shutdown].
  unfold sr_write. rewrite Hprep, Hopen. cbn [andb].
  destruct (IH (MkSse (MkStream (sr_headers (sse_response conn)) true
                         (sr_written (sse_response conn) ++ [message_event message]) true)
                      (AtGet q))
               (MkApp (Some (set_clients b (<[q := MkQueue items false]> (clients b))))
                      (app_next app))
               (set_clients b (<[q := MkQueue items false]> (clients b))))
    as (c' & a' & b' & Hrun & Hpc' & Hw & Hopen' & Hb' & Hq' & Hothers & Hproc);
    try done.
  { cbn. apply lookup_insert_eq. }
  exists c', a', b'. split; [done|]. split; [done|]. split.
  { rewrite Hw. cbn. by rewrite <- app_assoc. }
  split; [done|]. split; [done|]. split; [done|]. split; [|done].
  intros q' Hne. rewrite (Hothers q' Hne). cbn. by apply lookup_insert_ne.
Qed.

End EndToEnd.

(** ** Worked cases on the sample runtime *)

Ltac compute_now := vm_compute; reflexivity.

Ltac no_newline := apply (bool_decide_unpack _); compute_now.

(** [Sample.bridge] is what [start_mcp_server] makes of a new bridge. *)
Example start_on_sample :
  (start_mcp_server (new_bridge "./smart-diff-mcp") Sample.os).1
  = (Ok tt, Sample.bridge).
Proof. reflexivity. Qed.

(** One exchange: the request goes out as one line, the log line is
    passed over, the reply comes back. *)
Example exchange_on_sample :
  let after := @send_to_mcp Sample.runtime Sample.bridge (Sample.request 1) in
  after.1 = Ok (Sample.reply 1)
  /\ (stdin_seen <$> process after.2)
     = Some (encode (Sample.dumps (Sample.request 1) +:+ newline))
  /\ (stdout_pending <$> process after.2) = Some [].
Proof. repeat split; compute_now. Qed.

(** A broadcast to three clients, the second of which has a queue that
    refuses the message. *)
Example broadcast_on_sample :
  let self :=
    set_clients Sample.bridge
      {[3 := new_queue; 5 := MkQueue ["old"] true; 9 := MkQueue ["old"] false]} in
  let message_json := Sample.dumps (Sample.reply 1) in
  let after := (@broadcast_to_clients Sample.runtime self (Sample.reply 1)).2 in
  clients after !! 3 = Some (MkQueue [message_json] false)
  /\ clients after !! 5 = None
  /\ clients after !! 9 = Some (MkQueue ["old"; message_json] false).
Proof. repeat split; compute_now. Qed.

(** Stopping a child that exits 2 after SIGTERM, and one that ignores it:
    the second is sent SIGKILL, and is found gone a moment later. *)
Example stop_graceful_on_sample :
  let after := stop_mcp_server Sample.bridge Sample.os in
  (signals <$> process after.1) = Some [SIGTERM]
  /\ (returncode <$> process after.1) = Some (Some 0%Z)
  /\ clock after.2 = 2.
Proof. repeat split; compute_now. Qed.

Example stop_forced_on_sample :
  let self := MkBridge "./deaf" (Some (Sample.emitting [])) ∅ in
  let after := stop_mcp_server self Sample.os in
  (signals <$> process after.1) = Some [SIGTERM; SIGKILL]
  /\ (returncode <$> process after.1) = Some None
  /\ (returncode <$> process (settled after.1)) = Some (Some (-9)%Z)
  /\ clock after.2 = 5.
Proof. repeat split; compute_now. Qed.

Example health_on_sample :
  status (@health_handler Sample.runtime (Some Sample.bridge)).1 = 200%Z
  /\ status (@health_handler Sample.runtime
               (Some (stop_mcp_server Sample.bridge Sample.os).1)).1 = 503%Z
  /\ status (@health_handler Sample.runtime
               (Some (new_bridge "./smart-diff-mcp"))).1 = 503%Z
  /\ status (@health_handler Sample.runtime None).1 = 503%Z.
Proof. repeat split; compute_now. Qed.

(** A second stop right after a forced one: SIGTERM is sent once more,
    the child is found gone, and no time passes. *)
Example stop_again_on_sample :
  let self := MkBridge "./deaf" (Some (Sample.emitting [])) ∅ in
  let after := stop_mcp_server self Sample.os in
  let again := stop_mcp_server after.1 after.2 in
  (signals <$> process again.1) = Some [SIGTERM; SIGKILL; SIGTERM]
  /\ (returncode <$> process again.1) = Some (Some (-9)%Z)
  /\ clock again.2 = 5.
Proof. repeat split; compute_now. Qed.

(** The same output, a line of log text, from a child that has closed its
    output and from one that keeps it open: the exchange fails with the
    closed-connection error on the first and blocks on the second. *)
Example silent_child_on_sample :
  let log := encode ("starting" +:+ newline) in
  let quiet :=
    MkPopen ["./silent"] PIPE PIPE (ToFile stderr_log) 0 ∅ Sample.silent
      None [] [] log [] in
  (@send_to_mcp Sample.runtime
     (MkBridge "./deaf" (Some (Sample.emitting log)) ∅) (Sample.request 1)).1
  = Raise closed_connection
  /\ (@send_to_mcp Sample.runtime
        (MkBridge "./silent" (Some quiet) ∅) (Sample.request 1)).1
     = Blocks.
Proof. split; compute_now. Qed.

(** A line of 4301 digits before the reply: [json.loads] raises a
    [ValueError], which the loop does not catch, and the reply stays
    unread. *)
Example long_number_on_sample :
  let digits := string_of_list_ascii (replicate 4301 "1"%char) in
  let reply := encode (Sample.dumps (Sample.reply 1) +:+ newline) in
  let self :=
    MkBridge "./deaf"
      (Some (Sample.emitting (encode (digits +:+ newline) ++ reply))) ∅ in
  let after := @send_to_mcp Sample.runtime self (Sample.request 1) in
  after.1
  = Raise (Exn ValueError
             "Exceeds the limit (4300 digits) for integer string conversion")
  /\ (stdout_pending <$> process after.2) = Some reply.
Proof. split; compute_now. Qed.

(** The charset of the request decides how its body is decoded: the byte
    [0xE9] is no UTF-8 text, and is the letter U+00E9 in latin-1. *)
Example charset_on_sample :
  @request_text Sample.runtime (MkRequest None [xe9])
  = Raise (Exn UnicodeDecodeError "'utf-8' codec can't decode byte")
  /\ @request_text Sample.runtime (MkRequest (Some "latin-1") [xe9])
     = Ok (string_of_list_byte [xc3; xa9])
  /\ @request_text Sample.runtime (MkRequest (Some "") [xe9])
     = Raise (Exn UnicodeDecodeError "'utf-8' codec can't decode byte").
Proof. repeat split; compute_now. Qed.

Lemma exchange_before_start_witness :
  @send_to_mcp Sample.runtime (new_bridge "./smart-diff-mcp") (Sample.request 1)
  = (Raise not_started, new_bridge "./smart-diff-mcp").
Proof. apply (@exchange_before_start Sample.runtime). reflexivity. Defined.

Lemma notification_acknowledged_witness :
  let request := MkRequest None (encode (Sample.dumps (JObj Sample.note_fields))) in
  let bridge := Some (set_clients Sample.bridge {[7 := new_queue]}) in
  @message_handler Sample.runtime request bridge
  = (Returned (empty_response 200), bridge).
Proof.
  apply (@notification_acknowledged Sample.runtime _ Sample.note_fields);
    compute_now.
Defined.

Lemma id_key_presence_decides_witness :
  let request := MkRequest None (encode (Sample.dumps (JObj Sample.null_id_fields))) in
  let after := @message_handler Sample.runtime request (Some Sample.bridge) in
  after.1 <> Returned (empty_response 200)
  /\ exists b' p',
       after.2 = Some b' /\ process b' = Some p'
       /\ stdin_seen p'
          = encode (Sample.dumps (JObj Sample.null_id_fields) +:+ newline).
Proof.
  intros request after.
  destruct (@id_key_presence_decides Sample.runtime request
              Sample.null_id_fields Sample.bridge Sample.child)
    as (_ & Hany & _); [compute_now | reflexivity |].
  exact (Hany JNull eq_refl).
Defined.

Lemma non_dict_payload_escapes_witness :
  @message_handler Sample.runtime (MkRequest None (encode "[1]")) (Some Sample.bridge)
  = (Propagated (attribute_error "list" "get"), Some Sample.bridge).
Proof.
  apply (@non_dict_payload_escapes Sample.runtime _ (JArr [JInt 1]));
    [compute_now | discriminate].
Defined.

Lemma start_spawns_child_witness :
  exists p os',
    start_mcp_server (new_bridge "./smart-diff-mcp") Sample.os
    = (Ok tt, set_process (new_bridge "./smart-diff-mcp") (Some p), os')
    /\ popen_env p !! "RUST_LOG" = Some "debug"
    /\ popen_env p !! "PATH" = Some "/usr/bin"
    /\ files os' !! stderr_log = Some [].
Proof.
  destruct (start_spawns_child (new_bridge "./smart-diff-mcp") Sample.os
              Sample.server eq_refl)
    as (p & os' & Hstart & _ & _ & Hlog & Henv & _ & _ & _ & _ & _ & _ & Hfile & _).
  exists p, os'. split; [exact Hstart|]. split; [exact Hlog|].
  split; [|exact Hfile]. rewrite Henv; [compute_now | discriminate].
Defined.

(** C7, against "append-only".  The log file held the output of an
    earlier run; once [start_mcp_server] has run it is empty. *)
Lemma start_truncates_log :
  let os' := (start_mcp_server (new_bridge "./smart-diff-mcp") Sample.os).2 in
  files Sample.os !! stderr_log = Some (encode "earlier run")
  /\ files os' !! stderr_log = Some []
  /\ ~ appended_only stderr_log Sample.os os'.
Proof.
  intros os'. split; [reflexivity|]. split; [reflexivity|].
  intros Happ. destruct (Happ (encode "earlier run") eq_refl) as [more Hmore].
  vm_compute in Hmore. discriminate Hmore.
Qed.

Lemma sample_server_answers :
  @answers Sample.runtime Sample.server [Sample.request 1; Sample.request 2]
    Sample.answer.
Proof.
  intros seen message Hin.
  apply elem_of_cons in Hin as [->|Hin]; [compute_now|].
  apply elem_of_cons in Hin as [->|Hin]; [compute_now|].
  by apply elem_of_nil in Hin.
Defined.

Lemma event_loop_pairs_replies_witness :
  let requests := [Sample.request 1; Sample.request 2] in
  let run := event_loop [0; 1; 1; 0] (handlers 2) in
  let replies := (@run_steps Sample.runtime requests run Sample.child ∅).2 in
  single_flight None run = true
  /\ replies !! 0 = Some (Ends (Ok (Sample.reply 1)))
  /\ replies !! 1 = Some (Ends (Ok (Sample.reply 2))).
Proof.
  intros requests run replies.
  destruct (@event_loop_pairs_replies Sample.runtime requests [0; 1; 1; 0]
              Sample.child Sample.answer eq_refl eq_refl sample_server_answers)
    as (Hflight & _ & Hreply).
  split; [exact Hflight|].
  split; [apply (Hreply 0 (Sample.request 1) eq_refl) |
          apply (Hreply 1 (Sample.request 2) eq_refl)]; vm_compute; lia.
Defined.

(** C1, against "enforced by explicit mutual exclusion".  The same child
    and the same two requests, with the statements of the two exchanges
    overlapping: task 0 writes, task 1 writes, task 1 reads, task 0 reads.
    No event loop produces this run; but the bridge holds nothing that
    would make the second write wait (no lock, no flag), so the
    statements, run in this order, go through: two exchanges are in flight
    at once, task 1 reads the answer to the request of task 0, and task 0
    the answer to the request of task 1. *)
Lemma overlapping_exchanges_cross_pair :
  let requests := [Sample.request 1; Sample.request 2] in
  let run := [Write 0; Write 1; Read 1; Read 0] in
  let replies := (@run_steps Sample.runtime requests run Sample.child ∅).2 in
  single_flight None run = false
  /\ replies !! 1 = Some (Ends (Ok (Sample.answer (Sample.request 1))))
  /\ replies !! 0 = Some (Ends (Ok (Sample.answer (Sample.request 2))))
  /\ Sample.answer (Sample.request 1) <> Sample.answer (Sample.request 2).
Proof.
  intros requests run replies.
  split; [reflexivity|]. split; [compute_now|]. split; [compute_now|].
  discriminate.
Qed.

Lemma exchange_returns_first_json_line_witness :
  (@send_to_mcp Sample.runtime Sample.bridge (Sample.request 1)).1
  = Ok (Sample.reply 1).
Proof.
  destruct (@exchange_returns_first_json_line Sample.runtime Sample.bridge
              Sample.child (Sample.request 1) (Sample.reply 1)
              [encode ("pong " +:+ newline)]
              (encode (Sample.dumps (Sample.reply 1) +:+ newline)) [])
    as [Hsend _].
  - reflexivity.
  - compute_now.
  - constructor; [|constructor]. split; [|compute_now].
    exists (encode "pong "). split; [reflexivity | no_newline].
  - exists (encode (Sample.dumps (Sample.reply 1))).
    split; [reflexivity | no_newline].
  - compute_now.
  - by rewrite Hsend.
Defined.

Lemma exchange_fails_at_end_of_stream_witness :
  let self :=
    MkBridge "./deaf" (Some (Sample.emitting (encode ("starting" +:+ newline)))) ∅ in
  (@send_to_mcp Sample.runtime self (Sample.request 1)).1 = Raise closed_connection.
Proof.
  intros self.
  rewrite (@exchange_fails_at_end_of_stream Sample.runtime self
             (Sample.emitting (encode ("starting" +:+ newline)))
             (Sample.request 1) [encode ("starting" +:+ newline)] []).
  - reflexivity.
  - reflexivity.
  - compute_now.
  - constructor; [|constructor]. split; [|compute_now].
    exists (encode "starting"). split; [reflexivity | no_newline].
  - apply not_elem_of_nil.
  - by left.
Defined.

Lemma malformed_payload_rejected_witness :
  let e := Exn JSONDecodeError "Expecting value: line 1 column 1 (char 0)" in
  @message_handler Sample.runtime (MkRequest None (encode "{oops")) (Some Sample.bridge)
  = (Returned (@json_response Sample.runtime (error_envelope JNull e) 500),
     Some Sample.bridge).
Proof.
  intros e. apply (@malformed_payload_rejected Sample.runtime). compute_now.
Defined.

Lemma failed_exchange_gives_envelope_witness :
  let request := MkRequest None (encode (Sample.dumps (Sample.request 1))) in
  let b := new_bridge "./smart-diff-mcp" in
  @message_handler Sample.runtime request (Some b)
  = (Returned (@json_response Sample.runtime
                 (error_envelope (JInt 1) not_started) 500), Some b).
Proof.
  intros request b.
  destruct (@failed_exchange_gives_envelope Sample.runtime request
              [("jsonrpc", JStr "2.0"); ("id", JInt 1); ("method", JStr "ping")]
              (JInt 1) b b not_started) as [Hhandled _];
    [compute_now | reflexivity | reflexivity | exact Hhandled].
Defined.

(** *** Further worked cases *)

(** An exchange with the sample child, which keeps its output open:
    it returns a value, or an exception that is no [JSONDecodeError]
    leaves it, or it blocks; it does not end with the closed-connection
    error of an output that has ended. *)
Lemma exchange_outcomes_witness :
  let outcome := (@send_to_mcp Sample.runtime Sample.bridge (Sample.request 1)).1 in
  (exists response, outcome = Ok response)
  \/ (exists e line, outcome = Raise e
                     /\ @parse_line Sample.runtime line = Fault e)
  \/ outcome = Blocks.
Proof.
  intros outcome. unfold outcome.
  destruct (@exchange_outcomes Sample.runtime Sample.bridge Sample.child
              (Sample.request 1) eq_refl eq_refl)
    as (skipped & _ & [(l & v & r & _ & _ & _ & ->)
                      |[(l & e & r & _ & _ & Hf & _ & ->)
                       |[(l & _ & _ & Hends & _)|(l & _ & _ & _ & ->)]]]).
  - left. by exists v.
  - right. left. by exists e, l.
  - vm_compute in Hends. discriminate Hends.
  - right. by right.
Defined.

(** A child that emits two replies at once: the request for [2] is
    answered with the reply to [1], and the next request, for [1], with
    the reply to [2]. *)
Lemma stale_line_answers_next_request_witness :
  let l1 := encode (Sample.dumps (Sample.reply 1) +:+ newline) in
  let l2 := encode (Sample.dumps (Sample.reply 2) +:+ newline) in
  let self := MkBridge "./deaf" (Some (Sample.emitting (l1 ++ l2))) ∅ in
  (@send_to_mcp Sample.runtime self (Sample.request 2)).1 = Ok (Sample.reply 1)
  /\ (@send_to_mcp Sample.runtime
        (@send_to_mcp Sample.runtime self (Sample.request 2)).2
        (Sample.request 1)).1 = Ok (Sample.reply 2).
Proof.
  intros l1 l2 self.
  apply (@stale_line_answers_next_request Sample.runtime self
           (Sample.emitting (l1 ++ l2)) (Sample.request 2) (Sample.request 1)
           (Sample.reply 1) (Sample.reply 2) l1 l2 []).
  - reflexivity.
  - reflexivity.
  - compute_now.
  - exists (encode (Sample.dumps (Sample.reply 1))). split; [reflexivity | no_newline].
  - compute_now.
  - exists (encode (Sample.dumps (Sample.reply 2))). split; [reflexivity | no_newline].
  - compute_now.
Defined.

(** Three requests in a row, the second of which the sample child does
    not answer: the second call blocks, and the third request is never
    written. *)
Lemma exchanges_write_one_line_each_witness :
  let messages :=
    [Sample.request 1; JObj Sample.null_id_fields; Sample.request 2] in
  (@exchanges Sample.runtime messages Sample.bridge).1
  = [Ends (Ok (Sample.reply 1)); Blocks]
  /\ exists p',
       process (@exchanges Sample.runtime messages Sample.bridge).2 = Some p'
       /\ stdin_seen p'
          = concat (@request_line Sample.runtime <$> take 2 messages)
       /\ returncode p' = None.
Proof.
  intros messages.
  assert (Hresults : (@exchanges Sample.runtime messages Sample.bridge).1
                     = [Ends (Ok (Sample.reply 1)); Blocks]) by compute_now.
  split; [exact Hresults|].
  destruct (@exchanges_write_one_line_each Sample.runtime messages Sample.bridge
              Sample.child eq_refl eq_refl eq_refl)
    as (p' & Hp & _ & Hseen & _ & _ & _ & _ & Hrc & _).
  exists p'. split; [exact Hp|]. split; [|by rewrite Hrc].
  rewrite Hseen, Hresults. reflexivity.
Defined.

Lemma reply_reaches_caller_and_clients_witness :
  let request := MkRequest None (encode (Sample.dumps (Sample.request 1))) in
  let b := set_clients Sample.bridge {[3 := new_queue]} in
  exists b',
    @message_handler Sample.runtime request (Some b)
    = (Returned (MkResponse 200 (Some (Sample.dumps (Sample.reply 1)))
                   "application/json"), Some b')
    /\ clients b' !! 3 = Some (MkQueue [Sample.dumps (Sample.reply 1)] false).
Proof.
  intros request b.
  destruct (@reply_reaches_caller_and_clients Sample.runtime request
              [("jsonrpc", JStr "2.0"); ("id", JInt 1); ("method", JStr "ping")]
              (JInt 1) (Sample.reply 1) b Sample.child
              [encode ("pong " +:+ newline)]
              (encode (Sample.dumps (Sample.reply 1) +:+ newline)) [])
    as (b' & Hhandled & Hopen & _).
  - compute_now.
  - reflexivity.
  - reflexivity.
  - reflexivity.
  - compute_now.
  - constructor; [|constructor]. split; [|compute_now].
    exists (encode "pong "). split; [reflexivity | no_newline].
  - exists (encode (Sample.dumps (Sample.reply 1))).
    split; [reflexivity | no_newline].
  - compute_now.
  - exists b'. split; [exact Hhandled|].
    apply (Hopen 3 new_queue); reflexivity.
Defined.

(** A client in its loop while two replies are broadcast. *)
Lemma sse_stream_in_order_witness :
  let conn := MkSse (MkStream ∅ true [endpoint_event] true) (AtGet 0) in
  let app := MkApp (Some (set_clients Sample.bridge {[0 := new_queue]})) 1 in
  let hs := [Push (Sample.reply 1); Resume; Push (Sample.reply 2); Resume; Resume] in
  exists conn' app' b' queue',
    @sse_handler Sample.runtime hs (conn, app) = Some (conn', app')
    /\ sse_pc_of conn' = AtGet 0
    /\ app_bridge app' = Some b'
    /\ clients b' !! 0 = Some queue'
    /\ sr_written (sse_response conn') ++ (message_event <$> q_items queue')
       = [endpoint_event] ++ [] ++ @frames Sample.runtime [Sample.reply 1; Sample.reply 2].
Proof.
  intros conn app hs.
  apply (@sse_stream_in_order Sample.runtime hs conn app
           (set_clients Sample.bridge {[0 := new_queue]}) 0 new_queue);
    try reflexivity.
  repeat (apply Forall_cons; split; [first [by left | right; by eexists]|]).
  apply Forall_nil_2.
Defined.

Lemma sample_app_ok :
  app_ok (MkApp (Some (set_clients Sample.bridge {[0 := new_queue]})) 1).
Proof.
  intros b [= <-] q queue Hq. cbn in Hq.
  apply lookup_singleton_Some in Hq as [<- <-]. split; [apply Nat.lt_0_1 | reflexivity].
Defined.

(** A second client connects beside the first, is sent a reply and is
    cancelled. *)
Lemma sse_handler_unregisters_witness :
  let app := MkApp (Some (set_clients Sample.bridge {[0 := new_queue]})) 1 in
  let hs := [Resume; Resume; Push (Sample.reply 1); Resume; Cancel] in
  exists conn' app' b',
    @sse_handler Sample.runtime hs (new_conn, app) = Some (conn', app')
    /\ app_bridge app' = Some b'
    /\ clients b' !! 0 = Some (MkQueue [Sample.dumps (Sample.reply 1)] false)
    /\ (is_Some (clients b' !! 1) <-> sse_pc_of conn' = AtGet 1).
Proof.
  intros app hs.
  destruct (@sse_handler_unregisters Sample.runtime hs app
              (set_clients Sample.bridge {[0 := new_queue]}) eq_refl sample_app_ok)
    as (conn' & app' & b' & Hrun & Hb' & _ & _ & Hfed & Hown).
  exists conn', app', b'. split; [exact Hrun|]. split; [exact Hb'|].
  split; [exact (Hfed 0 new_queue eq_refl) | exact (Hown 1 eq_refl)].
Defined.

(** A reply is broadcast while a client's handler prepares its response;
    the handler then creates its queue, and two more replies are
    broadcast, the first of which it writes.  Of the three broadcasts the
    client is sent the last two. *)
Lemma sse_client_gets_later_broadcasts_witness :
  let app := MkApp (Some (set_clients Sample.bridge {[0 := new_queue]})) 1 in
  let before := [Push (Sample.reply 1); Resume] in
  let after := [Push (Sample.reply 2); Resume; Push (Sample.reply 1)] in
  exists conn' app',
    @sse_handler Sample.runtime (before ++ Resume :: after) (new_conn, app)
    = Some (conn', app')
    /\ match sse_pc_of conn' with
       | AtGet q =>
           exists b' queue,
             app_bridge app' = Some b' /\ clients b' !! q = Some queue
             /\ sr_written (sse_response conn') ++ (message_event <$> q_items queue)
                = endpoint_event
                  :: @frames Sample.runtime [Sample.reply 2; Sample.reply 1]
       | _ =>
           sr_written (sse_response conn')
             `prefix_of` endpoint_event
                         :: @frames Sample.runtime [Sample.reply 2; Sample.reply 1]
       end.
Proof.
  intros app before after.
  assert (Hpc : (fun s => sse_pc_of s.1)
                  <$> @sse_handler Sample.runtime before (new_conn, app)
                = Some AtRegister) by compute_now.
  assert (Hopen : (fun s => sr_open (sse_response s.1))
                    <$> @sse_handler Sample.runtime before (new_conn, app)
                  = Some true) by compute_now.
  destruct (@sse_handler Sample.runtime before (new_conn, app))
    as [[conn1 app1]|] eqn:Hbefore; [|discriminate Hpc].
  injection Hpc as Hpc. injection Hopen as Hopen.
  exact (proj2 (@sse_client_gets_later_broadcasts Sample.runtime before after app
                  (set_clients Sample.bridge {[0 := new_queue]}) conn1 app1
                  eq_refl sample_app_ok Hbefore Hpc Hopen)).
Defined.

(** A run computed: the client connects after the first broadcast, so it
    is sent the endpoint frame only, and the second reply is still queued
    when the connection goes away; at the next write the handler ends and
    its queue is taken out. *)
Example sse_on_sample :
  let app := MkApp (Some (set_clients Sample.bridge {[0 := new_queue]})) 1 in
  let hs := [Push (Sample.reply 1); Resume; Resume; Push (Sample.reply 2); HangUp; Resume] in
  let after := @sse_handler Sample.runtime hs (new_conn, app) in
  ((fun s => sse_pc_of s.1) <$> after) = Some SseReturned
  /\ ((fun s => sr_written (sse_response s.1)) <$> after) = Some [endpoint_event]
  /\ ((fun s => (fun b => elements (dom (clients b) : gset nat)) <$> app_bridge s.2) <$> after)
     = Some (Some [0]).
Proof. repeat split; compute_now. Qed.

(** Two broadcasts to an open queue and to one that is shut down. *)
Lemma broadcasts_keep_order_witness :
  let self :=
    set_clients Sample.bridge {[3 := new_queue; 5 := MkQueue ["old"] true]} in
  let after := @broadcasts Sample.runtime [Sample.reply 1; Sample.reply 2] self in
  clients after !! 3
  = Some (MkQueue [Sample.dumps (Sample.reply 1); Sample.dumps (Sample.reply 2)] false)
  /\ clients after !! 5 = None.
Proof.
  intros self after.
  destruct (@broadcasts_keep_order Sample.runtime
              [Sample.reply 1; Sample.reply 2] self) as (Hmember & _).
  split.
  - apply (Hmember 3 new_queue). compute_now.
  - apply (Hmember 5 (MkQueue ["old"] true)). compute_now.
Defined.

(** A body that is a JSON list is the one that is not answered; a
    request the sample child, which keeps its output open, does not
    answer is the one on which the handler never returns. *)
Lemma message_handler_outcomes_witness :
  (@message_handler Sample.runtime (MkRequest None (encode "[1]")) (Some Sample.bridge)).1
  = Propagated (attribute_error "list" "get")
  /\ (@message_handler Sample.runtime
        (MkRequest None (encode (Sample.dumps (JObj Sample.null_id_fields))))
        (Some Sample.bridge)).1
     = Blocked.
Proof.
  split.
  - destruct (@message_handler_outcomes Sample.runtime (MkRequest None (encode "[1]"))
                (Some Sample.bridge)) as (Hescapes & _).
    apply Hescapes. exists (JArr [JInt 1]).
    split; [compute_now|]. split; [discriminate | reflexivity].
  - destruct (@message_handler_outcomes Sample.runtime
                (MkRequest None (encode (Sample.dumps (JObj Sample.null_id_fields))))
                (Some Sample.bridge)) as (_ & Hblocks & _).
    apply Hblocks. exists Sample.null_id_fields, JNull, Sample.bridge.
    split; [compute_now|]. split; [reflexivity|]. split; [reflexivity|].
    compute_now.
Defined.

(** The health check after the cleanup: with a child that exits on
    SIGTERM it answers 503 at once; with one that has to be killed it
    still answers 200 right after, and 503 a moment later. *)
Lemma cleanup_then_health_witness :
  let graceful := (@cleanup_background_tasks (Some Sample.bridge) Sample.os).1.2 in
  let forced :=
    (@cleanup_background_tasks
       (Some (MkBridge "./deaf" (Some (Sample.emitting [])) ∅)) Sample.os).1.2 in
  (@health_handler Sample.runtime graceful).1
  = @json_response Sample.runtime unhealthy 503
  /\ (@health_handler Sample.runtime forced).1
     = @json_response Sample.runtime healthy 200
  /\ (@health_handler Sample.runtime (settled <$> forced)).1
     = @json_response Sample.runtime unhealthy 503.
Proof.
  intros graceful forced.
  destruct (@cleanup_then_health Sample.runtime (Some Sample.bridge) Sample.os)
    as (_ & _ & _ & _ & Hnot).
  destruct (@cleanup_then_health Sample.runtime
              (Some (MkBridge "./deaf" (Some (Sample.emitting [])) ∅)) Sample.os)
    as (_ & _ & Hsettled & Hforced & _).
  split; [|split; [|exact Hsettled]].
  - apply Hnot. intros (b & p & [= <-] & [= <-] & _ & Hl).
    vm_compute in Hl. discriminate Hl.
  - apply Hforced. eexists _, _. split; [reflexivity|]. split; [reflexivity|].
    split; [reflexivity | compute_now].
Defined.

(** Startup where the executable is, and where it is not. *)
Lemma startup_then_health_witness :
  let started := start_background_tasks (Some (new_bridge "./smart-diff-mcp")) Sample.os in
  let failed := start_background_tasks (Some (new_bridge "./missing")) Sample.os in
  (started.1.1 = Ok tt
   /\ (@health_handler Sample.runtime started.1.2).1
      = @json_response Sample.runtime healthy 200)
  /\ (exists e, failed.1.1 = Raise e /\ exn_cls e = FileNotFoundError)
  /\ files failed.2 !! stderr_log = Some [].
Proof.
  intros started failed. split.
  - destruct (@startup_then_health Sample.runtime
                (new_bridge "./smart-diff-mcp") Sample.os) as (Hpresent & _).
    destruct (Hpresent Sample.server) as (Hok & Hhealth & _); [reflexivity|].
    by split.
  - destruct (@startup_then_health Sample.runtime
                (new_bridge "./missing") Sample.os) as (_ & Habsent & _).
    destruct Habsent as (Hraise & _ & Hlog); [compute_now|].
    by split.
Defined.

Lemma clients_hear_the_replies_witness :
  let request := MkRequest None (encode (Sample.dumps (Sample.request 1))) in
  let b := set_clients Sample.bridge {[3 := new_queue]} in
  exists b',
    (@message_handler Sample.runtime request (Some b)).2 = Some b'
    /\ clients b' = omap (queue_put (Sample.dumps (Sample.reply 1))) (clients b).
Proof.
  intros request b.
  apply (@clients_hear_the_replies Sample.runtime request b
           (@json_response Sample.runtime (Sample.reply 1) 200)).
  compute_now.
Defined.

Lemma sse_drains_queue_witness :
  let conn := MkSse (MkStream ∅ true [endpoint_event] true) (AtGet 0) in
  let b := set_clients Sample.bridge {[0 := MkQueue ["first"; "second"] false]} in
  exists conn' app',
    @sse_handler Sample.runtime [Resume; Resume] (conn, MkApp (Some b) 1)
    = Some (conn', app')
    /\ sr_written (sse_response conn')
       = [endpoint_event; message_event "first"; message_event "second"].
Proof.
  intros conn b.
  destruct (@sse_drains_queue Sample.runtime ["first"; "second"] conn
              (MkApp (Some b) 1) b 0)
    as (conn' & app' & b' & Hrun & _ & Hwritten & _); try reflexivity.
  by exists conn', app'.
Defined.
